(** * Stellar Consensus Protocol simulator: the per-node engine

    A shallow embedding of [Value.py], [QuorumSet.py] and the parts of
    [Node.py] that the specification's testable properties talk about,
    followed by the theorems that settle those properties.

    Conventions of the embedding.
    - Python [int] is [Z]; Python [float] is IEEE 754 binary64, written with
      the Standard Library's [SpecFloat] operations at precision 53.
    - A raised exception is an explicit [Raise] result.
    - [np.random.choice] / [random.choice] take their draw as an argument.
    - [Globals.simulation_time] is passed to the operations that read it.
    - Logging, [log_to_file] and [storage.add_messages] have no effect on
      the modelled state. *)

From Stdlib Require Import ZArith SpecFloat.
From stdpp Require Import base gmap strings list fin_maps fin_sets sorting pretty.

Set Warnings "-register-all,-clear-no-such-hyp".
Local Open Scope Z_scope.

(* ===================================================================== *)
(** ** Exceptions *)

Inductive exn :=
  KeyError | ZeroDivisionError | OverflowError | ValueError | TypeError
  | AttributeError.

Inductive result (A : Type) :=
  | Ok (a : A)
  | Raise (e : exn).
Arguments Ok {A} a.
Arguments Raise {A} e.

Global Instance result_ret : MRet result := λ A a, Ok a.
Global Instance result_bind : MBind result := λ A B k r,
  match r with
  | Ok a => k a
  | Raise e => Raise e
  end.

Definition returns {A} (r : result A) : Prop := ∃ a, r = Ok a.

(** A [for] loop whose body may raise. *)
Definition for_each {A S} (body : S → A → result S) (xs : list A) (s : S)
    : result S :=
  foldl (λ (acc : result S) x, s ← acc; body s x) (Ok s) xs.

(* ===================================================================== *)
(** ** Python floats *)

Module PyFloat.

Definition prec : Z := 53.
Definition emax : Z := 1024.

Definition float := spec_float.

Definition mul : float → float → float := SFmul prec emax.
Definition div : float → float → float := SFdiv prec emax.
Definition add : float → float → float := SFadd prec emax.
Definition sub : float → float → float := SFsub prec emax.
Definition ltb : float → float → bool := SFltb.
Definition leb : float → float → bool := SFleb.

(** [float(n)] for an [int]: the nearest binary64, ties to even; Python
    raises [OverflowError] where the rounding leaves the finite range. *)
Definition of_int (n : Z) : result float :=
  match binary_normalize prec emax n 0 false with
  | S754_infinity _ | S754_nan => Raise OverflowError
  | f => Ok f
  end.

(** Division by a float zero raises in Python. *)
Definition truediv (x y : float) : result float :=
  match y with
  | S754_zero _ => Raise ZeroDivisionError
  | _ => Ok (div x y)
  end.

(** [math.ceil]: exact on the rational value of a finite float. *)
Definition ceil (f : float) : result Z :=
  match f with
  | S754_zero _ => Ok 0
  | S754_finite s m e =>
      let v := if s then Z.neg m else Z.pos m in
      Ok (if 0 <=? e then v * 2 ^ e else - ((- v) / 2 ^ (- e)))
  | S754_infinity _ => Raise OverflowError
  | S754_nan => Raise ValueError
  end.

(** [n < f] for an [int] and a [float]: Python compares the exact values. *)
Definition int_lt (n : Z) (f : float) : bool :=
  match f with
  | S754_zero _ => n <? 0
  | S754_finite s m e =>
      let v := if s then Z.neg m else Z.pos m in
      if 0 <=? e then n <? v * 2 ^ e else n * 2 ^ (- e) <? v
  | S754_infinity s => negb s
  | S754_nan => false
  end.

(** [a / b] for two small [int]s, as a float. *)
Definition quotient (a b : Z) : float :=
  div (binary_normalize prec emax a 0 false) (binary_normalize prec emax b 0 false).

(** Literals used by the source. *)
Definition zero : float := S754_zero false.
Definition one : float :=
  Eval vm_compute in binary_normalize prec emax 1 0 false.
Definition hundred : float :=
  Eval vm_compute in binary_normalize prec emax 100 0 false.

End PyFloat.

(* ===================================================================== *)
(** ** Transactions and lifecycle tags *)

(** Modelled from the spec: [Transaction.py] is outside the files at hand.
    A transaction is identified by its content hash; equality and hashing go
    by that hash. *)
Record Transaction := mkTransaction { tx_hash : Z }.

Global Instance Transaction_eq_dec : EqDecision Transaction.
Proof. solve_decision. Defined.

Global Instance Transaction_countable : Countable Transaction.
Proof.
  refine (inj_countable' tx_hash mkTransaction _).
  by intros [].
Defined.

(** The order of [sorted(..., key=lambda tx: tx.hash)]. *)
Definition tx_le (a b : Transaction) : Prop := tx_hash a ≤ tx_hash b.

Global Instance tx_le_dec : RelDecision tx_le.
Proof. intros a b. unfold tx_le. apply _. Defined.

Global Instance tx_le_total : Total tx_le.
Proof. intros a b. unfold tx_le. lia. Qed.

Global Instance tx_le_trans : Transitive tx_le.
Proof. intros a b c. unfold tx_le. lia. Qed.

(** Modelled from the spec: [State.py] is outside the files at hand; the
    lifecycle tag of a value is one of init / nominated / accepted /
    confirmed. *)
Inductive State := init | nominated | accepted | confirmed.

Global Instance State_eq_dec : EqDecision State.
Proof. solve_decision. Defined.

(** The interpreter's [hash] builtin, on the two kinds of object the engine
    hashes: a [frozenset] of transactions (a function of the set, whatever
    the order the elements were given in) and a node name. *)
Class PyHash := {
  hash_frozenset : gset Transaction → Z;
  hash_str : string → Z
}.

(* ===================================================================== *)
(** ** Value.py *)

Module Value.

(** [_transactions] holds whatever collection the caller passed, a list or
    a set; a set is represented by an enumeration of its elements. *)
Record t := mk {
  transactions : list Transaction;
  hash : Z;
  state : State
}.

(** [set(v.transactions)] *)
Definition tx_set (v : t) : gset Transaction := list_to_set (transactions v).

Section with_hash.
Context `{PyHash}.

(** [Value.__init__] *)
Definition __init__ (txs : list Transaction) (st : option State) : t :=
  {| transactions := txs;
     hash := hash_frozenset (list_to_set txs);
     state := default init st |}.

(** The [transactions] setter recomputes the hash. *)
Definition set_transactions (v : t) (tx_list : list Transaction) : t :=
  {| transactions := tx_list;
     hash := hash_frozenset (list_to_set tx_list);
     state := state v |}.

(** [Value.combine]: the union of the transactions, collected in a set,
    handed to the constructor with no state. *)
Definition combine (values : list t) : t :=
  let combined_txs : gset Transaction :=
    foldl (λ acc value, acc ∪ list_to_set (transactions value)) ∅ values in
  __init__ (elements combined_txs) None.

(** What the constructor and the setter maintain. *)
Definition consistent (v : t) : Prop :=
  hash v = hash_frozenset (tx_set v).

End with_hash.

(** [Value.__eq__] *)
Definition __eq__ (self other : t) : bool :=
  bool_decide (hash self = hash other)
  && bool_decide (state self = state other)
  && bool_decide (tx_set self = tx_set other).

(** [x in values] on a list: identity or [==]; an object is equal to
    itself under [__eq__], so [==] alone decides. *)
Definition mem (x : t) (values : list t) : bool :=
  existsb (__eq__ x) values.

End Value.

(* ===================================================================== *)
(** ** Objects, identity and equality *)

(** A reference to a [Node] object: [node_id] stands for the object's
    identity ([id(n)], what [is] compares), [node_name] for its [name]
    attribute. *)
Record NodeRef := mkNodeRef { node_id : nat; node_name : string }.

Global Instance NodeRef_eq_dec : EqDecision NodeRef.
Proof. solve_decision. Defined.

(** [a is b] on nodes. *)
Definition node_is (a b : NodeRef) : bool := bool_decide (node_id a = node_id b).

(** The objects a node may be compared with. *)
Inductive obj :=
  | OStr (s : string)
  | OInt (z : Z)
  | ONone
  | ONode (n : NodeRef)
  | OOther (ident : nat).

Global Instance obj_eq_dec : EqDecision obj.
Proof. solve_decision. Defined.

(** [s == x] for a [str] [s].  [str.__eq__] answers only for another [str];
    for a [Node] the interpreter falls back on the reflected
    [Node.__eq__(x, s)], which compares [x.name] with [s]; anything else
    is a different object. *)
Definition str_eq (s : string) (x : obj) : bool :=
  match x with
  | OStr s' => bool_decide (s = s')
  | ONode m => bool_decide (node_name m = s)
  | _ => false
  end.

(* ===================================================================== *)
(** ** Ballots and statement counters *)

(** Modelled from the spec: [SCPBallot.py] is outside the files at hand; a
    ballot is a pair of a counter and a value. *)
Record SCPBallot := mkBallot { counter : Z; value : Value.t }.

(** An entry of the nomination [statement_counter]: for each of "voted" and
    "accepted" a dict from peer name to 1. *)
Record NomEntry := mkNomEntry {
  nom_voted : gmap string Z;
  nom_accepted : gmap string Z
}.

(** An entry of the ballot statement counters: four sets of [Node] objects.
    Nodes hash and compare by name, so each set is kept as the set of the
    names of its members. *)
Record BallotEntry := mkBallotEntry {
  be_voted : gset string;
  be_accepted : gset string;
  be_confirmed : gset string;
  be_aborted : gset string
}.

(** A dict keyed by [Value]: keys are found through [Value.__eq__]. *)
Definition vdict (V : Type) := list (Value.t * V).

Definition vdict_get {V} (d : vdict V) (k : Value.t) : option V :=
  snd <$> List.find (λ kv, Value.__eq__ (fst kv) k) d.

Definition vdict_mem {V} (d : vdict V) (k : Value.t) : bool :=
  bool_decide (is_Some (vdict_get d k)).

(** [if k not in d: d[k] = v] *)
Definition vdict_setdefault {V} (k : Value.t) (v : V) (d : vdict V) : vdict V :=
  if vdict_mem d k then d else d ++ [(k, v)].

(** The value stored under [k] changed in place by [f] (as [d[k].add(x)]
    does): the entry whose key equals [k]. *)
Fixpoint vdict_alter {V} (f : V → V) (k : Value.t) (d : vdict V) : vdict V :=
  match d with
  | [] => []
  | (k', v) :: d' =>
      if Value.__eq__ k' k then (k', f v) :: d' else (k', v) :: vdict_alter f k d'
  end.

(** [d.pop(k)]: a missing key raises. *)
Definition pop {V} (k : Z) (d : gmap Z V) : result (gmap Z V) :=
  match d !! k with
  | Some _ => Ok (delete k d)
  | None => Raise KeyError
  end.

(** [max(x :: xs, key=key)]: the first element with the largest key. *)
Definition max_by {A} (key : A → Z) (x : A) (xs : list A) : A :=
  foldl (λ best y, if key best <? key y then y else best) x xs.

(* ===================================================================== *)
(** ** QuorumSet.py *)

Definition THRESHOLD_DEFAULT : Z := 55.

Module QuorumSet.

(** A threshold is an [int] or a [float]. *)
Inductive number := NInt (z : Z) | NFloat (f : PyFloat.float).

(** An inner set: a node, or a list nested to any depth. *)
Inductive member :=
  | Peer (n : NodeRef)
  | Nested (xs : list member).

Record t := mk {
  node : NodeRef;
  threshold : number;
  nodes : list NodeRef;
  inner_sets : list member
}.

(** [QuorumSet.__init__] *)
Definition __init__ (owner : NodeRef) (inner : option (list member))
    (thr : option number) : t :=
  {| node := owner;
     threshold := default (NInt THRESHOLD_DEFAULT) thr;
     nodes := [];
     inner_sets := default [] inner |}.

(** [set] *)
Definition set (self : t) (ns : list NodeRef) (inner : option (list member)) : t :=
  {| node := node self; threshold := threshold self;
     nodes := ns; inner_sets := default [] inner |}.

Definition get_nodes (self : t) : list NodeRef := nodes self.
Definition get_inner_sets (self : t) : list member := inner_sets self.

(** [_flatten] *)
Fixpoint flatten_member (x : member) : list NodeRef :=
  match x with
  | Peer n => [n]
  | Nested xs => flat_map flatten_member xs
  end.

Definition _flatten (xs : list member) : list NodeRef :=
  flat_map flatten_member xs.

(** [size] *)
Definition size (self : t) : Z :=
  Z.of_nat (length (nodes self)) + Z.of_nat (length (_flatten (inner_sets self))).

(** [isinstance(t, float) and 0 < t <= 1] *)
Definition is_fraction (thr : number) : bool :=
  match thr with
  | NInt _ => false
  | NFloat f => PyFloat.ltb PyFloat.zero f && PyFloat.leb f PyFloat.one
  end.

(** [t / 100.0] *)
Definition percent (thr : number) : result PyFloat.float :=
  match thr with
  | NInt z => f ← PyFloat.of_int z; PyFloat.truediv f PyFloat.hundred
  | NFloat f => PyFloat.truediv f PyFloat.hundred
  end.

(** The body of [minimum_quorum], on its locals [sz] and [t]. *)
Definition needed (sz : Z) (t : number) : result Z :=
  match t with
  | NFloat f =>
      if is_fraction t
      then s ← PyFloat.of_int sz; PyFloat.ceil (PyFloat.mul s f)
      else p ← percent t; s ← PyFloat.of_int sz; PyFloat.ceil (PyFloat.mul s p)
  | NInt _ =>
      p ← percent t; s ← PyFloat.of_int sz; PyFloat.ceil (PyFloat.mul s p)
  end.

(** [minimum_quorum] *)
Definition minimum_quorum (self : t) : result Z :=
  needed (size self) (threshold self).

(** [get_quorum]: the validators and the flattened inner sets. *)
Definition get_quorum (self : t) : list NodeRef * list NodeRef :=
  (nodes self, _flatten (inner_sets self)).

(** [check_threshold] *)
Definition check_threshold (val : Value.t) (quorum : list member)
    (thr : Z) (node_statement_counter : gmap Z NomEntry) : bool :=
  let entry := default (mkNomEntry ∅ ∅) (node_statement_counter !! Value.hash val) in
  let signed :=
    foldl (λ signed peer,
             if bool_decide (is_Some (nom_voted entry !! node_name peer))
                || bool_decide (is_Some (nom_accepted entry !! node_name peer))
             then signed + 1 else signed)
          0 (_flatten quorum) in
  bool_decide (thr ≤ signed).

(** The loop shared by [check_prepare_threshold] and
    [check_commit_threshold]: a peer is counted once. *)
Definition count_signed (entry : BallotEntry) (flat_peers : list NodeRef) : Z :=
  fst (foldl (λ '(signed, seen) peer,
                if bool_decide (node_name peer ∈ seen) then (signed, seen)
                else if bool_decide (node_name peer ∈ be_voted entry)
                        || bool_decide (node_name peer ∈ be_accepted entry)
                then (signed + 1, {[ node_name peer ]} ∪ seen)
                else (signed, seen))
             (0, (∅ : gset string)) flat_peers).

(** [check_prepare_threshold] *)
Definition check_prepare_threshold (ballot : SCPBallot) (quorum : list member)
    (thr : Z) (prepare_statement_counter : vdict BallotEntry) : bool :=
  match vdict_get prepare_statement_counter (value ballot) with
  | None => false
  | Some entry => bool_decide (thr ≤ count_signed entry (_flatten quorum))
  end.

(** [check_commit_threshold] *)
Definition check_commit_threshold (ballot : SCPBallot) (quorum : list member)
    (thr : Z) (commit_statement_counter : vdict BallotEntry) : bool :=
  match vdict_get commit_statement_counter (value ballot) with
  | None => false
  | Some entry => bool_decide (thr ≤ count_signed entry (_flatten quorum))
  end.

(** [check_inner_set_blocking_threshold].  [calling_node] is given by its
    reference and its [statement_counter]; a missing key raises. *)
Definition check_inner_set_blocking_threshold (calling_node : NodeRef)
    (statement_counter : gmap Z NomEntry) (val : Value.t)
    (quorum : list member) : result Z :=
  let flat_peers := _flatten quorum in
  match statement_counter !! Value.hash val with
  | None => Raise KeyError
  | Some entry =>
      Ok (fst (foldl (λ '(count, seen) peer,
                 if node_is peer calling_node || bool_decide (node_name peer ∈ seen)
                 then (count, seen)
                 else if bool_decide (is_Some (nom_voted entry !! node_name peer))
                         || bool_decide (is_Some (nom_accepted entry !! node_name peer))
                 then (count + 1, {[ node_name peer ]} ∪ seen)
                 else (count, seen))
               (0, (∅ : gset string)) flat_peers))
  end.

(** [retrieve_random_peer]; [draw] is the random index. *)
Definition retrieve_random_peer (self : t) (calling_node : NodeRef)
    (draw : nat) : option NodeRef :=
  let candidates :=
    List.filter (λ n, negb (node_is n calling_node)) (nodes self)
    ++ flat_map (λ inner,
         List.filter (λ n, negb (node_is n calling_node)) (_flatten [inner]))
         (inner_sets self) in
  match candidates with
  | [] => None
  | _ => candidates !! (draw mod length candidates)%nat
  end.

(** [x == v] for a node [v] and an element [x] of [self.nodes] or of an
    inner list: nodes compare by name, a nested list is never equal to a
    node. *)
Definition member_eq_node (x : member) (v : NodeRef) : bool :=
  match x with
  | Peer n => str_eq (node_name n) (ONode v)
  | Nested _ => false
  end.

(** [self == v]: [QuorumSet] defines no [__eq__], so the reflected
    [Node.__eq__(v, self)] decides, comparing the name of [v] with the
    quorum-set object. *)
Definition eq_node (self : t) (v : NodeRef) : bool :=
  str_eq (node_name v) (OOther 0).

(** [weight] *)
Definition weight (self : t) (v : NodeRef) : result PyFloat.float :=
  let count := Z.of_nat (length (List.filter (λ n, member_eq_node (Peer n) v) (nodes self))) in
  let count :=
    foldl (λ count inner_set,
             match inner_set with
             | Nested xs => if existsb (λ x, member_eq_node x v) xs
                            then count + 1 else count
             | Peer n => if member_eq_node (Peer n) v then count + 1 else count
             end)
          count (inner_sets self) in
  let total_slices :=
    Z.of_nat (length (nodes self)) + Z.of_nat (length (inner_sets self)) in
  if eq_node self v then
    c ← PyFloat.of_int total_slices; d ← PyFloat.of_int total_slices;
    PyFloat.truediv c d
  else if total_slices =? 0 then Ok PyFloat.zero
  else
    c ← PyFloat.of_int count; d ← PyFloat.of_int total_slices;
    PyFloat.truediv c d.

(** [get_node]; [draw] is the random index.  [np.random.choice] raises
    [ValueError] on an empty list. *)
Definition get_node (self : t) (draw : nat) : result (option NodeRef) :=
  match nodes self with
  | [] => Ok None
  | _ =>
      let others :=
        List.filter (λ n, negb (str_eq (node_name n) (ONode (node self)))) (nodes self) in
      match others with
      | [] => Raise ValueError
      | _ => Ok (others !! (draw mod length others)%nat)
      end
  end.

End QuorumSet.

(* ===================================================================== *)
(** ** Message envelopes, ledger, mempool *)

(** Modelled from the spec: the envelope classes ([SCPNominate],
    [SCPPrepare], [SCPCommit], [SCPExternalize]) are outside the files at
    hand; their fields are those of the constructor calls in [Node.py]. *)
Record SCPNominate := mkNominate {
  msg_voted : list Value.t;
  msg_accepted : list Value.t;
  msg_confirmed : list Value.t
}.

Record SCPPrepare := mkPrepare {
  prep_ballot : SCPBallot;
  aCounter : Z;
  cCounter : Z;
  hCounter : Z
}.

Record SCPCommit := mkCommit {
  commit_ballot : SCPBallot;
  preparedCounter : Z
}.

Record SCPExternalize := mkExternalize {
  ext_ballot : SCPBallot;
  ext_hCounter : Z;
  timestamp : PyFloat.float
}.

(** Modelled from the spec: [Ledger.py] is outside the files at hand.  The
    ledger maps a slot index to its externalize record and is write-once:
    a slot that has a record keeps it. *)
Definition add_slot (slots : gmap Z SCPExternalize) (slot : Z)
    (externalize_msg : SCPExternalize) : gmap Z SCPExternalize :=
  match slots !! slot with
  | Some _ => slots
  | None => <[slot := externalize_msg]> slots
  end.

(** [xs.remove(x)] inside [try ... except ValueError: pass]: drop the first
    element that [eqb] finds equal, or leave the list alone. *)
Fixpoint remove_first {A} (eqb : A → bool) (xs : list A) : list A :=
  match xs with
  | [] => []
  | y :: ys => if eqb y then ys else y :: remove_first eqb ys
  end.

(** The arguments packed by [Gi] after the slot. *)
Inductive gi_arg := GInt (z : Z) | GStr (s : string).

(** What the engine takes from its surroundings: the 256-bit integer that
    SHA-256 gives for the XDR packing of the slot and the arguments, and the
    outcome of [tx == h] for a transaction and a bare hash (decided by
    [Transaction.__eq__], outside the files at hand). *)
Class Environment := {
  sha256_xdr : Z → list gi_arg → Z;
  tx_eq_hash : Transaction → Z → bool
}.

(* ===================================================================== *)
(** ** Node.py *)

(** Field update for records. *)
Class Setter {R T} (proj : R → T) := set : T → R → R.
Arguments set {R T} proj {Setter} v x.
#[warnings="-postfix-notation-not-level-1"]
Notation "x <| proj := v |>" := (set proj v x)
  (at level 12, left associativity, format "x  <| proj  :=  v |>").

Module Node.

Record nomination_state_t := mkNomState {
  voted : list Value.t;
  accepted : list Value.t;
  confirmed : list Value.t
}.

Record balloting_state_t := mkBallotState {
  b_voted : gmap Z SCPBallot;
  b_accepted : gmap Z SCPBallot;
  b_confirmed : gmap Z SCPBallot;
  b_aborted : gmap Z SCPBallot
}.

Record commit_ballot_state_t := mkCommitState {
  c_voted : gmap Z SCPBallot;
  c_accepted : gmap Z SCPBallot;
  c_confirmed : gmap Z SCPBallot
}.

(** The attributes set by [Node.__init__].  A Python set of envelopes is
    kept as a list.  [mempool] is [None] until a mempool is attached;
    [Some txs] is a mempool whose [transactions] list is [txs]. *)
Record t := mk {
  self_ref : NodeRef;
  quorum_set : QuorumSet.t;
  ledger : gmap Z SCPExternalize;
  slot : Z;
  mempool : option (list Transaction);
  tx_queue : list Transaction;
  nomination_state : nomination_state_t;
  statement_counter : gmap Z NomEntry;
  broadcast_flags : list SCPNominate;
  received_broadcast_msgs : gmap string (list SCPNominate);
  priority_list : list NodeRef;
  finalised_transactions : gset Z;
  _seen_finalised_ballots : list (Z * Value.t);
  nomination_round : Z;
  last_nomination_start_time : PyFloat.float;
  balloting_state : balloting_state_t;
  ballot_statement_counter : vdict BallotEntry;
  ballot_prepare_broadcast_flags : list SCPPrepare;
  received_prepare_broadcast_msgs : gmap string (list SCPPrepare);
  prepared_ballots : vdict SCPPrepare;
  commit_ballot_state : commit_ballot_state_t;
  commit_ballot_statement_counter : vdict BallotEntry;
  commit_ballot_broadcast_flags : list SCPCommit;
  received_commit_ballot_broadcast_msgs : gmap string (list SCPCommit);
  committed_ballots : vdict SCPCommit;
  externalize_broadcast_flags : list (Z * SCPExternalize);
  externalized_slot_counter : list SCPExternalize;
  peer_externalised_statements : gmap string (list (Z * SCPExternalize))
}.

(** Attribute assignment: [self <| f := v |>] is [self] with field [f]
    replaced by [v]. *)
Definition eta (self : t) : t :=
  mk (self_ref self) (quorum_set self) (ledger self) (slot self) (mempool
    self) (tx_queue self) (nomination_state self) (statement_counter self)
    (broadcast_flags self) (received_broadcast_msgs self) (priority_list
    self) (finalised_transactions self) (_seen_finalised_ballots self)
    (nomination_round self) (last_nomination_start_time self)
    (balloting_state self) (ballot_statement_counter self)
    (ballot_prepare_broadcast_flags self) (received_prepare_broadcast_msgs
    self) (prepared_ballots self) (commit_ballot_state self)
    (commit_ballot_statement_counter self) (commit_ballot_broadcast_flags
    self) (received_commit_ballot_broadcast_msgs self) (committed_ballots
    self) (externalize_broadcast_flags self) (externalized_slot_counter
    self) (peer_externalised_statements self).

Ltac setter proj :=
  let v := fresh "v" in
  let self := fresh "self" in
  intros v self;
  let e := eval cbv [eta] in (eta self) in
  match eval pattern (proj self) in e with
  | ?f _ => let r := eval cbv beta in (f v) in exact r
  end.

Global Instance set_self_ref : Setter self_ref.
Proof. setter self_ref. Defined.
Global Instance set_quorum_set : Setter quorum_set.
Proof. setter quorum_set. Defined.
Global Instance set_ledger : Setter ledger.
Proof. setter ledger. Defined.
Global Instance set_slot : Setter slot.
Proof. setter slot. Defined.
Global Instance set_mempool : Setter mempool.
Proof. setter mempool. Defined.
Global Instance set_tx_queue : Setter tx_queue.
Proof. setter tx_queue. Defined.
Global Instance set_nomination_state : Setter nomination_state.
Proof. setter nomination_state. Defined.
Global Instance set_statement_counter : Setter statement_counter.
Proof. setter statement_counter. Defined.
Global Instance set_broadcast_flags : Setter broadcast_flags.
Proof. setter broadcast_flags. Defined.
Global Instance set_received_broadcast_msgs : Setter received_broadcast_msgs.
Proof. setter received_broadcast_msgs. Defined.
Global Instance set_priority_list : Setter priority_list.
Proof. setter priority_list. Defined.
Global Instance set_finalised_transactions : Setter finalised_transactions.
Proof. setter finalised_transactions. Defined.
Global Instance set__seen_finalised_ballots : Setter _seen_finalised_ballots.
Proof. setter _seen_finalised_ballots. Defined.
Global Instance set_nomination_round : Setter nomination_round.
Proof. setter nomination_round. Defined.
Global Instance set_last_nomination_start_time : Setter last_nomination_start_time.
Proof. setter last_nomination_start_time. Defined.
Global Instance set_balloting_state : Setter balloting_state.
Proof. setter balloting_state. Defined.
Global Instance set_ballot_statement_counter : Setter ballot_statement_counter.
Proof. setter ballot_statement_counter. Defined.
Global Instance set_ballot_prepare_broadcast_flags : Setter ballot_prepare_broadcast_flags.
Proof. setter ballot_prepare_broadcast_flags. Defined.
Global Instance set_received_prepare_broadcast_msgs : Setter received_prepare_broadcast_msgs.
Proof. setter received_prepare_broadcast_msgs. Defined.
Global Instance set_prepared_ballots : Setter prepared_ballots.
Proof. setter prepared_ballots. Defined.
Global Instance set_commit_ballot_state : Setter commit_ballot_state.
Proof. setter commit_ballot_state. Defined.
Global Instance set_commit_ballot_statement_counter : Setter commit_ballot_statement_counter.
Proof. setter commit_ballot_statement_counter. Defined.
Global Instance set_commit_ballot_broadcast_flags : Setter commit_ballot_broadcast_flags.
Proof. setter commit_ballot_broadcast_flags. Defined.
Global Instance set_received_commit_ballot_broadcast_msgs : Setter received_commit_ballot_broadcast_msgs.
Proof. setter received_commit_ballot_broadcast_msgs. Defined.
Global Instance set_committed_ballots : Setter committed_ballots.
Proof. setter committed_ballots. Defined.
Global Instance set_externalize_broadcast_flags : Setter externalize_broadcast_flags.
Proof. setter externalize_broadcast_flags. Defined.
Global Instance set_externalized_slot_counter : Setter externalized_slot_counter.
Proof. setter externalized_slot_counter. Defined.
Global Instance set_peer_externalised_statements : Setter peer_externalised_statements.
Proof. setter peer_externalised_statements. Defined.


Definition MAX_SLOT_TXS : nat := 200.

(** [Node.__init__] with no quorum set, ledger or storage given. *)
Definition __init__ (ref : NodeRef) : t :=
  {| self_ref := ref;
     quorum_set := QuorumSet.__init__ ref None None;
     ledger := ∅;
     slot := 1;
     mempool := None;
     tx_queue := [];
     nomination_state := mkNomState [] [] [];
     statement_counter := ∅;
     broadcast_flags := [];
     received_broadcast_msgs := ∅;
     priority_list := [];
     finalised_transactions := ∅;
     _seen_finalised_ballots := [];
     nomination_round := 1;
     last_nomination_start_time := PyFloat.zero;
     balloting_state := mkBallotState ∅ ∅ ∅ ∅;
     ballot_statement_counter := [];
     ballot_prepare_broadcast_flags := [];
     received_prepare_broadcast_msgs := ∅;
     prepared_ballots := [];
     commit_ballot_state := mkCommitState ∅ ∅ ∅;
     commit_ballot_statement_counter := [];
     commit_ballot_broadcast_flags := [];
     received_commit_ballot_broadcast_msgs := ∅;
     committed_ballots := [];
     externalize_broadcast_flags := [];
     externalized_slot_counter := [];
     peer_externalised_statements := ∅ |}.

(** [set_quorum] *)
Definition set_quorum (self : t) (ns : list NodeRef)
    (inner : option (list QuorumSet.member)) (thr : option QuorumSet.number) : t :=
  let q := quorum_set self in
  let q := match thr with
           | Some x => QuorumSet.mk (QuorumSet.node q) x (QuorumSet.nodes q)
                                    (QuorumSet.inner_sets q)
           | None => q
           end in
  self <| quorum_set := QuorumSet.set q ns inner |>.

(** [attach_mempool]; the mempool is given by its list of transactions. *)
Definition attach_mempool (self : t) (transactions : list Transaction) : t :=
  self <| mempool := Some transactions |>.

(** What a method that changes the node in place leaves behind: the node as
    it is when the method returns, or as it is when an exception leaves the
    method half-way. *)
Inductive outcome :=
  | Returned (self : t)
  | Raised (e : exn) (self : t).

Definition state_of (o : outcome) : t :=
  match o with
  | Returned self => self
  | Raised _ self => self
  end.

Definition name (self : t) : string := node_name (self_ref self).

(** [Node.__eq__(self, name)]: [self.name == name]. *)
Definition __eq__ (self : NodeRef) (other : obj) : bool :=
  str_eq (node_name self) other.

(** [Node.__hash__] *)
Definition __hash__ `{PyHash} (self : NodeRef) : Z := hash_str (node_name self).

(** [Node.weight] *)
Definition weight (self : t) (v : NodeRef) : PyFloat.float := PyFloat.one.

(** [k == x] for two objects: the left operand's [__eq__] where it
    answers, else the reflected one, else identity. *)
Definition obj_eq (k x : obj) : bool :=
  match k, x with
  | ONode n, _ => __eq__ n x
  | OStr s, _ => str_eq s x
  | _, ONode n => __eq__ n k
  | _, OStr s => str_eq s k
  | _, _ => bool_decide (k = x)
  end.

(** [hash(x)] for the keys the engine stores: names and nodes. *)
Definition obj_hash `{PyHash} (x : obj) : option Z :=
  match x with
  | OStr s => Some (hash_str s)
  | ONode n => Some (__hash__ n)
  | _ => None
  end.

(** [x in keys] for a Python set, or the keys of a dict: some key has the
    hash of [x] and is [x] or equal to it. *)
Definition hashed_mem `{PyHash} (x : obj) (keys : list obj) : bool :=
  existsb (λ k, bool_decide (obj_hash k = obj_hash x)
                && (bool_decide (k = x) || obj_eq k x))
          keys.

(** The name under which a stored key answers. *)
Definition key_name (k : obj) : option string :=
  match k with
  | OStr s => Some s
  | ONode n => Some (node_name n)
  | _ => None
  end.

(** [_flatten_nested(q)] iterates [q]; a node in place of a list is not
    iterable. *)
Definition _flatten_nested (q : QuorumSet.member) : result (list NodeRef) :=
  match q with
  | QuorumSet.Nested xs => Ok (QuorumSet._flatten xs)
  | QuorumSet.Peer _ => Raise TypeError
  end.

(** A set of nodes, kept in insertion order; [add] goes by name. *)
Definition node_set_mem (n : NodeRef) (s : list NodeRef) : bool :=
  existsb (λ m, str_eq (node_name m) (ONode n)) s.

Definition node_set_add (n : NodeRef) (s : list NodeRef) : list NodeRef :=
  if node_set_mem n s then s else s ++ [n].

(** Keep the first object of each identity ([seen_ids] / [id(p)]). *)
Definition unique_step (acc : gset nat * list NodeRef) (p : NodeRef)
    : gset nat * list NodeRef :=
  let seen_ids := acc.1 in
  let unique := acc.2 in
  if bool_decide (node_id p ∈ seen_ids) then acc
  else ({[ node_id p ]} ∪ seen_ids, unique ++ [p]).

Definition unique_by_id (ps : list NodeRef) : list NodeRef :=
  (foldl unique_step (∅, []) ps).2.

Definition two_256 : PyFloat.float :=
  Eval vm_compute in binary_normalize PyFloat.prec PyFloat.emax (2 ^ 256) 0 false.

Section with_environment.
Context `{PyHash} `{Environment}.

(** [Gi] *)
Definition Gi (self : t) (values : list gi_arg) : Z :=
  sha256_xdr (slot self) values.

(** The test of [get_priority_list] for one peer of the quorum set. *)
Definition is_neighbor (self : t) (node : NodeRef) : result bool :=
  w ← QuorumSet.weight (quorum_set self) node;
  Ok (PyFloat.int_lt
          (Gi self [GInt 1; GInt (nomination_round self); GStr (node_name node)])
          (PyFloat.mul two_256 w)).

Definition add_neighbors (self : t) (unique_nodes : list NodeRef)
    (ns : list NodeRef) : result (list NodeRef) :=
  foldl (λ (acc : result (list NodeRef)) node,
           u ← acc;
           b ← is_neighbor self node;
           Ok (if (b : bool) then node_set_add node u else u))
        (Ok unique_nodes) ns.

(** [get_priority_list]: the new state and the returned set. *)
Definition get_priority_list (self : t) : result (t * list NodeRef) :=
  let unique_nodes :=
    if PyFloat.int_lt
         (Gi self [GInt 1; GInt (nomination_round self); GStr (name self)])
         (PyFloat.mul two_256 PyFloat.one)
    then [self_ref self] else [] in
  unique_nodes ← add_neighbors self unique_nodes
                   (QuorumSet.get_nodes (quorum_set self));
  unique_nodes ←
    foldl (λ (acc : result (list NodeRef)) inner_set,
             u ← acc;
             all_nodes ← _flatten_nested inner_set;
             add_neighbors self u all_nodes)
          (Ok unique_nodes) (QuorumSet.get_inner_sets (quorum_set self));
  Ok (self <| priority_list :=
                  foldl (λ s n, node_set_add n s) (priority_list self) unique_nodes |>,
        unique_nodes).

(** [check_update_nomination_round]; [now] is [Globals.simulation_time]. *)
Definition check_update_nomination_round (now : PyFloat.float) (self : t)
    : result t :=
  r ← PyFloat.of_int (nomination_round self);
  if PyFloat.ltb (PyFloat.add (last_nomination_start_time self) r) now
  then
    let self := self <| nomination_round := nomination_round self + 1 |> in
    '(self, _) ← get_priority_list self;
    Ok self
  else Ok self.

(** [check_Quorum_threshold] *)
Definition check_Quorum_threshold (self : t) (val : Value.t) : result bool :=
  if negb (Value.mem val (voted (nomination_state self)))
     && negb (Value.mem val (accepted (nomination_state self)))
  then Ok false
  else
    let top := QuorumSet.get_nodes (quorum_set self) in
    let inner := QuorumSet.get_inner_sets (quorum_set self) in
    let all_peers := top ++ QuorumSet._flatten inner in
    let unique := unique_by_id (all_peers ++ [self_ref self]) in
    let entry :=
      default (mkNomEntry ∅ ∅) (statement_counter self !! Value.hash val) in
    let signed :=
      Z.of_nat (length (List.filter
        (λ p, node_is p (self_ref self)
              || bool_decide (is_Some (nom_voted entry !! node_name p))
              || bool_decide (is_Some (nom_accepted entry !! node_name p)))
        unique)) in
    needed ← QuorumSet.minimum_quorum (quorum_set self);
    Ok (bool_decide (needed ≤ signed)).

(** One turn of the loop of [check_Blocking_threshold] over the quorum
    nodes; the counter entry is looked up for every node but [self]. *)
Definition blocking_step (self : t) (val : Value.t)
    (acc : Z * gset string) (node : NodeRef) : result (Z * gset string) :=
  let signed_count := acc.1 in
  let seen_signed := acc.2 in
  if node_is node (self_ref self) then Ok acc
  else
    match statement_counter self !! Value.hash val with
    | None => Raise KeyError
    | Some entry =>
        if (bool_decide (is_Some (nom_voted entry !! node_name node))
            || bool_decide (is_Some (nom_accepted entry !! node_name node)))
           && negb (bool_decide (node_name node ∈ seen_signed))
        then Ok (signed_count + 1, {[ node_name node ]} ∪ seen_signed)
        else Ok acc
    end.

(** One turn of its second loop, over the slices of the inner sets. *)
Definition inner_set_step (self : t) (val : Value.t)
    (inner_set_count : Z) (raw_slice : NodeRef) : result Z :=
  let flat_slice := QuorumSet._flatten [QuorumSet.Peer raw_slice] in
  c ← QuorumSet.check_inner_set_blocking_threshold
        (self_ref self) (statement_counter self) val
        (QuorumSet.Peer <$> flat_slice);
  Ok (inner_set_count + c).

(** [check_Blocking_threshold] *)
Definition check_Blocking_threshold (self : t) (val : Value.t) : result bool :=
  if negb (Value.mem val (voted (nomination_state self)))
     && negb (Value.mem val (accepted (nomination_state self)))
  then Ok false
  else
    let validators := (QuorumSet.get_quorum (quorum_set self)).1 in
    let inner_sets := (QuorumSet.get_quorum (quorum_set self)).2 in
    let all_quorum_nodes :=
      validators ++ QuorumSet._flatten (QuorumSet.Peer <$> inner_sets) in
    let unique_quorum_nodes := unique_by_id all_quorum_nodes in
    let n := Z.of_nat (length unique_quorum_nodes) in
    k ← QuorumSet.minimum_quorum (quorum_set self);
    if n =? 0 then Ok false
    else
      counted ← for_each (blocking_step self val) unique_quorum_nodes (1, ∅);
      inner_set_count ← for_each (inner_set_step self val) inner_sets 0;
      Ok (bool_decide (n - k < counted.1 + inner_set_count)).

(** A Python set built from [txs], as an enumeration of its elements. *)
Definition py_set (txs : list Transaction) : list Transaction :=
  elements (list_to_set txs : gset Transaction).

(** [collect_finalised_transactions] *)
Definition collect_finalised_transactions (self : t) : t :=
  if slot self =? 1 then self
  else
    foldl (λ self ext_msg,
             let b := ext_ballot ext_msg in
             let key := (counter b, value b) in
             if existsb (λ k, bool_decide (fst k = fst key)
                               && Value.__eq__ (snd k) (snd key))
                        (_seen_finalised_ballots self)
             then self
             else
               self <| _seen_finalised_ballots :=
                         _seen_finalised_ballots self ++ [key] |>
                    <| finalised_transactions :=
                         finalised_transactions self
                         ∪ list_to_set (tx_hash <$> Value.transactions (value b)) |>)
          self (externalized_slot_counter self).

(** [clean_prepare_and_commit_state] *)
Definition clean_prepare_and_commit_state (self : t) : t :=
  let is_finalized (v : Value.t) : bool :=
    forallb (λ tx, bool_decide (tx_hash tx ∈ finalised_transactions self))
            (Value.transactions v) in
  let keep_ballots : gmap Z SCPBallot → gmap Z SCPBallot :=
    filter (λ kv, is_finalized (value (snd kv)) = false) in
  let keep_values {V} : vdict V → vdict V :=
    List.filter (λ kv, negb (is_finalized (fst kv))) in
  let bs := balloting_state self in
  let cs := commit_ballot_state self in
  self <| balloting_state :=
            mkBallotState (keep_ballots (b_voted bs)) (keep_ballots (b_accepted bs))
                          (keep_ballots (b_confirmed bs)) (keep_ballots (b_aborted bs)) |>
       <| ballot_statement_counter := keep_values (ballot_statement_counter self) |>
       <| prepared_ballots := keep_values (prepared_ballots self) |>
       <| commit_ballot_state :=
            mkCommitState (keep_ballots (c_voted cs)) (keep_ballots (c_accepted cs))
                          (keep_ballots (c_confirmed cs)) |>
       <| commit_ballot_statement_counter :=
            keep_values (commit_ballot_statement_counter self) |>
       <| committed_ballots := keep_values (committed_ballots self) |>.

(** The pruning loop over one phase of [nomination_state]: drop the
    transactions whose hash is in [finalized], drop emptied values. *)
Definition prune_phase (finalized : gset Z) (vals : list Value.t) : list Value.t :=
  omap (λ old_val,
          let keep := py_set (List.filter
                        (λ tx, negb (bool_decide (tx_hash tx ∈ finalized)))
                        (Value.transactions old_val)) in
          match keep with
          | [] => None
          | _ => Some (Value.__init__ keep None)
          end)
       vals.

Definition prune_nomination_state (finalized : gset Z)
    (ns : nomination_state_t) : nomination_state_t :=
  mkNomState (prune_phase finalized (voted ns))
             (prune_phase finalized (accepted ns))
             (prune_phase finalized (confirmed ns)).

(** [sorted(txs, key=lambda tx: tx.hash)] *)
Definition sorted_by_hash (txs : list Transaction) : list Transaction :=
  merge_sort tx_le txs.

(** [is_value_already_present] *)
Definition is_value_already_present (self : t) (new_value : Value.t) : bool :=
  existsb (λ val, Value.__eq__ new_value val)
    (voted (nomination_state self) ++ accepted (nomination_state self)
     ++ confirmed (nomination_state self)).

(** The merge of [prepare_nomination_msg]: combine, then cap. *)
Definition merge_voted (existing : list Value.t) (new_value : Value.t) : Value.t :=
  let combined := Value.combine (existing ++ [new_value]) in
  if bool_decide (MAX_SLOT_TXS < length (Value.transactions combined))%nat
  then
    let sorted_txs := sorted_by_hash (Value.transactions combined) in
    let capped := py_set (take MAX_SLOT_TXS sorted_txs) in
    Value.__init__ capped None
  else combined.

(** The first part of [prepare_nomination_msg], up to the transactions
    taken from the front of the queue: the unseen transactions of the
    mempool are queued, the finalised transactions collected, the ballot
    phases and the nomination state pruned.  Without a mempool the first
    statement raises, before anything is changed. *)
Definition select_to_nominate (self : t) : result (t * list Transaction) :=
  match mempool self with
  | None => Raise AttributeError
  | Some all_tx =>
      let self :=
        foldl (λ self tx,
                 if negb (bool_decide (tx_hash tx ∈ finalised_transactions self))
                    && negb (bool_decide (tx ∈ tx_queue self))
                 then self <| tx_queue := tx_queue self ++ [tx] |>
                 else self)
              self all_tx in
      let self := collect_finalised_transactions self in
      let self := clean_prepare_and_commit_state self in
      let self :=
        self <| nomination_state :=
                  prune_nomination_state (finalised_transactions self)
                                         (nomination_state self) |> in
      let n := min MAX_SLOT_TXS (length (tx_queue self)) in
      let to_nominate := take n (tx_queue self) in
      let self := self <| tx_queue := drop n (tx_queue self) |> in
      Ok (self, to_nominate)
  end.

(** [prepare_nomination_msg]: the new state and the returned message. *)
Definition prepare_nomination_msg (self : t) : result (t * option SCPNominate) :=
  r ← select_to_nominate self;
  let self := r.1 in
  let to_nominate := r.2 in
  match to_nominate with
  | [] => Ok (self, None)
  | _ =>
      let new_value := Value.__init__ (py_set to_nominate) None in
      if is_value_already_present self new_value then Ok (self, None)
      else
        let ns := nomination_state self in
        let new_voted :=
          match voted ns with
          | [] => [new_value]
          | existing => [merge_voted existing new_value]
          end in
        let ns := mkNomState new_voted (accepted ns) (confirmed ns) in
        let message := mkNominate (voted ns) (accepted ns) (confirmed ns) in
        Ok (self <| nomination_state := ns |> <| broadcast_flags := [message] |>,
            Some message)
  end.

(** [get_finalized_transaction_ids] *)
Definition get_finalized_transaction_ids (self : t) : gset Z :=
  map_fold (λ _ ext_msg acc,
              acc ∪ list_to_set
                      (tx_hash <$> Value.transactions (value (ext_ballot ext_msg))))
           ∅ (ledger self).

(** [update_local_nomination_broadcast] *)
Definition update_local_nomination_broadcast (self : t) : t :=
  let ns := nomination_state self in
  match voted ns, accepted ns with
  | [], [] => self
  | _, _ =>
      self <| broadcast_flags :=
                [mkNominate (voted ns) (accepted ns) (confirmed ns)] |>
  end.

(** The merge of [process_received_message]: prune the incoming value,
    combine it with the current ones, cap. [None] when nothing is left
    of the incoming value. *)
Definition merge_incoming (finalized_tx_ids : gset Z) (current : list Value.t)
    (incoming : Value.t) : option Value.t :=
  let filtered := py_set (List.filter
                    (λ tx, negb (bool_decide (tx_hash tx ∈ finalized_tx_ids)))
                    (Value.transactions incoming)) in
  match filtered with
  | [] => None
  | _ =>
      let merged := Value.combine (current ++ [Value.__init__ filtered None]) in
      let txs := sorted_by_hash (Value.transactions merged) in
      Some (if bool_decide (MAX_SLOT_TXS < length txs)%nat
            then Value.__init__ (py_set (take MAX_SLOT_TXS txs)) None
            else merged)
  end.

(** [process_received_message]; [message] is the parsed pair of the
    voted and the accepted field, each a value or nothing. *)
Definition process_received_message (self : t)
    (message : option Value.t * option Value.t) : t :=
  let finalized_tx_ids := get_finalized_transaction_ids self in
  let ns := prune_nomination_state finalized_tx_ids (nomination_state self) in
  let ns :=
    match message.1 ≫= merge_incoming finalized_tx_ids (voted ns) with
    | Some merged => mkNomState [merged] (accepted ns) (confirmed ns)
    | None => ns
    end in
  let ns :=
    match message.2 ≫= merge_incoming finalized_tx_ids (accepted ns) with
    | Some merged => mkNomState (voted ns) [merged] (confirmed ns)
    | None => ns
    end in
  update_local_nomination_broadcast (self <| nomination_state := ns |>).

(** [reset_nomination_state] *)
Definition reset_nomination_state (self : t) : t :=
  self <| nomination_state := mkNomState [] [] [] |>
       <| nomination_round := 1 |>.

(** [value_contains_finalized_tx] / [ballot_contains_finalized_tx] of
    [reset_commit_phase_state]. *)
Definition value_contains_finalized_tx (finalized_tx_ids : gset Z)
    (v : Value.t) : bool :=
  existsb (λ tx, bool_decide (tx_hash tx ∈ finalized_tx_ids)) (Value.transactions v).

(** [reset_commit_phase_state] *)
Definition reset_commit_phase_state (self : t) (finalized_ballot : SCPBallot) : t :=
  let finalized_tx_ids : gset Z :=
    list_to_set (tx_hash <$> Value.transactions (value finalized_ballot)) in
  let ballot_contains_finalized_tx (ballot : SCPBallot) : bool :=
    value_contains_finalized_tx finalized_tx_ids (value ballot) in
  let keep_ballots : gmap Z SCPBallot → gmap Z SCPBallot :=
    filter (λ kv, ballot_contains_finalized_tx (snd kv) = false) in
  let cs := commit_ballot_state self in
  self <| commit_ballot_statement_counter :=
            List.filter (λ kv, negb (value_contains_finalized_tx finalized_tx_ids (fst kv)))
                        (commit_ballot_statement_counter self) |>
       <| commit_ballot_state :=
            mkCommitState (keep_ballots (c_voted cs)) (keep_ballots (c_accepted cs))
                          (keep_ballots (c_confirmed cs)) |>
       <| commit_ballot_broadcast_flags :=
            List.filter (λ msg, negb (ballot_contains_finalized_tx (commit_ballot msg)))
                        (commit_ballot_broadcast_flags self) |>
       <| received_commit_ballot_broadcast_msgs :=
            List.filter (λ msg, negb (ballot_contains_finalized_tx (commit_ballot msg)))
            <$> received_commit_ballot_broadcast_msgs self |>.

(** [reset_prepare_ballot_phase] *)
Definition reset_prepare_ballot_phase (self : t) (finalized_ballot : SCPBallot) : t :=
  let finalized_value_hash := Value.hash (value finalized_ballot) in
  let keep_ballots : gmap Z SCPBallot → gmap Z SCPBallot :=
    filter (λ kv, Value.hash (value (snd kv)) ≠ finalized_value_hash) in
  let keep_values {V} : vdict V → vdict V :=
    List.filter (λ kv, negb (bool_decide (Value.hash (fst kv) = finalized_value_hash))) in
  let keep_msg (msg : SCPPrepare) : bool :=
    negb (bool_decide (Value.hash (value (prep_ballot msg)) = finalized_value_hash)) in
  let bs := balloting_state self in
  self <| balloting_state :=
            mkBallotState (keep_ballots (b_voted bs)) (keep_ballots (b_accepted bs))
                          (keep_ballots (b_confirmed bs)) (keep_ballots (b_aborted bs)) |>
       <| ballot_statement_counter := keep_values (ballot_statement_counter self) |>
       <| prepared_ballots := keep_values (prepared_ballots self) |>
       <| ballot_prepare_broadcast_flags :=
            List.filter keep_msg (ballot_prepare_broadcast_flags self) |>
       <| received_prepare_broadcast_msgs :=
            List.filter keep_msg <$> received_prepare_broadcast_msgs self |>.

(** [remove_txs_from_mempool].  Only [ValueError] is caught: without a
    mempool the first [self.mempool.transactions] that is evaluated raises
    [AttributeError], after the finalised transactions were collected. *)
Definition remove_txs_from_mempool (self : t) (v : Value.t) : outcome :=
  let self := collect_finalised_transactions self in
  match mempool self with
  | Some pool =>
      let pool :=
        foldl (λ pool h, remove_first (λ tx, tx_eq_hash tx h) pool)
              pool (elements (finalised_transactions self)) in
      let pool :=
        foldl (λ pool tx, remove_first (λ tx', bool_decide (tx' = tx)) pool)
              pool (Value.transactions v) in
      Returned (self <| mempool := Some pool |>)
  | None =>
      match elements (finalised_transactions self), Value.transactions v with
      | [], [] => Returned self
      | _, _ => Raised AttributeError self
      end
  end.

(** [retrieve_confirmed_commit_ballot]; [draw] is the random index into
    the keys of the confirmed commit ballots. *)
Definition retrieve_confirmed_commit_ballot (self : t) (draw : nat)
    : option SCPBallot :=
  let items := map_to_list (c_confirmed (commit_ballot_state self)) in
  match items with
  | [] => None
  | _ => snd <$> items !! (draw mod length items)%nat
  end.

(** [prepare_Externalize_msg] *)
Definition prepare_Externalize_msg (now : PyFloat.float) (draw : nat)
    (self : t) : outcome :=
  if bool_decide (size (c_confirmed (commit_ballot_state self)) = 0%nat)
  then Returned self
  else
    match retrieve_confirmed_commit_ballot self draw with
    | None => Returned self
    | Some finalised_ballot =>
        let externalize_msg :=
          mkExternalize finalised_ballot (counter finalised_ballot) now in
        let temp_value := value (ext_ballot externalize_msg) in
        let self := self <| ledger := add_slot (ledger self) (slot self) externalize_msg |> in
        let self :=
          self <| externalize_broadcast_flags :=
                    externalize_broadcast_flags self ++ [(slot self, externalize_msg)] |> in
        let self :=
          self <| externalized_slot_counter :=
                    externalized_slot_counter self ++ [externalize_msg] |> in
        let self := reset_nomination_state self in
        let self := self <| priority_list := [] |> in
        let self := self <| last_nomination_start_time := now |> in
        let self := reset_commit_phase_state self (ext_ballot externalize_msg) in
        let self := reset_prepare_ballot_phase self (ext_ballot externalize_msg) in
        match remove_txs_from_mempool self temp_value with
        | Returned self =>
            Returned (self <| slot := slot self + 1 |> <| nomination_round := 1 |>)
        | Raised e self => Raised e self
        end
    end.

(** [process_externalize_msg] *)
Definition process_externalize_msg (now : PyFloat.float) (self : t)
    (slot_number : Z) (message : SCPExternalize) (sending_node : NodeRef)
    : outcome :=
  if bool_decide (is_Some (ledger self !! slot_number)) then Returned self
  else if bool_decide (slot_number ≠ slot self) then Returned self
  else
    let self := self <| ledger := add_slot (ledger self) slot_number message |> in
    let self :=
      self <| peer_externalised_statements :=
                <[ node_name sending_node :=
                     default [] (peer_externalised_statements self
                                 !! node_name sending_node)
                     ++ [(slot_number, message)] ]>
                (peer_externalised_statements self) |> in
    let self :=
      self <| externalize_broadcast_flags :=
                externalize_broadcast_flags self ++ [(slot_number, message)] |> in
    let self :=
      self <| externalized_slot_counter :=
                externalized_slot_counter self ++ [message] |> in
    let self := self <| nomination_round := 1 |> in
    let self := reset_nomination_state self in
    let self := self <| last_nomination_start_time := now |> in
    let self := reset_commit_phase_state self (ext_ballot message) in
    let self := reset_prepare_ballot_phase self (ext_ballot message) in
    match remove_txs_from_mempool self (value (ext_ballot message)) with
    | Returned self => Returned (self <| slot := slot self + 1 |>)
    | Raised e self => Raised e self
    end.

(** *** Nomination bookkeeping *)

(** A field of a parsed nomination message as [update_statement_count]
    takes it: a value, a list of values, or anything else. *)
Inductive nom_field :=
  | FValue (v : Value.t)
  | FList (vs : list Value.t)
  | FOther.

Definition normalize (f : nom_field) : list Value.t :=
  match f with
  | FValue v => [v]
  | FList vs => vs
  | FOther => []
  end.

(** One turn of a loop of [update_statement_count]: make sure the entry for
    [val.hash] exists, then record [name] under "accepted" or "voted"
    unless it is there. *)
Definition record_statement (name : string) (accepted_loop : bool)
    (ctr : gmap Z NomEntry) (val : Value.t) : gmap Z NomEntry :=
  let h := Value.hash val in
  let entry := default (mkNomEntry ∅ ∅) (ctr !! h) in
  let entry :=
    if accepted_loop then
      if bool_decide (is_Some (nom_accepted entry !! name)) then entry
      else mkNomEntry (nom_voted entry) (<[name := 1]> (nom_accepted entry))
    else
      if bool_decide (is_Some (nom_voted entry !! name)) then entry
      else mkNomEntry (<[name := 1]> (nom_voted entry)) (nom_accepted entry) in
  <[h := entry]> ctr.

(** [update_statement_count] *)
Definition update_statement_count (self : t) (other_node : NodeRef)
    (message : nom_field * nom_field) : t :=
  let voted_vals := normalize message.1 in
  let accepted_vals := normalize message.2 in
  let ctr := foldl (record_statement (node_name other_node) true)
                   (statement_counter self) accepted_vals in
  let ctr := foldl (record_statement (node_name other_node) false) ctr voted_vals in
  self <| statement_counter := ctr |>.

(** [xs.remove(val)] guarded by [if val in xs]. *)
Definition remove_value (val : Value.t) (xs : list Value.t) : list Value.t :=
  if Value.mem val xs then remove_first (λ x, Value.__eq__ x val) xs else xs.

(** [update_nomination_state], on the three lists of [nomination_state],
    which it changes in place. *)
Definition update_nomination_state (ns : nomination_state_t) (val : Value.t)
    (field : string) : nomination_state_t :=
  if String.eqb field "voted" then
    match voted ns with
    | [] => ns
    | _ =>
        if Value.mem val (accepted ns)
        then mkNomState (remove_value val (voted ns)) (accepted ns) (confirmed ns)
        else mkNomState (remove_value val (voted ns)) (accepted ns ++ [val])
                        (confirmed ns)
    end
  else if String.eqb field "accepted" then
    match accepted ns with
    | [] => ns
    | _ =>
        if Value.mem val (confirmed ns)
        then mkNomState (voted ns) (remove_value val (accepted ns)) (confirmed ns)
        else mkNomState (voted ns) (remove_value val (accepted ns))
                        (confirmed ns ++ [val])
    end
  else ns.

(** One turn of the loop of [clean_nomination_state_duplicates]; [seen] is
    the set, [unique_values] the list. *)
Definition dedup_step (acc : list Value.t * list Value.t) (v : Value.t)
    : list Value.t * list Value.t :=
  let seen := acc.1 in
  let unique_values := acc.2 in
  if Value.mem v seen then acc else (seen ++ [v], unique_values ++ [v]).

Definition dedup_values (vals : list Value.t) : list Value.t :=
  (foldl dedup_step ([], []) vals).2.

(** [clean_nomination_state_duplicates] *)
Definition clean_nomination_state_duplicates (self : t) : t :=
  let ns := nomination_state self in
  self <| nomination_state :=
            mkNomState (dedup_values (voted ns)) (dedup_values (accepted ns))
                       (dedup_values (confirmed ns)) |>.

(** [remove_finalized_transactions].  The keys of [statement_counter] are
    value hashes: an [int] has no attribute [transactions], so the dict
    comprehension keeps none of them. *)
Definition remove_finalized_transactions (self : t) (finalized_value : Value.t) : t :=
  let finalized_transactions : gset Transaction :=
    list_to_set (Value.transactions finalized_value) in
  let keep (v : Value.t) : bool :=
    negb (existsb (λ tx, bool_decide (tx ∈ finalized_transactions))
                  (Value.transactions v)) in
  let ns := nomination_state self in
  self <| nomination_state :=
            mkNomState (List.filter keep (voted ns)) (List.filter keep (accepted ns))
                       (List.filter keep (confirmed ns)) |>
       <| statement_counter :=
            filter (λ kv : Z * NomEntry, False) (statement_counter self) |>.

(** [is_transaction_in_externalized_slots] *)
Definition is_transaction_in_externalized_slots (self : t) (transaction_id : Z) : bool :=
  existsb (λ externalized_message,
             existsb (λ tx, bool_decide (tx_hash tx = transaction_id))
                     (Value.transactions (value (ext_ballot externalized_message))))
          (externalized_slot_counter self).

(** [is_message_externalized] *)
Definition is_message_externalized (self : t) (message : SCPNominate) : bool :=
  existsb (λ v, existsb (λ tx, is_transaction_in_externalized_slots self (tx_hash tx))
                        (Value.transactions v))
          (msg_voted message)
  || existsb (λ v, existsb (λ tx, is_transaction_in_externalized_slots self (tx_hash tx))
                           (Value.transactions v))
             (msg_accepted message).

(** The [while] loop of [calculate_nomination_round]; [None] when [fuel]
    turns of the loop were not enough. *)
Fixpoint round_loop (fuel : nat) (time_diff : PyFloat.float)
    (round cumulative_time : Z) : option Z :=
  match fuel with
  | O => None
  | S fuel =>
      if PyFloat.int_lt cumulative_time time_diff
      then round_loop fuel time_diff (round + 1) (cumulative_time + (1 + (round + 1)))
      else Some round
  end.

(** [calculate_nomination_round]: [None] when the loop has not ended within
    [fuel] turns; otherwise the new state and the returned round, which is
    [None] when there is no record of the previous slot. *)
Definition calculate_nomination_round (fuel : nat) (now : PyFloat.float) (self : t)
    : option (t * option Z) :=
  if bool_decide (slot self ≤ 0) then Some (self, None)
  else
    match ledger self !! (slot self - 1) with
    | None => Some (self, None)
    | Some previous_slot_message =>
        let previous_timestamp := timestamp previous_slot_message in
        let time_diff := PyFloat.sub now previous_timestamp in
        let self := self <| last_nomination_start_time := now |> in
        r ← round_loop fuel time_diff 1 (1 + 1);
        Some (self, Some r)
    end.

(** [priority] *)
Definition priority (self : t) (v : NodeRef) : Z :=
  Gi self [GInt 2; GInt (nomination_round self); GStr (node_name v)].

(** [get_highest_priority_neighbor].  [max] returns the first of the
    neighbours of largest priority in the order the set is iterated, here
    the order of insertion; two neighbours have the same priority only when
    their digests collide. *)
Definition get_highest_priority_neighbor (now : PyFloat.float) (self : t)
    : result (t * option NodeRef) :=
  self ← check_update_nomination_round now self;
  r ← get_priority_list self;
  let self := r.1 in
  let neighbors := r.2 in
  match neighbors with
  | [] => Ok (self, None)
  | _ =>
      let available_neighbors :=
        List.filter (λ node, negb (str_eq (node_name node) (ONode (self_ref self))))
                    neighbors in
      let available_neighbors :=
        match available_neighbors with
        | [] => neighbors
        | _ => available_neighbors
        end in
      match available_neighbors with
      | [] => Ok (self, None)
      | x :: xs => Ok (self, Some (max_by (priority self) x xs))
      end
  end.

(** *** Ballot bookkeeping *)

Definition empty_entry : BallotEntry := mkBallotEntry ∅ ∅ ∅ ∅.

(** [update_prepare_balloting_state] *)
Definition update_prepare_balloting_state (self : t) (ballot : SCPBallot)
    (field : string) : t :=
  let bs := balloting_state self in
  let h := Value.hash (value ballot) in
  if String.eqb field "voted" then
    if bool_decide (size (b_voted bs) = 0%nat) then self
    else if bool_decide (is_Some (b_accepted bs !! h)) then self
    else
      match b_voted bs !! h with
      | Some b =>
          self <| balloting_state :=
                    mkBallotState (delete h (b_voted bs)) (<[h := b]> (b_accepted bs))
                                  (b_confirmed bs) (b_aborted bs) |>
      | None => self
      end
  else if String.eqb field "accepted" then
    if bool_decide (size (b_accepted bs) = 0%nat) then self
    else if bool_decide (is_Some (b_confirmed bs !! h)) then self
    else
      match b_accepted bs !! h with
      | Some b =>
          self <| balloting_state :=
                    mkBallotState (b_voted bs) (delete h (b_accepted bs))
                                  (<[h := b]> (b_confirmed bs)) (b_aborted bs) |>
      | None => self
      end
  else self.

(** [update_commit_balloting_state] *)
Definition update_commit_balloting_state (self : t) (ballot : SCPBallot)
    (field : string) : t :=
  let cs := commit_ballot_state self in
  let h := Value.hash (value ballot) in
  if String.eqb field "voted" then
    if bool_decide (size (c_voted cs) = 0%nat) then self
    else if bool_decide (is_Some (c_accepted cs !! h)) then self
    else
      match c_voted cs !! h with
      | Some b =>
          self <| commit_ballot_state :=
                    mkCommitState (delete h (c_voted cs)) (<[h := b]> (c_accepted cs))
                                  (c_confirmed cs) |>
      | None => self
      end
  else if String.eqb field "accepted" then
    if bool_decide (size (c_accepted cs) = 0%nat) then self
    else if bool_decide (is_Some (c_confirmed cs !! h)) then self
    else
      match c_accepted cs !! h with
      | Some b =>
          self <| commit_ballot_state :=
                    mkCommitState (c_voted cs) (delete h (c_accepted cs))
                                  (<[h := b]> (c_confirmed cs)) |>
      | None => self
      end
  else self.

(** The ballots of one phase that [abort_ballots] moves away: a lower
    counter and another value hash than the received ballot.  The order in
    which the ballots are visited shows only when two of them carry the
    same value hash. *)
Definition to_abort (received_ballot : SCPBallot) (phase : gmap Z SCPBallot)
    : list SCPBallot :=
  List.filter (λ ballot,
                 bool_decide (counter ballot < counter received_ballot)
                 && negb (bool_decide (Value.hash (value ballot)
                                       = Value.hash (value received_ballot))))
              ((map_to_list phase).*2).

(** One phase of [abort_ballots]: every ballot to abort is stored in
    "aborted" under its value hash, then popped from the phase by that
    hash. *)
Definition abort_phase (received_ballot : SCPBallot)
    (aborted phase : gmap Z SCPBallot)
    : result (gmap Z SCPBallot * gmap Z SCPBallot) :=
  let ballots := to_abort received_ballot phase in
  let aborted :=
    foldl (λ aborted ballot, <[Value.hash (value ballot) := ballot]> aborted)
          aborted ballots in
  phase ← for_each (λ phase ballot, pop (Value.hash (value ballot)) phase)
                   ballots phase;
  Ok (aborted, phase).

(** [abort_ballots] *)
Definition abort_ballots (self : t) (received_ballot : SCPBallot) : result t :=
  let bs := balloting_state self in
  r ← abort_phase received_ballot (b_aborted bs) (b_voted bs);
  let aborted := r.1 in
  let voted' := r.2 in
  r ← abort_phase received_ballot aborted (b_accepted bs);
  let aborted := r.1 in
  let accepted' := r.2 in
  Ok (self <| balloting_state :=
                mkBallotState voted' accepted' (b_confirmed bs) aborted |>).

(** The sender recorded as having voted and accepted, in a new entry when
    the value has none. *)
Definition record_voted_accepted (sender : NodeRef) (v : Value.t)
    (ctr : vdict BallotEntry) : vdict BallotEntry :=
  vdict_alter (λ e, mkBallotEntry ({[ node_name sender ]} ∪ be_voted e)
                                  ({[ node_name sender ]} ∪ be_accepted e)
                                  (be_confirmed e) (be_aborted e))
              v (vdict_setdefault v empty_entry ctr).

(** The sender recorded as having aborted, and no longer as having voted. *)
Definition record_aborted (sender : NodeRef) (v : Value.t)
    (ctr : vdict BallotEntry) : vdict BallotEntry :=
  vdict_alter (λ e, mkBallotEntry (be_voted e ∖ {[ node_name sender ]})
                                  (be_accepted e) (be_confirmed e)
                                  ({[ node_name sender ]} ∪ be_aborted e))
              v (vdict_setdefault v empty_entry ctr).

(** [process_prepare_ballot_message] *)
Definition process_prepare_ballot_message (self : t) (message : SCPPrepare)
    (sender : NodeRef) : result t :=
  let received_ballot := prep_ballot message in
  let h := Value.hash (value received_ballot) in
  let bs := balloting_state self in
  match b_voted bs !! h with
  | Some stored =>
      if Value.__eq__ (value received_ballot) (value stored)
         && bool_decide (counter stored < counter received_ballot)
      then
        Ok (self <| balloting_state :=
                      mkBallotState (<[h := received_ballot]> (b_voted bs))
                                    (b_accepted bs) (b_confirmed bs) (b_aborted bs) |>
                 <| ballot_statement_counter :=
                      record_voted_accepted sender (value received_ballot)
                                            (ballot_statement_counter self) |>)
      else if bool_decide (counter received_ballot < counter stored)
      then
        Ok (self <| ballot_statement_counter :=
                      record_voted_accepted sender (value received_ballot)
                                            (ballot_statement_counter self) |>)
      else Ok self
  | None =>
      if existsb (λ voted_ballot,
                    bool_decide (counter voted_ballot < counter received_ballot))
                 ((map_to_list (b_voted bs)).*2)
      then
        self ← abort_ballots self received_ballot;
        let bs := balloting_state self in
        Ok (self <| balloting_state :=
                      mkBallotState (<[h := received_ballot]> (b_voted bs))
                                    (b_accepted bs) (b_confirmed bs) (b_aborted bs) |>
                 <| ballot_statement_counter :=
                      record_voted_accepted sender (value received_ballot)
                                            (ballot_statement_counter self) |>)
      else
        Ok (self <| balloting_state :=
                      mkBallotState (b_voted bs) (b_accepted bs) (b_confirmed bs)
                                    (<[h := received_ballot]> (b_aborted bs)) |>
                 <| ballot_statement_counter :=
                      record_aborted sender (value received_ballot)
                                     (ballot_statement_counter self) |>)
  end.

(** [simple_process_commit_ballot_message] *)
Definition simple_process_commit_ballot_message (self : t) (message : SCPCommit)
    (sender : NodeRef) : t :=
  let received := commit_ballot message in
  let h := Value.hash (value received) in
  let cs := commit_ballot_state self in
  let voted' :=
    match c_voted cs !! h with
    | Some _ => c_voted cs
    | None => <[h := received]> (c_voted cs)
    end in
  self <| commit_ballot_state := mkCommitState voted' (c_accepted cs) (c_confirmed cs) |>
       <| commit_ballot_statement_counter :=
            vdict_alter (λ e, mkBallotEntry ({[ node_name sender ]} ∪ be_voted e)
                                            (be_accepted e) (be_confirmed e) (be_aborted e))
                        (value received)
                        (vdict_setdefault (value received) empty_entry
                                          (commit_ballot_statement_counter self)) |>.

(** [check_Commit_Quorum_threshold] *)
Definition check_Commit_Quorum_threshold (self : t) (ballot : SCPBallot)
    : result bool :=
  let h := Value.hash (value ballot) in
  let cs := commit_ballot_state self in
  if negb (bool_decide (is_Some (c_voted cs !! h)))
     && negb (bool_decide (is_Some (c_accepted cs !! h)))
  then Ok false
  else
    let validators := (QuorumSet.get_quorum (quorum_set self)).1 in
    let inner_sets := (QuorumSet.get_quorum (quorum_set self)).2 in
    let all_peers :=
      validators ++ QuorumSet._flatten (QuorumSet.Peer <$> inner_sets)
      ++ [self_ref self] in
    let unique_peers := unique_by_id all_peers in
    let entry := default empty_entry
                   (vdict_get (commit_ballot_statement_counter self) (value ballot)) in
    let signed :=
      foldl (λ signed node,
               if node_is node (self_ref self)
                  || bool_decide (node_name node ∈ be_voted entry)
                  || bool_decide (node_name node ∈ be_accepted entry)
               then signed + 1 else signed)
            0 unique_peers in
    needed ← QuorumSet.minimum_quorum (quorum_set self);
    Ok (bool_decide (needed ≤ signed)).

End with_environment.

End Node.

(* ===================================================================== *)
(** ** Concrete surroundings for the examples *)

(** One choice of the interpreter's hashes. *)
Definition example_hash : PyHash :=
  {| hash_frozenset := λ s,
       set_fold (λ t acc, tx_hash t + acc) 0 s + 1000003 * Z.of_nat (size s);
     hash_str := λ s, Z.of_nat (String.length s) |}.

(** One choice of the surroundings: a digest that spreads its arguments, and
    transactions that never compare equal to a bare hash. *)
Definition example_environment : Environment :=
  {| sha256_xdr := λ slot values, (slot * 7919 + Z.of_nat (length values)) mod 2 ^ 256;
     tx_eq_hash := λ _ _, false |}.

Definition tx (h : Z) : Transaction := mkTransaction h.

(** [n] peers, named "0", "1", ..., each its own object. *)
Definition peers (n : nat) : list NodeRef :=
  (λ i, mkNodeRef (S i) (pretty i)) <$> seq 0 n.

Definition node_A : NodeRef := mkNodeRef 0 "A".

(** The simulated time [n / 2] seconds: 1.5 is [half_seconds 3]. *)
Definition half_seconds (n : Z) : PyFloat.float := PyFloat.quotient n 2.

(** A node that has confirmed the commit of ballot (1, {11}) while its
    prepare phase still votes for ballot (1, {11, 22}). *)
Definition value_11 : Value.t := @Value.__init__ example_hash [tx 11] None.
Definition value_11_22 : Value.t := @Value.__init__ example_hash [tx 11; tx 22] None.
Definition ballot_11 : SCPBallot := mkBallot 1 value_11.
Definition ballot_11_22 : SCPBallot := mkBallot 1 value_11_22.

Definition node_overlapping : Node.t :=
  Node.attach_mempool (Node.__init__ node_A) []
    <| Node.commit_ballot_state :=
         Node.mkCommitState ∅ ∅ {[ Value.hash value_11 := ballot_11 ]} |>
    <| Node.commit_ballot_statement_counter :=
         [(value_11, mkBallotEntry {[ "A" ]} ∅ ∅ ∅);
          (value_11_22, mkBallotEntry {[ "0" ]} ∅ ∅ ∅)] |>
    <| Node.balloting_state :=
         Node.mkBallotState {[ Value.hash value_11_22 := ballot_11_22 ]} ∅
                            {[ Value.hash value_11 := ballot_11 ]} ∅ |>.

(** A node at slot 2 whose ledger holds slot 1. *)
Definition externalize_11 : SCPExternalize := mkExternalize ballot_11 1 PyFloat.zero.

Definition node_at_slot_2 : Node.t :=
  Node.__init__ node_A
    <| Node.ledger := {[ 1 := externalize_11 ]} |>
    <| Node.slot := 2 |>
    <| Node.nomination_state := Node.mkNomState [value_11_22] [] [] |>
    <| Node.balloting_state :=
         Node.mkBallotState {[ Value.hash value_11_22 := ballot_11_22 ]} ∅ ∅ ∅ |>.

(** ** Vocabulary of the slot cap *)

(** [kept] holds exactly [MAX_SLOT_TXS] distinct transactions, all taken
    from [merged], and every transaction of [merged] that was left out has a
    larger hash than every one that was kept: [kept] is the first
    [MAX_SLOT_TXS] of [merged] in ascending order of hash. *)
Definition first_by_hash (kept merged : list Transaction) : Prop :=
  length kept = Node.MAX_SLOT_TXS
  ∧ NoDup kept
  ∧ (∀ t, t ∈ kept → t ∈ merged)
  ∧ (∀ t u, t ∈ kept → u ∈ merged → u ∉ kept → tx_hash t < tx_hash u).

(** 201 transactions spread over a stored value and a new one. *)
Definition value_0_149 : Value.t :=
  @Value.__init__ example_hash (tx <$> (Z.of_nat <$> seq 0 150)) None.
Definition value_100_200 : Value.t :=
  @Value.__init__ example_hash (tx <$> (Z.of_nat <$> seq 100 101)) None.

(** A node that votes for and has accepted the transactions 0 to 149, with
    the transactions 100 to 200 in its mempool. *)
Definition node_voting_0_149 : Node.t :=
  Node.attach_mempool (Node.__init__ node_A) (tx <$> (Z.of_nat <$> seq 100 101))
    <| Node.nomination_state := Node.mkNomState [value_0_149] [value_0_149] [] |>.

(** ** Vocabulary of the finalisation purge *)

(** Two values share a transaction. *)
Definition shares_transaction (v w : Value.t) : Prop :=
  ∃ t, t ∈ Value.transactions v ∧ t ∈ Value.transactions w.

Definition ballots_of (m : gmap Z SCPBallot) : list Value.t :=
  (λ kb, value kb.2) <$> map_to_list m.

Definition received_of {M} (val : M → Value.t) (m : gmap string (list M))
    : list Value.t :=
  mjoin ((λ kl, val <$> kl.2) <$> map_to_list m).

(** The values that the prepare phase of a node holds: in the balloting
    state, the ballot statement counter, the prepared-ballot records, the
    prepare broadcast flags and the received prepare messages. *)
Definition prepare_phase_values (self : Node.t) : list Value.t :=
  let bs := Node.balloting_state self in
  ballots_of (Node.b_voted bs) ++ ballots_of (Node.b_accepted bs)
  ++ ballots_of (Node.b_confirmed bs) ++ ballots_of (Node.b_aborted bs)
  ++ (fst <$> Node.ballot_statement_counter self)
  ++ (fst <$> Node.prepared_ballots self)
  ++ ((λ msg, value (prep_ballot msg)) <$> Node.ballot_prepare_broadcast_flags self)
  ++ received_of (λ msg, value (prep_ballot msg))
                 (Node.received_prepare_broadcast_msgs self).

(** The values that the commit phase holds, but for [committed_ballots]. *)
Definition commit_phase_values (self : Node.t) : list Value.t :=
  let cs := Node.commit_ballot_state self in
  ballots_of (Node.c_voted cs) ++ ballots_of (Node.c_accepted cs)
  ++ ballots_of (Node.c_confirmed cs)
  ++ (fst <$> Node.commit_ballot_statement_counter self)
  ++ ((λ msg, value (commit_ballot msg)) <$> Node.commit_ballot_broadcast_flags self)
  ++ received_of (λ msg, value (commit_ballot msg))
                 (Node.received_commit_ballot_broadcast_msgs self).

(** What the purge leaves behind for a finalised ballot [b]: no commit-phase
    value that shares a transaction with [b.value], no prepare-phase value
    with the hash of [b.value]. *)
Definition purged (self : Node.t) (b : SCPBallot) : Prop :=
  (∀ v, v ∈ commit_phase_values self → ¬ shares_transaction v (value b))
  ∧ (∀ v, v ∈ prepare_phase_values self → Value.hash v ≠ Value.hash (value b)).


(** ** Vocabulary of the quorum arithmetic, the rounds and the merge *)

(** ⌈size × threshold / 100⌉ in exact arithmetic, the value the
    specification names for a percentile threshold. *)
Definition exact_minimum_quorum (size threshold : Z) : Z :=
  - ((- (size * threshold)) / 100).

(** The number of top-level slices that contain [v]: the validator entries
    equal to [v] and the inner sets that hold [v] at their top level. *)
Definition slices_containing (self : QuorumSet.t) (v : NodeRef) : Z :=
  Z.of_nat (length (List.filter (λ n, QuorumSet.member_eq_node (QuorumSet.Peer n) v)
                                (QuorumSet.nodes self)))
  + Z.of_nat (length (List.filter
      (λ inner_set,
         match inner_set with
         | QuorumSet.Nested xs => existsb (λ x, QuorumSet.member_eq_node x v) xs
         | QuorumSet.Peer n => QuorumSet.member_eq_node (QuorumSet.Peer n) v
         end)
      (QuorumSet.inner_sets self))).

(** Polling [check_update_nomination_round] at the given times. *)
Definition poll `{Environment} (times : list PyFloat.float) (self : Node.t)
    : result Node.t :=
  for_each (λ self now, Node.check_update_nomination_round now self) times self.

(** The incoming value of [process_received_message] after the finalised
    transactions have been pruned from it. *)
Definition pruned_incoming `{PyHash} (finalized_tx_ids : gset Z) (incoming : Value.t)
    : Value.t :=
  Value.__init__
    (Node.py_set (List.filter (λ tx, negb (bool_decide (tx_hash tx ∈ finalized_tx_ids)))
                              (Value.transactions incoming)))
    None.

(** ** Vocabulary of the further properties *)

Definition nomination_lists (ns : Node.nomination_state_t) : list (list Value.t) :=
  [Node.voted ns; Node.accepted ns; Node.confirmed ns].

Fixpoint distinct_values (l : list Value.t) : bool :=
  match l with
  | [] => true
  | x :: l => negb (Value.mem x l) && distinct_values l
  end.

Definition counter_extends (before after : gmap Z NomEntry) : Prop :=
  ∀ h e, before !! h = Some e →
    ∃ e', after !! h = Some e' ∧ nom_voted e ⊆ nom_voted e'
          ∧ nom_accepted e ⊆ nom_accepted e'.

Definition recorded (name : string) (accepted_loop : bool) (ctr : gmap Z NomEntry)
    (val : Value.t) : Prop :=
  ∃ e, ctr !! Value.hash val = Some e
       ∧ is_Some ((if accepted_loop then nom_accepted e else nom_voted e) !! name).

(** The time at which round [r] ends, counted from the previous slot:
    rounds 1 to [r] last 2, 3, ..., [1 + r] seconds. *)
Definition round_end (r : Z) : Z := r * (r + 3) / 2.

(** Every ballot of a phase is stored under the hash of its value. *)
Definition keyed (phase : gmap Z SCPBallot) : Prop :=
  ∀ k b, phase !! k = Some b → Value.hash (value b) = k.

(** [ballot] has a lower counter than [received] and another value hash. *)
Definition lower_other (received ballot : SCPBallot) : Prop :=
  counter ballot < counter received
  ∧ Value.hash (value ballot) ≠ Value.hash (value received).

(** A prepare message that [process_prepare_ballot_message] passes over:
    the node holds a voted ballot under the hash of the received value
    whose counter is the received one, or is below it while its value is
    not equal to the received one. *)
Definition prepare_ballot_ignored (self : Node.t) (received : SCPBallot) : Prop :=
  ∃ stored,
    Node.b_voted (Node.balloting_state self) !! Value.hash (value received)
    = Some stored
    ∧ counter stored ≤ counter received
    ∧ (counter stored = counter received
       ∨ Value.__eq__ (value received) (value stored) = false).

(** The sender of a prepare message as the ballot statement counter holds
    it after the message was handled. *)
Definition sender_recorded (sender : NodeRef) (v : Value.t)
    (ctr : vdict BallotEntry) : Prop :=
  ∃ entry, vdict_get ctr v = Some entry
    ∧ (node_name sender ∈ be_voted entry ∧ node_name sender ∈ be_accepted entry
       ∨ node_name sender ∈ be_aborted entry ∧ node_name sender ∉ be_voted entry).

(** Every ballot that [collect_finalised_transactions] has seen has its
    transaction hashes among the finalised ones. *)
Definition seen_covered (self : Node.t) : Prop :=
  ∀ k tx, k ∈ Node._seen_finalised_ballots self → tx ∈ Value.transactions k.2 →
          tx_hash tx ∈ Node.finalised_transactions self.

(** The fields that tell where a node stands: slot, round, nomination
    state, priority list, clock, ledger and the externalize records. *)
Definition standing (self : Node.t) :=
  (Node.slot self, Node.nomination_round self, Node.nomination_state self,
   Node.priority_list self, Node.last_nomination_start_time self,
   Node.ledger self, Node.externalized_slot_counter self,
   Node.externalize_broadcast_flags self).

(* ===================================================================== *)
(** * Theorems *)

(** ** Field updates *)

(** The constructor applied to all projections is the record itself, so
    every [self <| f := v |>] changes field [f] and nothing else. *)
Lemma eta_id (self : Node.t) : Node.eta self = self.
Proof. by destruct self. Qed.

Lemma set_slot_get (self : Node.t) (v : Z) :
  Node.slot (self <| Node.slot := v |>) = v
  ∧ Node.ledger (self <| Node.slot := v |>) = Node.ledger self
  ∧ Node.nomination_round (self <| Node.slot := v |>) = Node.nomination_round self.
Proof. by destruct self. Qed.

(** ** Value equality and combination *)

Lemma Value_eq_spec (v w : Value.t) :
  Value.__eq__ v w = true ↔
  Value.hash v = Value.hash w ∧ Value.state v = Value.state w
  ∧ Value.tx_set v = Value.tx_set w.
Proof.
  unfold Value.__eq__.
  rewrite !andb_true_iff, !bool_decide_eq_true. tauto.
Qed.

Lemma tx_set_spec (v w : Value.t) :
  Value.tx_set v = Value.tx_set w ↔
  ∀ t, t ∈ Value.transactions v ↔ t ∈ Value.transactions w.
Proof.
  unfold Value.tx_set. split.
  - intros E t. rewrite <- !(elem_of_list_to_set (C := gset Transaction)).
    by rewrite E.
  - intros E. apply set_eq. intros t. rewrite !elem_of_list_to_set. apply E.
Qed.

Lemma tx_set_init `{PyHash} txs st :
  Value.tx_set (Value.__init__ txs st) = list_to_set txs.
Proof. reflexivity. Qed.

Lemma init_consistent `{PyHash} txs st : Value.consistent (Value.__init__ txs st).
Proof. reflexivity. Qed.

Lemma tx_set_combine `{PyHash} (values : list Value.t) :
  Value.tx_set (Value.combine values) = ⋃ (Value.tx_set <$> values).
Proof.
  unfold Value.combine. rewrite tx_set_init, list_to_set_elements_L.
  assert (G : ∀ acc : gset Transaction,
             foldl (λ acc value, acc ∪ list_to_set (Value.transactions value)) acc values
             = acc ∪ ⋃ (Value.tx_set <$> values)).
  { induction values as [|v vs IH]; intros acc; simpl.
    - by rewrite (right_id_L ∅ (∪)).
    - rewrite IH. unfold Value.tx_set. by rewrite (assoc_L (∪)). }
  rewrite G. by rewrite (left_id_L ∅ (∪)).
Qed.

(** C8, as the code has it: two values whose stored hash is the hash of
    their transactions (what the constructor and the setter leave) are
    equal exactly when they carry the same state tag and contain the same
    set of transactions. *)
Theorem value_eq_iff_state_and_transactions `{PyHash} (v w : Value.t) :
  Value.consistent v → Value.consistent w →
  (Value.__eq__ v w = true ↔
   Value.state v = Value.state w
   ∧ ∀ t, t ∈ Value.transactions v ↔ t ∈ Value.transactions w).
Proof.
  intros Hv Hw. rewrite Value_eq_spec, <- tx_set_spec.
  unfold Value.consistent in *. split.
  - tauto.
  - intros [Hs Ht]. repeat split; try done. by rewrite Hv, Hw, Ht.
Qed.

Lemma value_eq_iff_state_and_transactions_witness :
  let v := @Value.__init__ example_hash [tx 11; tx 22] (Some nominated) in
  let w := @Value.__init__ example_hash [tx 22; tx 11; tx 22] (Some nominated) in
  @Value.consistent example_hash v ∧ @Value.consistent example_hash w
  ∧ Value.__eq__ v w = true.
Proof.
  intros v w.
  assert (Hv : @Value.consistent example_hash v) by reflexivity.
  assert (Hw : @Value.consistent example_hash w) by reflexivity.
  split; [exact Hv|]. split; [exact Hw|].
  apply (@value_eq_iff_state_and_transactions example_hash v w Hv Hw).
  split; [reflexivity|].
  intros t. simpl. rewrite !elem_of_cons. tauto.
Defined.

(** C8 as stated fails: the same transactions under two state tags. *)
Lemma value_eq_same_transactions_counterexample :
  let v := @Value.__init__ example_hash [tx 11] None in
  let w := @Value.__init__ example_hash [tx 11] (Some nominated) in
  ¬ (Value.__eq__ v w = true ↔
     ∀ t, t ∈ Value.transactions v ↔ t ∈ Value.transactions w).
Proof.
  intros v w [_ Hback].
  assert (E : Value.__eq__ v w = true) by (apply Hback; intros t; reflexivity).
  vm_compute in E. discriminate.
Qed.

(** C9, as the code has it: [combine [v]] has the transactions and the hash
    of [v] and the state tag [init]; it is equal to [v] exactly when [v]
    carries the tag [init]. *)
Theorem combine_singleton `{PyHash} (v : Value.t) :
  Value.consistent v →
  Value.tx_set (Value.combine [v]) = Value.tx_set v
  ∧ Value.hash (Value.combine [v]) = Value.hash v
  ∧ Value.state (Value.combine [v]) = init
  ∧ (Value.__eq__ (Value.combine [v]) v = true ↔ Value.state v = init).
Proof.
  intros Hv.
  assert (Ht : Value.tx_set (Value.combine [v]) = Value.tx_set v).
  { rewrite tx_set_combine. simpl. by rewrite (right_id_L ∅ (∪)). }
  assert (Hh : Value.hash (Value.combine [v]) = Value.hash v).
  { pose proof (init_consistent
                  (elements (foldl (λ acc value, acc ∪ list_to_set (Value.transactions value))
                                   (∅ : gset Transaction) [v])) None) as Hc.
    unfold Value.consistent in Hc, Hv. fold (Value.combine [v]) in Hc.
    by rewrite Hc, Ht, Hv. }
  split; [exact Ht|]. split; [exact Hh|]. split; [reflexivity|].
  rewrite Value_eq_spec. split.
  - intros (_ & Hs & _). symmetry. exact Hs.
  - intros Hs. repeat split; try done; by rewrite Hs.
Qed.

Lemma combine_singleton_witness :
  let v := @Value.__init__ example_hash [tx 22; tx 11; tx 22] None in
  Value.__eq__ (@Value.combine example_hash [v]) v = true.
Proof.
  intros v.
  assert (Hv : @Value.consistent example_hash v) by reflexivity.
  destruct (@combine_singleton example_hash v Hv) as (_ & _ & _ & Heq).
  apply Heq. reflexivity.
Defined.

(** C9 as stated fails for a value that is not in state [init]. *)
Lemma combine_singleton_counterexample :
  let v := @Value.__init__ example_hash [tx 11] (Some nominated) in
  Value.__eq__ (@Value.combine example_hash [v]) v = false.
Proof. vm_compute. reflexivity. Qed.

(** ** Node identity *)

Lemma hashed_mem_node `{PyHash} (n : NodeRef) (keys : list obj) :
  (∀ k, k ∈ keys → is_Some (Node.key_name k)) →
  Node.hashed_mem (ONode n) keys = true ↔
  ∃ k, k ∈ keys ∧ Node.key_name k = Some (node_name n).
Proof.
  intros Hkeys. unfold Node.hashed_mem. rewrite existsb_exists. split.
  - intros (k & Hin & Hk). exists k. apply list_elem_of_In in Hin. split; [done|].
    apply andb_true_iff in Hk as [_ Hk]. apply orb_true_iff in Hk as [Hk|Hk].
    + apply bool_decide_eq_true in Hk. by subst k.
    + destruct k; simpl in *; try done;
        apply bool_decide_eq_true in Hk; by rewrite Hk.
  - intros (k & Hin & Hk). exists k. split; [by apply list_elem_of_In|].
    destruct k as [s| | |m|]; simpl in *; try done; inversion Hk as [Hn];
      rewrite andb_true_iff, ?orb_true_iff, !bool_decide_eq_true;
      unfold Node.__hash__; (split; [by rewrite ?Hn | try right; done]).
Qed.

(** C10: a node is equal to an object exactly when its name is; so it is
    equal to its bare name and to every node of that name, it hashes as its
    name, and a set or dict finds it among names and nodes by name alone. *)
Theorem node_eq_by_name `{PyHash} (n : NodeRef) :
  (∀ x, Node.obj_eq (ONode n) x = Node.obj_eq (OStr (node_name n)) x)
  ∧ (∀ s, Node.__eq__ n (OStr s) = true ↔ node_name n = s)
  ∧ (∀ m, Node.__eq__ n (ONode m) = true ↔ node_name n = node_name m)
  ∧ Node.__hash__ n = hash_str (node_name n)
  ∧ (∀ names : list string,
       Node.hashed_mem (ONode n) (OStr <$> names) = true ↔ node_name n ∈ names)
  ∧ (∀ ns : list NodeRef,
       Node.hashed_mem (ONode n) (ONode <$> ns) = true
       ↔ ∃ m, m ∈ ns ∧ node_name m = node_name n).
Proof.
  split; [reflexivity|]. split.
  { intros s. unfold Node.__eq__. simpl. by rewrite bool_decide_eq_true. }
  split.
  { intros m. unfold Node.__eq__. simpl. rewrite bool_decide_eq_true.
    split; congruence. }
  split; [reflexivity|]. split.
  - intros names. rewrite hashed_mem_node.
    + split.
      * intros (k & Hin & Hk). apply list_elem_of_fmap in Hin as (s & -> & Hs).
        simpl in Hk. by inversion Hk; subst.
      * intros Hin. exists (OStr (node_name n)). split; [|done].
        apply list_elem_of_fmap. eauto.
    + intros k Hin. apply list_elem_of_fmap in Hin as (s & -> & _). by eexists.
  - intros ns. rewrite hashed_mem_node.
    + split.
      * intros (k & Hin & Hk). apply list_elem_of_fmap in Hin as (m & -> & Hm).
        simpl in Hk. exists m. split; [done|]. by inversion Hk.
      * intros (m & Hm & Hname). exists (ONode m). split.
        -- apply list_elem_of_fmap. eauto.
        -- simpl. by rewrite Hname.
    + intros k Hin. apply list_elem_of_fmap in Hin as (m & -> & _). by eexists.
Qed.

(** ** Quorum-set arithmetic *)

(** [math.ceil] on a finite float with significand [v] and exponent [e] is
    the least integer that is not below [v * 2^e]. *)
Lemma ceil_finite (sign : bool) (m : positive) (e z : Z) :
  PyFloat.ceil (S754_finite sign m e) = Ok z →
  let v := if sign then Z.neg m else Z.pos m in
  if 0 <=? e then z = v * 2 ^ e
  else (z - 1) * 2 ^ (- e) < v ≤ z * 2 ^ (- e).
Proof.
  simpl. intros E. inversion E as [Ez]. clear E.
  destruct (0 <=? e) eqn:He; [reflexivity|].
  apply Z.leb_gt in He.
  set (v := if sign then Z.neg m else Z.pos m).
  assert (Hk : 0 < 2 ^ (- e)) by (apply Z.pow_pos_nonneg; lia).
  pose proof (Z.div_mod (- v) (2 ^ (- e)) ltac:(lia)) as Hdm.
  pose proof (Z.mod_pos_bound (- v) (2 ^ (- e)) Hk) as Hr.
  nia.
Qed.

Lemma foldl_pointwise {A B} (f g : B → A → B) (xs : list A) (b : B) :
  (∀ b a, f b a = g b a) → foldl f b xs = foldl g b xs.
Proof.
  intros E. revert b. induction xs as [|x xs IH]; intros b; simpl; [done|].
  by rewrite E, IH.
Qed.

Lemma count_foldl {A} (p : A → bool) (xs : list A) (c : Z) :
  foldl (λ count x, if p x then count + 1 else count) c xs
  = c + Z.of_nat (length (List.filter p xs)).
Proof.
  revert c. induction xs as [|x xs IH]; intros c; simpl.
  - lia.
  - rewrite IH. destruct (p x); simpl; lia.
Qed.

(** [QuorumSet.weight] is the fraction of top-level slices containing [v],
    for every [v]: the comparison [self == v] that guards the branch for the
    owning node is never true. *)
Lemma weight_fraction (self : QuorumSet.t) (v : NodeRef) :
  let total :=
    Z.of_nat (length (QuorumSet.nodes self))
    + Z.of_nat (length (QuorumSet.inner_sets self)) in
  QuorumSet.weight self v =
  if total =? 0 then Ok PyFloat.zero
  else c ← PyFloat.of_int (slices_containing self v);
       d ← PyFloat.of_int total;
       PyFloat.truediv c d.
Proof.
  intros total. unfold QuorumSet.weight, slices_containing. simpl.
  fold total. destruct (total =? 0); [reflexivity|].
  f_equal. f_equal.
  erewrite foldl_pointwise; [apply count_foldl|].
  intros count [n|xs]; reflexivity.
Qed.

(** A quorum set with validators "0" and "1" and the inner sets
    [[A, "0"], ["1"], [["0"]], "0"]: peer "0" is in three of the six slices
    (the doubly nested list does not count), the owner A in one. *)
Example weight_nested_inner_sets :
  let p0 := mkNodeRef 1 "0" in
  let p1 := mkNodeRef 2 "1" in
  let q := QuorumSet.mk node_A (QuorumSet.NInt THRESHOLD_DEFAULT) [p0; p1]
             [QuorumSet.Nested [QuorumSet.Peer node_A; QuorumSet.Peer p0];
              QuorumSet.Nested [QuorumSet.Peer p1];
              QuorumSet.Nested [QuorumSet.Nested [QuorumSet.Peer p0]];
              QuorumSet.Peer p0] in
  slices_containing q p0 = 3
  ∧ QuorumSet.weight q p0 = Ok (PyFloat.quotient 1 2)
  ∧ slices_containing q node_A = 1
  ∧ QuorumSet.size q = 7.
Proof. repeat split; vm_compute; reflexivity. Qed.

(** C3 at a quorum set owned by A with validators "0" and "1": the weight of
    the owner is 0.0, not 1.0, whereas [Node.weight] is 1.0. *)
Theorem weight_of_owner (self : Node.t) :
  let q := QuorumSet.mk node_A (QuorumSet.NInt THRESHOLD_DEFAULT) (peers 2) [] in
  QuorumSet.weight q node_A = Ok PyFloat.zero
  ∧ QuorumSet.weight q node_A ≠ Ok PyFloat.one
  ∧ Node.weight self node_A = PyFloat.one.
Proof. repeat split. vm_compute. discriminate. Qed.

(** Over quorum sets of up to 200 members and whole percentile thresholds,
    [minimum_quorum] is the exact ceiling or one more. *)
Lemma needed_within_one (sz t : Z) :
  0 ≤ sz ≤ 200 → 1 ≤ t ≤ 100 →
  QuorumSet.needed sz (QuorumSet.NInt t) = Ok (exact_minimum_quorum sz t)
  ∨ QuorumSet.needed sz (QuorumSet.NInt t) = Ok (exact_minimum_quorum sz t + 1).
Proof.
  intros Hsz Ht.
  assert (G : forallb (λ sz, forallb (λ t,
                match QuorumSet.needed sz (QuorumSet.NInt t) with
                | Ok k => (k =? exact_minimum_quorum sz t)
                          || (k =? exact_minimum_quorum sz t + 1)
                | Raise _ => false
                end) (Z.of_nat <$> seq 1 100)) (Z.of_nat <$> seq 0 201) = true)
    by (vm_compute; reflexivity).
  rewrite forallb_forall in G.
  assert (Hs : In sz (Z.of_nat <$> seq 0 201)).
  { apply list_elem_of_In, list_elem_of_fmap. exists (Z.to_nat sz).
    split; [lia|]. apply elem_of_seq. lia. }
  specialize (G sz Hs). rewrite forallb_forall in G.
  assert (Ht' : In t (Z.of_nat <$> seq 1 100)).
  { apply list_elem_of_In, list_elem_of_fmap. exists (Z.to_nat t).
    split; [lia|]. apply elem_of_seq. lia. }
  specialize (G t Ht').
  destruct (QuorumSet.needed sz (QuorumSet.NInt t)) as [k|e]; [|discriminate].
  apply orb_true_iff in G as [G|G]; apply Z.eqb_eq in G; subst k; auto.
Qed.

(** C4 on two quorum sets with the default threshold 55: five validators
    need 3, as the specification says; a hundred validators need 56, one
    more than the exact ceiling 55, because 55/100.0 and its product with
    100 are rounded upwards before the ceiling is taken. *)
Theorem minimum_quorum_at_5_and_100 :
  QuorumSet.minimum_quorum
    (QuorumSet.mk node_A (QuorumSet.NInt THRESHOLD_DEFAULT) (peers 5) []) = Ok 3
  ∧ exact_minimum_quorum 5 55 = 3
  ∧ QuorumSet.minimum_quorum
      (QuorumSet.mk node_A (QuorumSet.NInt THRESHOLD_DEFAULT) (peers 100) []) = Ok 56
  ∧ exact_minimum_quorum 100 55 = 55.
Proof. repeat split; vm_compute; reflexivity. Qed.

(** ** Threshold checks on a value without a counter entry *)

Lemma for_each_cons {A S} (body : S → A → result S) x xs s :
  for_each body (x :: xs) s = (s' ← body s x; for_each body xs s').
Proof.
  unfold for_each. simpl. destruct (body s x) as [s'|e]; simpl; [done|].
  induction xs as [|y ys IH]; simpl; done.
Qed.

Lemma for_each_ok {A S} (body : S → A → result S) x xs s s' :
  body s x = Ok s' → for_each body (x :: xs) s = for_each body xs s'.
Proof. intros E. rewrite for_each_cons, E. reflexivity. Qed.

Lemma unique_by_id_acc (ps : list NodeRef) (acc : gset nat * list NodeRef) :
  ∃ r, (foldl Node.unique_step acc ps).2 = acc.2 ++ r.
Proof.
  revert acc. induction ps as [|x ps IH]; intros acc; simpl.
  - exists []. by rewrite app_nil_r.
  - unfold Node.unique_step at 2. case_bool_decide.
    + apply IH.
    + destruct (IH ({[node_id x]} ∪ acc.1, acc.2 ++ [x])) as [r Hr].
      exists (x :: r). rewrite Hr. simpl. by rewrite <- app_assoc.
Qed.

Lemma unique_by_id_cons (p : NodeRef) (ps : list NodeRef) :
  ∃ r, Node.unique_by_id (p :: ps) = p :: r.
Proof.
  unfold Node.unique_by_id. simpl.
  destruct (unique_by_id_acc ps (Node.unique_step (∅, []) p)) as [r Hr].
  exists r. rewrite Hr. reflexivity.
Qed.

(** The helpers that read the counter through [get] or test for the key
    return a boolean for a value without an entry. *)
Lemma check_threshold_unknown_value (val : Value.t) (quorum : list QuorumSet.member)
    (thr : Z) (ctr : gmap Z NomEntry) :
  ctr !! Value.hash val = None →
  QuorumSet.check_threshold val quorum thr ctr = bool_decide (thr ≤ 0).
Proof.
  intros E. unfold QuorumSet.check_threshold. rewrite E. simpl.
  assert (G : ∀ (ps : list NodeRef) (c : Z),
            foldl (λ signed peer,
                     if bool_decide (is_Some ((∅ : gmap string Z) !! node_name peer))
                        || bool_decide (is_Some ((∅ : gmap string Z) !! node_name peer))
                     then signed + 1 else signed) c ps = c).
  { induction ps as [|p ps IH]; intros c; simpl; [done|].
    rewrite lookup_empty.
    rewrite (bool_decide_eq_false_2 (is_Some None)) by apply is_Some_None.
    apply IH. }
  by rewrite G.
Qed.

Lemma check_ballot_thresholds_unknown_value (ballot : SCPBallot)
    (quorum : list QuorumSet.member) (thr : Z) (ctr : vdict BallotEntry) :
  vdict_get ctr (value ballot) = None →
  QuorumSet.check_prepare_threshold ballot quorum thr ctr = false
  ∧ QuorumSet.check_commit_threshold ballot quorum thr ctr = false.
Proof.
  intros E. unfold QuorumSet.check_prepare_threshold, QuorumSet.check_commit_threshold.
  by rewrite E.
Qed.

(** C2 at fault: when the node holds [val] in its nomination state, has a
    first validator other than itself and has no counter entry for [val],
    [check_Blocking_threshold] raises [KeyError], whereas
    [check_Quorum_threshold] on the same state returns a boolean. *)
Theorem check_Blocking_threshold_unknown_value (self : Node.t) (val : Value.t)
    (p : NodeRef) (rest : list NodeRef) :
  Value.mem val (Node.voted (Node.nomination_state self)) = true →
  Node.statement_counter self !! Value.hash val = None →
  QuorumSet.nodes (Node.quorum_set self) = p :: rest →
  node_is p (Node.self_ref self) = false →
  returns (QuorumSet.minimum_quorum (Node.quorum_set self)) →
  Node.check_Blocking_threshold self val = Raise KeyError
  ∧ returns (Node.check_Quorum_threshold self val).
Proof.
  intros Hmem Hctr Hnodes Hself [k Hk]. split.
  - unfold Node.check_Blocking_threshold. rewrite Hmem. simpl.
    rewrite Hk. simpl. rewrite Hnodes. simpl.
    destruct (unique_by_id_cons p
                (rest ++ QuorumSet._flatten
                   (QuorumSet.Peer <$> QuorumSet._flatten
                      (QuorumSet.inner_sets (Node.quorum_set self))))) as [r Hr].
    rewrite Hr. simpl length.
    destruct (Z.of_nat (S (length r)) =? 0) eqn:E; [apply Z.eqb_eq in E; lia|].
    rewrite for_each_cons.
    assert (Hstep : Node.blocking_step self val (1, ∅) p = Raise KeyError)
      by (unfold Node.blocking_step; cbv zeta; by rewrite Hself, Hctr).
    rewrite Hstep. reflexivity.
  - unfold Node.check_Quorum_threshold. rewrite Hmem. simpl.
    rewrite Hk. simpl. by eexists.
Qed.

Lemma check_Blocking_threshold_unknown_value_witness :
  let val := @Value.__init__ example_hash [tx 11] None in
  let self :=
    Node.set_quorum (Node.__init__ node_A) (peers 2) None None
      <| Node.nomination_state := Node.mkNomState [val] [] [] |> in
  Node.check_Blocking_threshold self val = Raise KeyError.
Proof.
  intros val self.
  refine (proj1 (check_Blocking_threshold_unknown_value self val
                   (mkNodeRef 1 "0") [mkNodeRef 2 "1"] _ _ _ _ _)).
  - reflexivity.
  - reflexivity.
  - reflexivity.
  - reflexivity.
  - exists 2. vm_compute. reflexivity.
Defined.

(** ** Nomination rounds *)

Lemma get_priority_list_no_peers `{Environment} (self : Node.t) :
  QuorumSet.nodes (Node.quorum_set self) = [] →
  QuorumSet.inner_sets (Node.quorum_set self) = [] →
  ∃ pl u, Node.get_priority_list self = Ok (self <| Node.priority_list := pl |>, u).
Proof.
  intros Hn Hi.
  unfold Node.get_priority_list, QuorumSet.get_nodes, QuorumSet.get_inner_sets.
  rewrite Hn, Hi. simpl. eauto.
Qed.

Lemma check_update_nomination_round_step `{Environment} now (self : Node.t) r :
  PyFloat.of_int (Node.nomination_round self) = Ok r →
  Node.check_update_nomination_round now self =
  if PyFloat.ltb (PyFloat.add (Node.last_nomination_start_time self) r) now
  then '(self', _) ← Node.get_priority_list
                        (self <| Node.nomination_round := Node.nomination_round self + 1 |>);
       Ok self'
  else Ok self.
Proof. intros E. unfold Node.check_update_nomination_round. rewrite E. reflexivity. Qed.

Lemma get_priority_list_frame `{Environment} (self self' : Node.t) u :
  Node.get_priority_list self = Ok (self', u) →
  ∃ pl, self' = self <| Node.priority_list := pl |>.
Proof.
  unfold Node.get_priority_list. intros E.
  destruct (Node.add_neighbors _ _ _) as [u1|e] in E; simpl in E; [|discriminate].
  destruct (foldl _ _ _) as [u2|e] in E; simpl in E; [|discriminate].
  inversion E; subst. eauto.
Qed.

(** The schedule of [check_update_nomination_round], whenever it returns:
    the round advances by one exactly when the time exceeds the start time
    plus the round number, and the start time is left as it was. *)
Lemma check_update_nomination_round_schedule `{Environment} now (self self' : Node.t) :
  Node.check_update_nomination_round now self = Ok self' →
  ∃ r, PyFloat.of_int (Node.nomination_round self) = Ok r
       ∧ Node.last_nomination_start_time self' = Node.last_nomination_start_time self
       ∧ Node.nomination_round self' =
           if PyFloat.ltb (PyFloat.add (Node.last_nomination_start_time self) r) now
           then Node.nomination_round self + 1
           else Node.nomination_round self.
Proof.
  intros E. destruct (PyFloat.of_int (Node.nomination_round self)) as [r|e] eqn:Er.
  - rewrite (check_update_nomination_round_step _ _ r Er) in E.
    exists r. split; [done|].
    destruct (PyFloat.ltb _ now).
    + destruct (Node.get_priority_list _) as [[s u]|e] eqn:Ep; [|discriminate].
      apply get_priority_list_frame in Ep as [pl ->].
      simpl in E. inversion E; subst. by destruct self.
    + by inversion E; subst.
  - unfold Node.check_update_nomination_round in E. rewrite Er in E. discriminate.
Qed.

(** The schedule of [check_update_nomination_round] on a node without peers:
    the round advances by one when the time exceeds the start time plus the
    round number; the start time stays. *)
Lemma check_update_nomination_round_no_peers `{Environment} now (self : Node.t) r :
  QuorumSet.nodes (Node.quorum_set self) = [] →
  QuorumSet.inner_sets (Node.quorum_set self) = [] →
  PyFloat.of_int (Node.nomination_round self) = Ok r →
  ∃ self',
    Node.check_update_nomination_round now self = Ok self'
    ∧ Node.quorum_set self' = Node.quorum_set self
    ∧ Node.last_nomination_start_time self' = Node.last_nomination_start_time self
    ∧ Node.nomination_round self' =
        if PyFloat.ltb (PyFloat.add (Node.last_nomination_start_time self) r) now
        then Node.nomination_round self + 1
        else Node.nomination_round self.
Proof.
  intros Hn Hi Hr. rewrite (check_update_nomination_round_step _ _ r Hr).
  destruct (PyFloat.ltb _ now); [|by eexists].
  destruct (get_priority_list_no_peers
              (self <| Node.nomination_round := Node.nomination_round self + 1 |>))
    as (pl & u & ->); [by destruct self..|].
  eexists. split; [reflexivity|]. by destruct self.
Qed.

(** C5 at fault: a node that starts nomination at t = 0 in round 1 enters
    round 2 at t = 1.5, before t exceeds 2.0; polled every second from 1.5
    on it is in round 5, not 3, at t = 5.0; a time of exactly 1.0 does not
    advance it. *)
Theorem nomination_round_advances_every_second `{Environment} :
  let self := Node.__init__ node_A in
  Node.nomination_round self = 1
  ∧ Node.last_nomination_start_time self = PyFloat.zero
  ∧ (∃ s, Node.check_update_nomination_round (half_seconds 2) self = Ok s
          ∧ Node.nomination_round s = 1)
  ∧ (∃ s, Node.check_update_nomination_round (half_seconds 3) self = Ok s
          ∧ Node.nomination_round s = 2)
  ∧ (∃ s, poll [half_seconds 3; half_seconds 5; half_seconds 7;
                half_seconds 9; half_seconds 10] self = Ok s
          ∧ Node.nomination_round s = 5).
Proof.
  intros self.
  assert (Step : ∀ (s : Node.t) (n k : Z) (b : bool),
            Node.quorum_set s = Node.quorum_set self →
            Node.last_nomination_start_time s = PyFloat.zero →
            Node.nomination_round s = k →
            (match PyFloat.of_int k with
             | Ok r => PyFloat.ltb (PyFloat.add PyFloat.zero r) (half_seconds n)
             | Raise _ => false
             end = b) →
            is_Some (match PyFloat.of_int k with Ok r => Some r | Raise _ => None end) →
            ∃ s', Node.check_update_nomination_round (half_seconds n) s = Ok s'
                  ∧ Node.quorum_set s' = Node.quorum_set self
                  ∧ Node.last_nomination_start_time s' = PyFloat.zero
                  ∧ Node.nomination_round s' = if b then k + 1 else k).
  { intros s n k b Hq Ht Hk Hb [r Hr].
    destruct (PyFloat.of_int k) as [r'|] eqn:Er; [|discriminate].
    destruct (check_update_nomination_round_no_peers (half_seconds n) s r')
      as (s' & E & Eq & Et & Ek).
    - by rewrite Hq.
    - by rewrite Hq.
    - by rewrite Hk.
    - exists s'. rewrite E, Eq, Et, Ek, Ht, Hk, Hq, Hb. done. }
  split; [reflexivity|]. split; [reflexivity|]. split; [|split].
  - destruct (Step self 2 1 false) as (s & E & _ & _ & Hk);
      [reflexivity..| by eexists |]. eauto.
  - destruct (Step self 3 1 true) as (s & E & _ & _ & Hk);
      [reflexivity..| by eexists |]. eauto.
  - unfold poll.
    destruct (Step self 3 1 true) as (s1 & E1 & Q1 & T1 & K1);
      [reflexivity..| by eexists |].
    destruct (Step s1 5 2 true) as (s2 & E2 & Q2 & T2 & K2);
      [done..| reflexivity | by eexists |].
    destruct (Step s2 7 3 true) as (s3 & E3 & Q3 & T3 & K3);
      [done..| reflexivity | by eexists |].
    destruct (Step s3 9 4 true) as (s4 & E4 & Q4 & T4 & K4);
      [done..| reflexivity | by eexists |].
    destruct (Step s4 10 5 false) as (s5 & E5 & Q5 & T5 & K5);
      [done..| reflexivity | by eexists |].
    exists s5. split; [|exact K5].
    set (body := λ (s : Node.t) now, Node.check_update_nomination_round now s).
    rewrite (for_each_ok body _ _ _ _ E1), (for_each_ok body _ _ _ _ E2),
      (for_each_ok body _ _ _ _ E3), (for_each_ok body _ _ _ _ E4),
      (for_each_ok body _ _ _ _ E5).
    reflexivity.
Qed.

(** ** Externalisation *)

Lemma collect_finalised_transactions_frame (self : Node.t) :
  ∃ seen fin,
    Node.collect_finalised_transactions self
    = self <| Node._seen_finalised_ballots := seen |>
           <| Node.finalised_transactions := fin |>.
Proof.
  unfold Node.collect_finalised_transactions.
  destruct (Node.slot self =? 1).
  { exists (Node._seen_finalised_ballots self), (Node.finalised_transactions self).
    by destruct self. }
  generalize (Node.externalized_slot_counter self) as msgs. intros msgs.
  assert (G : ∀ s : Node.t,
            (∃ seen fin, s = self <| Node._seen_finalised_ballots := seen |>
                                  <| Node.finalised_transactions := fin |>) →
            ∃ seen fin,
              foldl (λ self ext_msg,
                 let b := ext_ballot ext_msg in
                 let key := (counter b, value b) in
                 if existsb (λ k, bool_decide (fst k = fst key)
                                   && Value.__eq__ (snd k) (snd key))
                            (Node._seen_finalised_ballots self)
                 then self
                 else
                   self <| Node._seen_finalised_ballots :=
                             Node._seen_finalised_ballots self ++ [key] |>
                        <| Node.finalised_transactions :=
                             Node.finalised_transactions self
                             ∪ list_to_set (tx_hash <$> Value.transactions (value b)) |>)
                s msgs
              = self <| Node._seen_finalised_ballots := seen |>
                     <| Node.finalised_transactions := fin |>).
  { induction msgs as [|m msgs IH]; intros s Hs; simpl; [exact Hs|].
    apply IH. destruct (existsb _ _); [exact Hs|].
    destruct Hs as (seen & fin & ->). do 2 eexists. by destruct self. }
  apply G. exists (Node._seen_finalised_ballots self), (Node.finalised_transactions self).
  by destruct self.
Qed.

Lemma remove_txs_from_mempool_frame `{Environment} (self : Node.t) (v : Value.t) :
  ∃ seen fin pool,
    Node.state_of (Node.remove_txs_from_mempool self v)
    = self <| Node._seen_finalised_ballots := seen |>
           <| Node.finalised_transactions := fin |>
           <| Node.mempool := pool |>.
Proof.
  unfold Node.remove_txs_from_mempool.
  destruct (collect_finalised_transactions_frame self) as (seen & fin & ->).
  set (s := self <| Node._seen_finalised_ballots := seen |>
                 <| Node.finalised_transactions := fin |>).
  destruct (Node.mempool s) as [pool|] eqn:E.
  - by do 3 eexists.
  - exists seen, fin, None.
    assert (Es : s = s <| Node.mempool := None |>)
      by (subst s; destruct self; simpl in *; by subst).
    destruct (elements _), (Value.transactions v); exact Es.
Qed.

Lemma elem_of_List_filter {A} (f : A → bool) (l : list A) (x : A) :
  x ∈ List.filter f l ↔ x ∈ l ∧ f x = true.
Proof. rewrite !list_elem_of_In. apply filter_In. Qed.

Lemma elem_of_ballots_of (m : gmap Z SCPBallot) (v : Value.t) :
  v ∈ ballots_of m ↔ ∃ k b, m !! k = Some b ∧ value b = v.
Proof.
  unfold ballots_of. rewrite list_elem_of_fmap. split.
  - intros ([k b] & -> & Hin). apply elem_of_map_to_list in Hin. eauto.
  - intros (k & b & Hm & <-). exists (k, b). split; [done|].
    by apply elem_of_map_to_list.
Qed.

Lemma elem_of_received_of {M} (val : M → Value.t) (m : gmap string (list M)) v :
  v ∈ received_of val m ↔ ∃ k l msg, m !! k = Some l ∧ msg ∈ l ∧ val msg = v.
Proof.
  unfold received_of. rewrite list_elem_of_join. split.
  - intros (l' & Hv & Hl'). apply list_elem_of_fmap in Hl' as ([k l] & -> & Hin).
    apply elem_of_map_to_list in Hin. simpl in Hv.
    apply list_elem_of_fmap in Hv as (msg & -> & Hmsg). eauto 6.
  - intros (k & l & msg & Hm & Hmsg & <-). exists (val <$> l). split.
    + apply list_elem_of_fmap. eauto.
    + apply list_elem_of_fmap. exists (k, l). split; [done|].
      by apply elem_of_map_to_list.
Qed.

Lemma contains_finalized_tx_shares (b : SCPBallot) (v : Value.t) :
  Node.value_contains_finalized_tx
    (list_to_set (tx_hash <$> Value.transactions (value b))) v = false →
  ¬ shares_transaction v (value b).
Proof.
  intros Hc (t & Hv & Hb).
  assert (Ht : Node.value_contains_finalized_tx
                 (list_to_set (tx_hash <$> Value.transactions (value b))) v = true).
  { unfold Node.value_contains_finalized_tx. apply existsb_exists.
    exists t. split; [by apply list_elem_of_In|].
    apply bool_decide_eq_true, elem_of_list_to_set, list_elem_of_fmap. eauto. }
  congruence.
Qed.

(** [reset_commit_phase_state] leaves no commit-phase value that shares a
    transaction with the finalised one. *)
Lemma reset_commit_phase_state_purges (self : Node.t) (b : SCPBallot) (v : Value.t) :
  v ∈ commit_phase_values (Node.reset_commit_phase_state self b) →
  ¬ shares_transaction v (value b).
Proof.
  intros Hin. apply contains_finalized_tx_shares.
  unfold commit_phase_values in Hin. destruct self. simpl in Hin.
  rewrite !elem_of_app, !elem_of_ballots_of, elem_of_received_of,
    !list_elem_of_fmap in Hin.
  destruct Hin as [Hin|[Hin|[Hin|[Hin|[Hin|Hin]]]]].
  1-3: destruct Hin as (k & b' & Hm & <-);
       apply map_lookup_filter_Some in Hm as [_ Hm]; exact Hm.
  - destruct Hin as ([v' e] & -> & Hin).
    apply elem_of_List_filter in Hin as [_ Hin]. simpl in *.
    by destruct (Node.value_contains_finalized_tx _ v').
  - destruct Hin as (msg & -> & Hin).
    apply elem_of_List_filter in Hin as [_ Hin].
    by destruct (Node.value_contains_finalized_tx _ _).
  - destruct Hin as (k & l & msg & Hm & Hmsg & <-).
    rewrite lookup_fmap in Hm.
    destruct (_ !! k) as [l0|]; simpl in Hm; [|done].
    inversion Hm; subst l.
    apply elem_of_List_filter in Hmsg as [_ Hmsg].
    by destruct (Node.value_contains_finalized_tx _ _).
Qed.

(** [reset_prepare_ballot_phase] leaves no prepare-phase value with the hash
    of the finalised one. *)
Lemma reset_prepare_ballot_phase_purges (self : Node.t) (b : SCPBallot) (v : Value.t) :
  v ∈ prepare_phase_values (Node.reset_prepare_ballot_phase self b) →
  Value.hash v ≠ Value.hash (value b).
Proof.
  intros Hin. unfold prepare_phase_values in Hin. destruct self. simpl in Hin.
  rewrite !elem_of_app, !elem_of_ballots_of, elem_of_received_of,
    !list_elem_of_fmap in Hin.
  destruct Hin as [Hin|[Hin|[Hin|[Hin|[Hin|[Hin|[Hin|Hin]]]]]]].
  1-4: destruct Hin as (k & b' & Hm & <-);
       apply map_lookup_filter_Some in Hm as [_ Hm]; exact Hm.
  - destruct Hin as ([v' e] & -> & Hin).
    apply elem_of_List_filter in Hin as [_ Hin]. simpl in *.
    by case_bool_decide.
  - destruct Hin as ([v' e] & -> & Hin).
    apply elem_of_List_filter in Hin as [_ Hin]. simpl in *.
    by case_bool_decide.
  - destruct Hin as (msg & -> & Hin).
    apply elem_of_List_filter in Hin as [_ Hin]. by case_bool_decide.
  - destruct Hin as (k & l & msg & Hm & Hmsg & <-).
    rewrite lookup_fmap in Hm.
    destruct (_ !! k) as [l0|]; simpl in Hm; [|done].
    inversion Hm; subst l.
    apply elem_of_List_filter in Hmsg as [_ Hmsg]. by case_bool_decide.
Qed.

Lemma retrieve_confirmed_commit_ballot_nonempty (self : Node.t) draw b :
  Node.retrieve_confirmed_commit_ballot self draw = Some b →
  size (Node.c_confirmed (Node.commit_ballot_state self)) ≠ 0%nat.
Proof.
  unfold Node.retrieve_confirmed_commit_ballot. intros E Hsize.
  apply map_size_empty_iff in Hsize. rewrite Hsize, map_to_list_empty in E.
  discriminate.
Qed.

(** C1, as the code has it: once [prepare_Externalize_msg] has externalised
    [b], or [process_externalize_msg] has adopted a message for [b], no
    commit-phase flag, state entry, counter entry or received message holds a
    value that shares a transaction with [b.value], and no prepare-phase
    flag, state entry, counter entry, prepared-ballot record or received
    message holds a value with the hash of [b.value].  This is so of the
    state the method leaves, whether it returns or, for want of a mempool,
    [AttributeError] leaves it: both resets run before the mempool is
    touched. *)
Theorem finalisation_purge `{Environment} (now : PyFloat.float) (self : Node.t) :
  (∀ draw b,
     Node.retrieve_confirmed_commit_ballot self draw = Some b →
     purged (Node.state_of (Node.prepare_Externalize_msg now draw self)) b)
  ∧ (∀ slot_number message sender,
       Node.ledger self !! slot_number = None →
       slot_number = Node.slot self →
       purged (Node.state_of
                 (Node.process_externalize_msg now self slot_number message sender))
              (ext_ballot message)).
Proof.
  split.
  - intros draw b Hb. unfold Node.prepare_Externalize_msg.
    rewrite bool_decide_eq_false_2
      by (by eapply retrieve_confirmed_commit_ballot_nonempty).
    rewrite Hb. cbv zeta.
    match goal with
    | |- context [Node.remove_txs_from_mempool ?s ?v] =>
        destruct (remove_txs_from_mempool_frame s v) as (seen & fin & pool & E);
        destruct (Node.remove_txs_from_mempool s v) as [s'|e s'];
        simpl in E; subst s'; simpl
    end.
    all: split; intros v Hin;
      [apply (reset_commit_phase_state_purges self b v)
      |apply (reset_prepare_ballot_phase_purges self b v)]; by destruct self.
  - intros slot_number message sender Hledger Hslot.
    unfold Node.process_externalize_msg.
    rewrite bool_decide_eq_false_2 by (rewrite Hledger; by inversion 1).
    rewrite bool_decide_eq_false_2 by (by intros ?).
    cbv zeta.
    match goal with
    | |- context [Node.remove_txs_from_mempool ?s ?v] =>
        destruct (remove_txs_from_mempool_frame s v) as (seen & fin & pool & E);
        destruct (Node.remove_txs_from_mempool s v) as [s'|e s'];
        simpl in E; subst s'; simpl
    end.
    all: split; intros v Hin;
      [apply (reset_commit_phase_state_purges self (ext_ballot message) v)
      |apply (reset_prepare_ballot_phase_purges self (ext_ballot message) v)];
      by destruct self.
Qed.

Lemma finalisation_purge_witness :
  Node.retrieve_confirmed_commit_ballot node_overlapping 0 = Some ballot_11
  ∧ purged (Node.state_of (@Node.prepare_Externalize_msg example_environment
                             PyFloat.zero 0 node_overlapping)) ballot_11
  ∧ purged (Node.state_of
              (@Node.process_externalize_msg example_environment
                 PyFloat.zero node_overlapping 1 externalize_11 (mkNodeRef 1 "0")))
           ballot_11.
Proof.
  assert (Hb : Node.retrieve_confirmed_commit_ballot node_overlapping 0 = Some ballot_11)
    by (vm_compute; reflexivity).
  split; [exact Hb|]. split.
  - exact (proj1 (@finalisation_purge example_environment PyFloat.zero node_overlapping)
             0%nat ballot_11 Hb).
  - refine (proj2 (@finalisation_purge example_environment PyFloat.zero node_overlapping)
              1 externalize_11 (mkNodeRef 1 "0") _ _); reflexivity.
Defined.

(** C1 as stated fails: after the node has externalised ballot (1, {11}),
    its balloting state still votes for {11, 22}, which shares transaction
    11 with the finalised value. *)
Lemma finalisation_purge_counterexample :
  let run := @Node.prepare_Externalize_msg example_environment
               PyFloat.zero 0 node_overlapping in
  let after := Node.state_of run in
  Node.retrieve_confirmed_commit_ballot node_overlapping 0 = Some ballot_11
  ∧ run = Node.Returned after
  ∧ Node.ledger after !! 1 = Some (mkExternalize ballot_11 1 PyFloat.zero)
  ∧ Node.b_voted (Node.balloting_state after) !! Value.hash value_11_22
    = Some ballot_11_22
  ∧ value_11_22 ∈ prepare_phase_values after
  ∧ shares_transaction value_11_22 (value ballot_11).
Proof.
  intros run after.
  split; [vm_compute; reflexivity|].
  split; [vm_compute; reflexivity|].
  split; [vm_compute; reflexivity|].
  split; [vm_compute; reflexivity|].
  split.
  - apply list_elem_of_In. vm_compute. auto.
  - exists (tx 11). split; apply list_elem_of_In; simpl; auto.
Qed.

(** C7: an Externalize message for a slot that the ledger already holds, or
    for a slot other than the node's current one, leaves the whole node
    state as it was: the method returns before anything is assigned. *)
Theorem process_externalize_msg_discards `{Environment} (now : PyFloat.float)
    (self : Node.t) (slot_number : Z) (message : SCPExternalize) (sender : NodeRef) :
  is_Some (Node.ledger self !! slot_number) ∨ slot_number ≠ Node.slot self →
  Node.process_externalize_msg now self slot_number message sender
  = Node.Returned self.
Proof.
  intros [Hin|Hne]; unfold Node.process_externalize_msg.
  - by rewrite bool_decide_eq_true_2.
  - case_bool_decide; [done|]. by rewrite bool_decide_eq_true_2.
Qed.

Lemma process_externalize_msg_discards_witness :
  Node.slot node_at_slot_2 = 2
  ∧ @Node.process_externalize_msg example_environment (half_seconds 7)
      node_at_slot_2 1 externalize_11 (mkNodeRef 1 "0")
    = Node.Returned node_at_slot_2
  ∧ @Node.process_externalize_msg example_environment (half_seconds 7)
      node_at_slot_2 3 externalize_11 (mkNodeRef 1 "0")
    = Node.Returned node_at_slot_2.
Proof.
  split; [reflexivity|]. split.
  - apply process_externalize_msg_discards. left. by eexists.
  - apply process_externalize_msg_discards. right. by vm_compute.
Defined.

(** ** The slot cap on merged nominations *)

Lemma combine_NoDup `{PyHash} (values : list Value.t) :
  NoDup (Value.transactions (Value.combine values)).
Proof. unfold Value.combine. simpl. apply NoDup_elements. Qed.

(** Sorting by hash, keeping the first [MAX_SLOT_TXS] and building a value
    from them keeps the first [MAX_SLOT_TXS] by hash. *)
Lemma cap_first_by_hash `{PyHash} (merged : list Transaction) :
  NoDup merged → (Node.MAX_SLOT_TXS < length merged)%nat →
  first_by_hash
    (Value.transactions
       (Value.__init__ (Node.py_set (take Node.MAX_SLOT_TXS (Node.sorted_by_hash merged)))
                       None))
    merged.
Proof.
  intros Hnd Hlen. simpl. unfold Node.py_set, Node.sorted_by_hash.
  set (sorted := merge_sort tx_le merged).
  assert (Hperm : sorted ≡ₚ merged) by apply merge_sort_Permutation.
  assert (Hsorted : StronglySorted tx_le sorted)
    by (apply StronglySorted_merge_sort; apply _).
  assert (Hnd' : NoDup sorted) by by rewrite Hperm.
  assert (Hlen' : length sorted = length merged) by by rewrite Hperm.
  rewrite <- (take_drop Node.MAX_SLOT_TXS sorted) in Hsorted, Hnd', Hperm.
  apply NoDup_app in Hnd' as (Hnd1 & Hdisj & _).
  assert (Hin : ∀ t, t ∈ elements (list_to_set (take Node.MAX_SLOT_TXS sorted) : gset Transaction)
                     ↔ t ∈ take Node.MAX_SLOT_TXS sorted).
  { intros t. by rewrite elem_of_elements, elem_of_list_to_set. }
  repeat split.
  - change (size (list_to_set (take Node.MAX_SLOT_TXS sorted) : gset Transaction)
            = Node.MAX_SLOT_TXS).
    rewrite size_list_to_set by done. rewrite length_take. lia.
  - apply NoDup_elements.
  - intros t Ht. apply Hin in Ht. rewrite <- Hperm. apply elem_of_app. by left.
  - intros t u Ht Hu Hnu. apply Hin in Ht.
    assert (Hu' : u ∈ drop Node.MAX_SLOT_TXS sorted).
    { rewrite <- Hperm in Hu. apply elem_of_app in Hu as [Hu|Hu]; [|done].
      by apply Hin in Hu. }
    pose proof (StronglySorted_app_1_elem_of _ _ _ _ _ Hsorted Ht Hu') as Hle.
    unfold tx_le in Hle.
    assert (Hne : tx_hash t ≠ tx_hash u).
    { intros E. destruct t, u. simpl in E. subst. by apply (Hdisj _ Ht). }
    lia.
Qed.

Lemma merge_voted_capped `{PyHash} (existing : list Value.t) (new_value : Value.t) :
  let merged := Value.transactions (Value.combine (existing ++ [new_value])) in
  (Node.MAX_SLOT_TXS < length merged)%nat →
  first_by_hash (Value.transactions (Node.merge_voted existing new_value)) merged.
Proof.
  intros merged Hlen. unfold Node.merge_voted.
  fold merged. rewrite bool_decide_eq_true_2 by done.
  apply cap_first_by_hash; [apply combine_NoDup | done].
Qed.

Lemma merge_incoming_capped `{PyHash} (finalized_tx_ids : gset Z)
    (current : list Value.t) (incoming : Value.t) :
  let merged :=
    Value.transactions
      (Value.combine (current ++ [pruned_incoming finalized_tx_ids incoming])) in
  Value.transactions (pruned_incoming finalized_tx_ids incoming) ≠ [] →
  (Node.MAX_SLOT_TXS < length merged)%nat →
  ∃ stored,
    Node.merge_incoming finalized_tx_ids current incoming = Some stored
    ∧ first_by_hash (Value.transactions stored) merged.
Proof.
  intros merged Hne Hlen. unfold Node.merge_incoming.
  subst merged. unfold pruned_incoming in *. simpl in Hne.
  set (filtered := Node.py_set _) in *.
  destruct filtered as [|t0 rest] eqn:Ef; [done|].
  eexists. split; [reflexivity|].
  set (merged := Value.transactions (Value.combine _)) in *.
  assert (Hsl : length (Node.sorted_by_hash merged) = length merged)
    by (unfold Node.sorted_by_hash; by rewrite merge_sort_Permutation).
  rewrite Hsl. rewrite bool_decide_eq_true_2 by done.
  apply cap_first_by_hash; [apply combine_NoDup | done].
Qed.

Lemma length_py_set (txs : list Transaction) :
  (length (Node.py_set txs) ≤ length txs)%nat ∧ NoDup (Node.py_set txs).
Proof.
  unfold Node.py_set. split; [|apply NoDup_elements].
  apply submseteq_length, NoDup_submseteq; [apply NoDup_elements|].
  intros x. by rewrite elem_of_elements, elem_of_list_to_set.
Qed.

(** The transactions taken from the queue are at most [MAX_SLOT_TXS]. *)
Lemma select_to_nominate_length `{PyHash} (self ready : Node.t)
    (to_nominate : list Transaction) :
  Node.select_to_nominate self = Ok (ready, to_nominate) →
  (length to_nominate ≤ Node.MAX_SLOT_TXS)%nat.
Proof.
  unfold Node.select_to_nominate. destruct (Node.mempool self); [|discriminate].
  assert (Hq : ∀ q : list Transaction,
            (length (take (min Node.MAX_SLOT_TXS (length q)) q)
             ≤ Node.MAX_SLOT_TXS)%nat)
    by (intros q; rewrite length_take; lia).
  cbv zeta. intros E. inversion E. apply Hq.
Qed.

(** What [prepare_nomination_msg] stores and sends as its voted nomination:
    the new value built from the transactions taken from the queue, or its
    capped merge with the voted values left by the pruning. *)
Lemma prepare_nomination_msg_stores `{PyHash} (self ready after : Node.t)
    (to_nominate : list Transaction) (message : SCPNominate) :
  let existing := Node.voted (Node.nomination_state ready) in
  let new_value := Value.__init__ (Node.py_set to_nominate) None in
  Node.select_to_nominate self = Ok (ready, to_nominate) →
  Node.prepare_nomination_msg self = Ok (after, Some message) →
  Node.voted (Node.nomination_state after)
  = match existing with
    | [] => [new_value]
    | _ => [Node.merge_voted existing new_value]
    end
  ∧ msg_voted message = Node.voted (Node.nomination_state after).
Proof.
  intros existing new_value Hsel. unfold Node.prepare_nomination_msg.
  rewrite Hsel. simpl.
  destruct to_nominate as [|t0 ts]; [discriminate|].
  destruct (Node.is_value_already_present _ _); [discriminate|].
  intros [= <- <-]. subst existing new_value.
  destruct (Node.voted (Node.nomination_state ready)); by destruct ready.
Qed.

(** What [process_received_message] stores for an incoming voted value and
    for an incoming accepted value is the capped merge computed by
    [merge_incoming] from the pruned state. *)
Lemma process_received_message_stores `{PyHash} (self : Node.t)
    (incoming : Value.t) (accepted_in : option Value.t) (stored : Value.t) :
  let finalized_tx_ids := Node.get_finalized_transaction_ids self in
  let current :=
    Node.voted (Node.prune_nomination_state finalized_tx_ids
                  (Node.nomination_state self)) in
  Node.merge_incoming finalized_tx_ids current incoming = Some stored →
  Node.voted (Node.nomination_state
                (Node.process_received_message self (Some incoming, accepted_in)))
  = [stored].
Proof.
  intros fin current E. unfold Node.process_received_message. cbv zeta.
  subst fin current. cbn [fst snd mbind option_bind]. rewrite E.
  unfold Node.update_local_nomination_broadcast.
  destruct accepted_in as [a|]; cbn [mbind option_bind].
  - destruct (Node.merge_incoming _ _ a); by destruct self.
  - destruct (Node.accepted _); by destruct self.
Qed.

Lemma process_received_message_stores_accepted `{PyHash} (self : Node.t)
    (voted_in : option Value.t) (incoming : Value.t) (stored : Value.t) :
  let finalized_tx_ids := Node.get_finalized_transaction_ids self in
  let current :=
    Node.accepted (Node.prune_nomination_state finalized_tx_ids
                     (Node.nomination_state self)) in
  Node.merge_incoming finalized_tx_ids current incoming = Some stored →
  Node.accepted (Node.nomination_state
                   (Node.process_received_message self (voted_in, Some incoming)))
  = [stored].
Proof.
  intros fin current E. unfold Node.process_received_message. cbv zeta.
  subst fin current. cbn [fst snd].
  destruct (voted_in ≫= _) as [m|]; cbn [mbind option_bind Node.accepted];
    rewrite E; unfold Node.update_local_nomination_broadcast; simpl.
  - by destruct self.
  - destruct (Node.prune_phase _ (Node.voted _)); by destruct self.
Qed.

(** C6: when the merge of [prepare_nomination_msg] or of
    [process_received_message] comes to more than 200 transactions, the
    value the node stores as its voted nomination (for
    [process_received_message] also the one it stores as its accepted
    nomination) holds exactly 200 of them, the first 200 in ascending order
    of transaction hash.  In [prepare_nomination_msg] the merge is that of
    the voted values left by the pruning with the value built from the
    transactions taken from the queue, and the stored value is the one
    sent; in [process_received_message] it is that of the pruned voted (or
    accepted) values with what is left of the incoming value. *)
Theorem merged_nomination_capped `{PyHash} (self : Node.t) :
  (∀ ready to_nominate after message,
     let existing := Node.voted (Node.nomination_state ready) in
     let new_value := Value.__init__ (Node.py_set to_nominate) None in
     let merged := Value.transactions (Value.combine (existing ++ [new_value])) in
     Node.select_to_nominate self = Ok (ready, to_nominate) →
     Node.prepare_nomination_msg self = Ok (after, Some message) →
     (Node.MAX_SLOT_TXS < length merged)%nat →
     ∃ stored,
       Node.voted (Node.nomination_state after) = [stored]
       ∧ msg_voted message = [stored]
       ∧ first_by_hash (Value.transactions stored) merged)
  ∧ (∀ incoming incoming_accepted,
       let finalized_tx_ids := Node.get_finalized_transaction_ids self in
       let current :=
         Node.voted (Node.prune_nomination_state finalized_tx_ids
                       (Node.nomination_state self)) in
       let merged :=
         Value.transactions
           (Value.combine (current ++ [pruned_incoming finalized_tx_ids incoming])) in
       let after :=
         Node.process_received_message self (Some incoming, incoming_accepted) in
       Value.transactions (pruned_incoming finalized_tx_ids incoming) ≠ [] →
       (Node.MAX_SLOT_TXS < length merged)%nat →
       ∃ stored,
         Node.voted (Node.nomination_state after) = [stored]
         ∧ first_by_hash (Value.transactions stored) merged)
  ∧ (∀ incoming_voted incoming,
       let finalized_tx_ids := Node.get_finalized_transaction_ids self in
       let current :=
         Node.accepted (Node.prune_nomination_state finalized_tx_ids
                          (Node.nomination_state self)) in
       let merged :=
         Value.transactions
           (Value.combine (current ++ [pruned_incoming finalized_tx_ids incoming])) in
       let after :=
         Node.process_received_message self (incoming_voted, Some incoming) in
       Value.transactions (pruned_incoming finalized_tx_ids incoming) ≠ [] →
       (Node.MAX_SLOT_TXS < length merged)%nat →
       ∃ stored,
         Node.accepted (Node.nomination_state after) = [stored]
         ∧ first_by_hash (Value.transactions stored) merged).
Proof.
  split; [|split].
  - intros ready to_nominate after message existing new_value merged Hsel Hrun Hlen.
    destruct (prepare_nomination_msg_stores self ready after to_nominate message
                Hsel Hrun) as [Hv Hm].
    fold existing new_value in Hv.
    destruct existing as [|e0 es] eqn:Ee.
    + exfalso. subst merged new_value. simpl in Hlen.
      pose proof (select_to_nominate_length _ _ _ Hsel) as Hq.
      destruct (length_py_set to_nominate) as [Hp _].
      destruct (length_py_set (Node.py_set to_nominate)) as [Hp' _].
      unfold Node.py_set in Hp' at 1.
      rewrite (left_id_L ∅ (∪)) in Hlen. lia.
    + eexists. split; [exact Hv|]. split; [by rewrite Hm|].
      by apply merge_voted_capped.
  - intros incoming incoming_accepted fin current merged after Hne Hlen.
    destruct (merge_incoming_capped fin current incoming Hne Hlen)
      as (stored & E & Hcap).
    exists stored. split; [|exact Hcap].
    by apply process_received_message_stores.
  - intros incoming_voted incoming fin current merged after Hne Hlen.
    destruct (merge_incoming_capped fin current incoming Hne Hlen)
      as (stored & E & Hcap).
    exists stored. split; [|exact Hcap].
    by apply process_received_message_stores_accepted.
Qed.

Lemma merged_nomination_capped_witness :
  (∃ after message stored,
     @Node.prepare_nomination_msg example_hash node_voting_0_149
     = Ok (after, Some message)
     ∧ Node.voted (Node.nomination_state after) = [stored]
     ∧ msg_voted message = [stored]
     ∧ length (Value.transactions stored) = Node.MAX_SLOT_TXS)
  ∧ (∃ stored,
       Node.voted (Node.nomination_state
                     (@Node.process_received_message example_hash node_voting_0_149
                        (Some value_100_200, None))) = [stored]
       ∧ length (Value.transactions stored) = Node.MAX_SLOT_TXS)
  ∧ (∃ stored,
       Node.accepted (Node.nomination_state
                        (@Node.process_received_message example_hash
                           node_voting_0_149 (None, Some value_100_200)))
       = [stored]
       ∧ length (Value.transactions stored) = Node.MAX_SLOT_TXS).
Proof.
  split; [|split].
  - eassert (Hsel : @Node.select_to_nominate example_hash node_voting_0_149
                    = Ok (_, _)) by (vm_compute; reflexivity).
    eassert (Hrun : @Node.prepare_nomination_msg example_hash node_voting_0_149
                    = Ok (_, Some _)) by (vm_compute; reflexivity).
    destruct (proj1 (@merged_nomination_capped example_hash node_voting_0_149)
                _ _ _ _ Hsel Hrun) as (stored & Hv & Hm & Hcap & _).
    { vm_compute. lia. }
    eexists _, _, stored. split; [exact Hrun|]. split; [exact Hv|].
    split; [exact Hm|exact Hcap].
  - destruct (proj1 (proj2 (@merged_nomination_capped example_hash
                              node_voting_0_149)) value_100_200 None)
      as (stored & Hv & Hcap & _).
    + vm_compute. discriminate.
    + vm_compute. lia.
    + by exists stored.
  - destruct (proj2 (proj2 (@merged_nomination_capped example_hash
                              node_voting_0_149)) None value_100_200)
      as (stored & Hv & Hcap & _).
    + vm_compute. discriminate.
    + vm_compute. lia.
    + by exists stored.
Defined.

(* ===================================================================== *)
(** * Further properties of the quorum set and of values *)

Lemma flatten_app (xs ys : list QuorumSet.member) :
  QuorumSet._flatten (xs ++ ys) = QuorumSet._flatten xs ++ QuorumSet._flatten ys.
Proof. unfold QuorumSet._flatten. apply flat_map_app. Qed.

Lemma flatten_peers (ns : list NodeRef) :
  QuorumSet._flatten (QuorumSet.Peer <$> ns) = ns.
Proof.
  induction ns as [|n ns IH]; [done|].
  unfold QuorumSet._flatten in *. simpl. f_equal. exact IH.
Qed.

(** X1: flattening is idempotent, and the size of a quorum set does not depend
    on how its inner sets are nested: replacing them by their flattening
    leaves [size] and [get_quorum] as they were. *)
Theorem flatten_idempotent (self : QuorumSet.t) :
  let flat := QuorumSet.Peer <$> QuorumSet._flatten (QuorumSet.inner_sets self) in
  let self' := QuorumSet.set self (QuorumSet.nodes self) (Some flat) in
  QuorumSet._flatten flat = QuorumSet._flatten (QuorumSet.inner_sets self)
  ∧ QuorumSet.size self' = QuorumSet.size self
  ∧ QuorumSet.get_quorum self' = QuorumSet.get_quorum self.
Proof.
  intros flat self'. subst flat self'.
  unfold QuorumSet.size, QuorumSet.get_quorum. simpl.
  by rewrite flatten_peers.
Qed.

Lemma count_signed_acc (entry : BallotEntry) (peers : list NodeRef)
    (signed : Z) (seen : gset string) :
  seen ⊆ be_voted entry ∪ be_accepted entry →
  signed = Z.of_nat (size seen) →
  let r := foldl (λ '(signed, seen) peer,
                if bool_decide (node_name peer ∈ seen) then (signed, seen)
                else if bool_decide (node_name peer ∈ be_voted entry)
                        || bool_decide (node_name peer ∈ be_accepted entry)
                then (signed + 1, {[ node_name peer ]} ∪ seen)
                else (signed, seen))
             (signed, seen) peers in
  r.2 = seen ∪ (list_to_set (node_name <$> peers)
                ∩ (be_voted entry ∪ be_accepted entry))
  ∧ r.1 = Z.of_nat (size r.2).
Proof.
  revert signed seen. induction peers as [|p ps IH]; intros signed seen Hsub Hsz; simpl.
  - split; [set_solver|done].
  - case_bool_decide as Hseen.
    + destruct (IH signed seen Hsub Hsz) as [E1 E2]. split; [|done].
      rewrite E1. set_solver.
    + destruct (bool_decide (node_name p ∈ be_voted entry)
                || bool_decide (node_name p ∈ be_accepted entry)) eqn:Hs.
      * apply orb_true_iff in Hs. rewrite !bool_decide_eq_true in Hs.
        destruct (IH (signed + 1) ({[node_name p]} ∪ seen)) as [E1 E2].
        { set_solver. }
        { rewrite size_union by set_solver. rewrite size_singleton. lia. }
        split; [|done]. rewrite E1. set_solver.
      * apply orb_false_iff in Hs. rewrite !bool_decide_eq_false in Hs.
        destruct (IH signed seen Hsub Hsz) as [E1 E2]. split; [|done].
        rewrite E1. set_solver.
Qed.

(** X2: [check_prepare_threshold] and [check_commit_threshold] count each peer
    name once, however often the peer occurs in the quorum: the threshold is
    compared with the number of distinct peer names found in the voted or
    the accepted set of the ballot's entry. *)
Theorem ballot_threshold_counts_distinct_names (ballot : SCPBallot)
    (quorum : list QuorumSet.member) (thr : Z) (ctr : vdict BallotEntry)
    (entry : BallotEntry) :
  vdict_get ctr (value ballot) = Some entry →
  let signed : gset string :=
    list_to_set (node_name <$> QuorumSet._flatten quorum)
    ∩ (be_voted entry ∪ be_accepted entry) in
  QuorumSet.check_prepare_threshold ballot quorum thr ctr
    = bool_decide (thr ≤ Z.of_nat (size signed))
  ∧ QuorumSet.check_commit_threshold ballot quorum thr ctr
    = bool_decide (thr ≤ Z.of_nat (size signed)).
Proof.
  intros E signed.
  unfold QuorumSet.check_prepare_threshold, QuorumSet.check_commit_threshold.
  rewrite E. unfold QuorumSet.count_signed.
  destruct (count_signed_acc entry (QuorumSet._flatten quorum) 0 ∅) as [E1 E2];
    [set_solver|done|].
  cbv zeta in E1, E2. rewrite E2, E1.
  by rewrite (left_id_L ∅ (∪)).
Qed.

(** X3: [retrieve_random_peer] never hands back the calling node object: it
    returns a validator or a node of the flattened inner sets that is not
    the caller, and returns nothing exactly when every such node is the
    caller. *)
Theorem retrieve_random_peer_not_caller (self : QuorumSet.t) (caller : NodeRef)
    (draw : nat) :
  let all := QuorumSet.nodes self ++ QuorumSet._flatten (QuorumSet.inner_sets self) in
  (∀ p, QuorumSet.retrieve_random_peer self caller draw = Some p →
        node_is p caller = false ∧ p ∈ all)
  ∧ (QuorumSet.retrieve_random_peer self caller draw = None
     ↔ ∀ p, p ∈ all → node_is p caller = true).
Proof.
  intros all. unfold QuorumSet.retrieve_random_peer.
  set (keep := λ n : NodeRef, negb (node_is n caller)).
  set (candidates := List.filter keep (QuorumSet.nodes self) ++ _).
  assert (Hc : ∀ p, p ∈ candidates ↔ p ∈ all ∧ node_is p caller = false).
  { intros p. subst candidates all. rewrite !elem_of_app, elem_of_List_filter.
    unfold QuorumSet._flatten at 2. rewrite !list_elem_of_In, !in_flat_map.
    subst keep. cbv beta.
    assert (Hx : ∀ x, In p (List.filter (λ n, negb (node_is n caller))
                                        (QuorumSet._flatten [x]))
                      ↔ In p (QuorumSet.flatten_member x) ∧ node_is p caller = false).
    { intros x. rewrite filter_In, negb_true_iff.
      unfold QuorumSet._flatten. simpl. by rewrite app_nil_r. }
    setoid_rewrite Hx. rewrite negb_true_iff. naive_solver. }
  clearbody candidates. split.
  - intros p Hp. destruct candidates as [|c cs]; [discriminate|].
    apply list_elem_of_lookup_2 in Hp. apply Hc in Hp. tauto.
  - split.
    + intros Hnone p Hp. destruct (node_is p caller) eqn:Hk; [done|].
      assert (Hin : p ∈ candidates) by (by apply Hc).
      destruct candidates as [|c cs]; [by apply elem_of_nil in Hin|].
      apply lookup_ge_None in Hnone.
      pose proof (Nat.mod_upper_bound draw (length (c :: cs))) as Hb.
      simpl in *. lia.
    + intros Hall. destruct candidates as [|c cs]; [done|].
      assert (Hin : c ∈ c :: cs) by left.
      apply Hc in Hin as [Hin Hk]. apply Hall in Hin. congruence.
Qed.

(** X4: [get_node] on an empty quorum set returns nothing; on a quorum set all of
    whose validators carry the owner's name it raises [ValueError]; otherwise
    it returns a validator whose name differs from the owner's. *)
Theorem get_node_cases (self : QuorumSet.t) (draw : nat) :
  (QuorumSet.nodes self = [] → QuorumSet.get_node self draw = Ok None)
  ∧ (QuorumSet.nodes self ≠ [] →
     (∀ n, n ∈ QuorumSet.nodes self → node_name n = node_name (QuorumSet.node self)) →
     QuorumSet.get_node self draw = Raise ValueError)
  ∧ (∀ n, n ∈ QuorumSet.nodes self → node_name n ≠ node_name (QuorumSet.node self) →
     ∃ p, QuorumSet.get_node self draw = Ok (Some p)
          ∧ p ∈ QuorumSet.nodes self
          ∧ node_name p ≠ node_name (QuorumSet.node self)).
Proof.
  unfold QuorumSet.get_node.
  set (others := List.filter _ (QuorumSet.nodes self)).
  assert (Ho : ∀ p, p ∈ others ↔
                    p ∈ QuorumSet.nodes self
                    ∧ node_name p ≠ node_name (QuorumSet.node self)).
  { intros p. subst others. rewrite elem_of_List_filter. simpl.
    rewrite negb_true_iff, bool_decide_eq_false. split; intros [? ?]; split; congruence. }
  clearbody others. generalize dependent (QuorumSet.nodes self). intros ns Ho.
  split; [|split].
  - by intros ->.
  - intros Hne Hall. destruct ns as [|n ns]; [done|].
    destruct others as [|o os]; [done|].
    assert (Hin : o ∈ o :: os) by left.
    apply Ho in Hin as [Hin Hname]. by apply Hall in Hin.
  - intros n Hn Hname.
    assert (Hin : n ∈ others) by (by apply Ho).
    destruct ns as [|n0 ns]; [by apply elem_of_nil in Hn|].
    destruct others as [|o os]; [by apply elem_of_nil in Hin|].
    destruct ((o :: os) !! (draw mod length (o :: os))%nat) as [p|] eqn:Ep.
    + exists p. split; [done|]. apply list_elem_of_lookup_2 in Ep.
      by apply Ho in Ep.
    + apply lookup_ge_None in Ep.
      pose proof (Nat.mod_upper_bound draw (length (o :: os))) as Hb.
      simpl in *. lia.
Qed.

Lemma get_node_cases_witness :
  let owner_only := QuorumSet.set (QuorumSet.__init__ node_A None None)
                      [mkNodeRef 7 "A"] None in
  let with_peers := QuorumSet.set (QuorumSet.__init__ node_A None None)
                      (node_A :: peers 2) None in
  QuorumSet.get_node (QuorumSet.__init__ node_A None None) 0 = Ok None
  ∧ QuorumSet.get_node owner_only 0 = Raise ValueError
  ∧ ∃ p, QuorumSet.get_node with_peers 3 = Ok (Some p)
         ∧ node_name p ≠ "A".
Proof.
  intros owner_only with_peers. split; [|split].
  - by apply (proj1 (get_node_cases (QuorumSet.__init__ node_A None None) 0)).
  - apply (proj1 (proj2 (get_node_cases owner_only 0))); [done|].
    intros n Hn. apply list_elem_of_singleton in Hn. by subst.
  - destruct (proj2 (proj2 (get_node_cases with_peers 3)) (mkNodeRef 1 "0"))
      as (p & Hp & _ & Hname).
    + right. left.
    + done.
    + exists p. split; [exact Hp|exact Hname].
Defined.

(** X5: [Value.combine] depends only on the union of the transactions: it gives
    equal values for a list and any reordering of it, for a list with an
    element repeated, and when parts of the list are combined beforehand. *)
Theorem combine_union `{PyHash} (vs ws : list Value.t) (v : Value.t) :
  Value.__eq__ (Value.combine (vs ++ ws)) (Value.combine (ws ++ vs)) = true
  ∧ Value.__eq__ (Value.combine (v :: v :: vs)) (Value.combine (v :: vs)) = true
  ∧ Value.__eq__ (Value.combine [Value.combine vs; Value.combine ws])
                 (Value.combine (vs ++ ws)) = true
  ∧ (∀ t, t ∈ Value.transactions (Value.combine vs)
          ↔ ∃ x, x ∈ vs ∧ t ∈ Value.transactions x).
Proof.
  assert (Heq : ∀ xs ys : list Value.t,
            Value.tx_set (Value.combine xs) = Value.tx_set (Value.combine ys) →
            Value.__eq__ (Value.combine xs) (Value.combine ys) = true).
  { intros xs ys E. apply Value_eq_spec. split; [|split; [done|exact E]].
    pose proof (init_consistent
      (elements (foldl (λ acc value, acc ∪ list_to_set (Value.transactions value))
                       (∅ : gset Transaction) xs)) None) as Hx.
    pose proof (init_consistent
      (elements (foldl (λ acc value, acc ∪ list_to_set (Value.transactions value))
                       (∅ : gset Transaction) ys)) None) as Hy.
    unfold Value.consistent in Hx, Hy.
    fold (Value.combine xs) in Hx. fold (Value.combine ys) in Hy.
    by rewrite Hx, Hy, E. }
  split; [|split; [|split]].
  - apply Heq. rewrite !tx_set_combine, !fmap_app, !union_list_app_L.
    apply (comm_L (∪)).
  - apply Heq. rewrite !tx_set_combine. simpl. set_solver.
  - apply Heq. rewrite !tx_set_combine, fmap_app, union_list_app_L. simpl.
    rewrite !tx_set_combine. set_solver.
  - intros t. rewrite <- (elem_of_list_to_set (C := gset Transaction)).
    fold (Value.tx_set (Value.combine vs)). rewrite tx_set_combine.
    rewrite elem_of_union_list. split.
    + intros (X & HX & Ht). apply list_elem_of_fmap in HX as (x & -> & Hx).
      exists x. split; [done|]. by apply elem_of_list_to_set in Ht.
    + intros (x & Hx & Ht). exists (Value.tx_set x). split.
      * apply list_elem_of_fmap. eauto.
      * by apply elem_of_list_to_set.
Qed.

(** * Further properties of the node *)

Lemma Value_eq_refl v : Value.__eq__ v v = true.
Proof. by apply Value_eq_spec. Qed.

Lemma Value_eq_sym v w : Value.__eq__ v w = Value.__eq__ w v.
Proof.
  apply eq_true_iff_eq. rewrite !Value_eq_spec. naive_solver.
Qed.

Lemma Value_eq_trans u v w :
  Value.__eq__ u v = true → Value.__eq__ v w = true → Value.__eq__ u w = true.
Proof. rewrite !Value_eq_spec. naive_solver congruence. Qed.

Lemma Value_eq_left u v w :
  Value.__eq__ u v = true → Value.__eq__ u w = Value.__eq__ v w.
Proof.
  intros E. apply eq_true_iff_eq. split; intros E'.
  - eapply Value_eq_trans; [|done]. by rewrite Value_eq_sym.
  - by eapply Value_eq_trans.
Qed.

Lemma Value_mem_app x l k : Value.mem x (l ++ k) = Value.mem x l || Value.mem x k.
Proof. apply existsb_app. Qed.

Lemma mem_eq u v l : Value.__eq__ u v = true → Value.mem u l = Value.mem v l.
Proof.
  intros E. unfold Value.mem. induction l as [|x l IH]; simpl; [done|].
  by rewrite IH, (Value_eq_left u v).
Qed.

Lemma mem_remove_first w val xs :
  Value.__eq__ w val = false →
  Value.mem w (remove_first (λ x, Value.__eq__ x val) xs) = Value.mem w xs.
Proof.
  intros Hne. induction xs as [|x xs IH]; simpl; [done|].
  destruct (Value.__eq__ x val) eqn:E; simpl.
  - rewrite (Value_eq_sym w x), (Value_eq_left x val), (Value_eq_sym val w), Hne by done.
    done.
  - by rewrite IH.
Qed.

Lemma mem_remove_value w val xs :
  Value.__eq__ w val = false →
  Value.mem w (Node.remove_value val xs) = Value.mem w xs.
Proof.
  intros Hne. unfold Node.remove_value. destruct (Value.mem val xs); [|done].
  by apply mem_remove_first.
Qed.

(** X7: with a non-empty "voted" list, [update_nomination_state(val, "voted")]
    leaves [val] accepted, whether or not the node had voted for it: it is
    appended to "accepted" unless it is there; other values stay where they
    are and "confirmed" is untouched.  A second call for "accepted" then
    leaves [val] confirmed. *)
Theorem update_nomination_state_promotes (ns : Node.nomination_state_t)
    (val : Value.t) :
  Node.voted ns ≠ [] →
  let after := Node.update_nomination_state ns val "voted" in
  Value.mem val (Node.accepted after) = true
  ∧ Node.accepted after
    = (if Value.mem val (Node.accepted ns) then Node.accepted ns
       else Node.accepted ns ++ [val])
  ∧ Node.confirmed after = Node.confirmed ns
  ∧ (∀ w, Value.__eq__ w val = false →
       Value.mem w (Node.voted after) = Value.mem w (Node.voted ns))
  ∧ Value.mem val
      (Node.confirmed (Node.update_nomination_state after val "accepted")) = true.
Proof.
  intros Hne after.
  assert (Hacc : Node.accepted after
    = (if Value.mem val (Node.accepted ns) then Node.accepted ns
       else Node.accepted ns ++ [val])
    ∧ Node.confirmed after = Node.confirmed ns
    ∧ Node.voted after = Node.remove_value val (Node.voted ns)).
  { subst after. unfold Node.update_nomination_state. simpl.
    destruct (Node.voted ns); [done|].
    by destruct (Value.mem val (Node.accepted ns)). }
  destruct Hacc as (Ha & Hc & Hv).
  assert (Hmem : Value.mem val (Node.accepted after) = true).
  { rewrite Ha. destruct (Value.mem val (Node.accepted ns)) eqn:E; [done|].
    rewrite Value_mem_app. simpl. by rewrite Value_eq_refl, orb_true_r. }
  repeat split; try done.
  - intros w Hw. rewrite Hv. by apply mem_remove_value.
  - unfold Node.update_nomination_state. simpl.
    destruct (Node.accepted after) eqn:E; [done|].
    destruct (Value.mem val (Node.confirmed after)) eqn:E'; simpl; [done|].
    rewrite Value_mem_app. simpl. by rewrite Value_eq_refl, orb_true_r.
Qed.

Lemma update_nomination_state_promotes_witness :
  Value.mem value_11_22
    (Node.accepted (Node.update_nomination_state
       (Node.mkNomState [value_11] [] []) value_11_22 "voted")) = true.
Proof.
  apply (update_nomination_state_promotes (Node.mkNomState [value_11] [] [])
           value_11_22).
  simpl. discriminate.
Defined.

(** *** Duplicates *)

Lemma distinct_snoc s x :
  distinct_values (s ++ [x]) = distinct_values s && negb (Value.mem x s).
Proof.
  induction s as [|y s IH]; simpl.
  - done.
  - rewrite IH, Value_mem_app. simpl. rewrite orb_false_r, (Value_eq_sym y x).
    destruct (Value.mem y s), (Value.__eq__ x y), (distinct_values s),
      (Value.mem x s); done.
Qed.

Lemma dedup_fold (vs s : list Value.t) :
  ∃ r, foldl Node.dedup_step (s, s) vs = (s ++ r, s ++ r)
       ∧ sublist r vs
       ∧ (∀ v, Value.mem v (s ++ r) = Value.mem v s || Value.mem v vs)
       ∧ (distinct_values s = true → distinct_values (s ++ r) = true).
Proof.
  revert s. induction vs as [|x vs IH]; intros s; simpl.
  - exists []. rewrite app_nil_r. repeat split; try done.
    intros v. by rewrite orb_false_r.
  - unfold Node.dedup_step at 2. simpl. destruct (Value.mem x s) eqn:E.
    + destruct (IH s) as (r & Hr & Hs & Hm & Hd). exists r.
      repeat split; try done.
      * by apply sublist_cons.
      * intros v. rewrite Hm. destruct (Value.__eq__ v x) eqn:Ev; simpl; [|done].
        rewrite (mem_eq v x) by done. rewrite E. done.
    + destruct (IH (s ++ [x])) as (r & Hr & Hs & Hm & Hd). exists (x :: r).
      rewrite Hr. rewrite <- !app_assoc. simpl. repeat split; try done.
      * by apply sublist_skip.
      * intros v. specialize (Hm v). rewrite <- app_assoc in Hm. simpl in Hm.
        rewrite Hm, Value_mem_app. simpl. rewrite orb_false_r. by rewrite orb_assoc.
      * intros Hds. rewrite <- app_assoc in Hd. apply Hd.
        rewrite distinct_snoc, Hds, E. done.
Qed.

Lemma dedup_fold_distinct (l s : list Value.t) :
  distinct_values (s ++ l) = true →
  foldl Node.dedup_step (s, s) l = (s ++ l, s ++ l).
Proof.
  revert s. induction l as [|x l IH]; intros s Hd; simpl.
  - by rewrite app_nil_r.
  - unfold Node.dedup_step at 2. simpl.
    assert (E : Value.mem x s = false).
    { clear IH. induction s as [|y s IHs]; simpl in *; [done|].
      apply andb_true_iff in Hd as [Hy Hd]. rewrite IHs by done.
      rewrite Value_mem_app in Hy. simpl in Hy. rewrite (Value_eq_sym x y).
      destruct (Value.__eq__ y x); [|done].
      by rewrite orb_true_r in Hy. }
    rewrite E. rewrite (IH (s ++ [x])); rewrite <- app_assoc; done.
Qed.

Lemma dedup_values_spec (vs : list Value.t) :
  distinct_values (Node.dedup_values vs) = true
  ∧ sublist (Node.dedup_values vs) vs
  ∧ (∀ v, Value.mem v (Node.dedup_values vs) = Value.mem v vs)
  ∧ Node.dedup_values (Node.dedup_values vs) = Node.dedup_values vs.
Proof.
  unfold Node.dedup_values.
  destruct (dedup_fold vs []) as (r & Hr & Hs & Hm & Hd). rewrite Hr. simpl.
  repeat split; try done.
  - by apply Hd.
  - by rewrite (dedup_fold_distinct r []) by (by apply Hd).
Qed.

(** X8: [clean_nomination_state_duplicates] leaves in each of the three lists
    the first of every group of equal values, in their order: no two
    entries are equal afterwards, every value that was present still is,
    and cleaning again changes nothing. *)
Theorem clean_nomination_state_duplicates_distinct (self : Node.t) :
  let after := Node.clean_nomination_state_duplicates self in
  Forall2 (λ cleaned original,
             distinct_values cleaned = true
             ∧ sublist cleaned original
             ∧ ∀ v, Value.mem v cleaned = Value.mem v original)
          (nomination_lists (Node.nomination_state after))
          (nomination_lists (Node.nomination_state self))
  ∧ Node.clean_nomination_state_duplicates after = after.
Proof.
  intros after. subst after. unfold Node.clean_nomination_state_duplicates.
  set (ns := Node.nomination_state self).
  destruct (dedup_values_spec (Node.voted ns)) as (V1 & V2 & V3 & V4).
  destruct (dedup_values_spec (Node.accepted ns)) as (A1 & A2 & A3 & A4).
  destruct (dedup_values_spec (Node.confirmed ns)) as (C1 & C2 & C3 & C4).
  split.
  - destruct self; simpl. unfold nomination_lists. simpl.
    repeat (apply Forall2_cons; split); [..|by constructor]; done.
  - destruct self; simpl in *. unfold set, Node.eta. simpl.
    by rewrite V4, A4, C4.
Qed.

(** X9: [remove_finalized_transactions] keeps in the nomination state exactly
    the values that share no transaction with the finalised value, and it
    empties the statement counter: the counter is keyed by value hashes,
    which have no transactions to compare. *)
Theorem remove_finalized_transactions_purges (self : Node.t)
    (finalized_value : Value.t) :
  let after := Node.remove_finalized_transactions self finalized_value in
  Forall2 (λ kept original,
             ∀ v, v ∈ kept ↔ v ∈ original ∧ ¬ shares_transaction v finalized_value)
          (nomination_lists (Node.nomination_state after))
          (nomination_lists (Node.nomination_state self))
  ∧ Node.statement_counter after = ∅.
Proof.
  intros after. subst after. unfold Node.remove_finalized_transactions.
  set (keep := λ v : Value.t, negb _).
  assert (Hk : ∀ v, keep v = true ↔ ¬ shares_transaction v finalized_value).
  { intros v. unfold keep. rewrite negb_true_iff, <- not_true_iff_false.
    apply not_iff_compat. rewrite existsb_exists. unfold shares_transaction.
    split.
    - intros (t & Hin & Ht). exists t. apply list_elem_of_In in Hin.
      apply bool_decide_eq_true, elem_of_list_to_set in Ht. done.
    - intros (t & Hv & Hf). exists t. split; [by apply list_elem_of_In|].
      by apply bool_decide_eq_true, elem_of_list_to_set. }
  split.
  - destruct self; simpl. unfold nomination_lists. simpl.
    repeat (apply Forall2_cons; split); [..|by constructor].
    all: intros v; rewrite elem_of_List_filter, Hk; reflexivity.
  - destruct self; simpl. apply map_empty. intros i.
    apply map_lookup_filter_None. right. intros x _ [].
Qed.

Lemma counter_extends_refl c : counter_extends c c.
Proof. intros h e He. eauto. Qed.

Lemma counter_extends_trans a b c :
  counter_extends a b → counter_extends b c → counter_extends a c.
Proof.
  intros Hab Hbc h e He.
  destruct (Hab h e He) as (e1 & H1 & Hv1 & Ha1).
  destruct (Hbc h e1 H1) as (e2 & H2 & Hv2 & Ha2).
  exists e2. split; [done|]. split; etrans; eauto.
Qed.

Lemma record_statement_extends name b ctr val :
  counter_extends ctr (Node.record_statement name b ctr val).
Proof.
  intros h e He. unfold Node.record_statement.
  destruct (decide (h = Value.hash val)) as [->|Hne].
  - rewrite lookup_insert_eq. eexists. split; [done|]. rewrite He. simpl.
    destruct b; case_bool_decide as Hin; simpl; try done.
    + split; [done|]. apply insert_subseteq.
      destruct (nom_accepted e !! name) eqn:E; [|done]. destruct Hin; eauto.
    + split; [|done]. apply insert_subseteq.
      destruct (nom_voted e !! name) eqn:E; [|done]. destruct Hin; eauto.
  - rewrite lookup_insert_ne by done. eauto.
Qed.

Lemma record_statement_recorded name b ctr val :
  recorded name b (Node.record_statement name b ctr val) val.
Proof.
  unfold recorded, Node.record_statement. rewrite lookup_insert_eq.
  eexists. split; [done|].
  destruct b; case_bool_decide as Hin; simpl; try done;
    by rewrite lookup_insert_eq.
Qed.

Lemma recorded_extends name b c c' val :
  counter_extends c c' → recorded name b c val → recorded name b c' val.
Proof.
  intros Hext (e & He & [x Hx]).
  destruct (Hext _ _ He) as (e' & He' & Hv & Ha).
  exists e'. split; [done|]. exists x.
  destruct b; eapply lookup_weaken; eauto.
Qed.

Lemma record_statement_id name b ctr val :
  recorded name b ctr val → Node.record_statement name b ctr val = ctr.
Proof.
  intros (e & He & Hin). unfold Node.record_statement. rewrite He. simpl.
  destruct b; rewrite bool_decide_eq_true_2 by done; by apply insert_id.
Qed.

Lemma foldl_record_extends name b vals ctr :
  counter_extends ctr (foldl (Node.record_statement name b) ctr vals).
Proof.
  revert ctr. induction vals as [|v vals IH]; intros ctr; simpl.
  - apply counter_extends_refl.
  - eapply counter_extends_trans; [apply record_statement_extends|apply IH].
Qed.

Lemma foldl_record_recorded name b vals ctr v :
  v ∈ vals → recorded name b (foldl (Node.record_statement name b) ctr vals) v.
Proof.
  revert ctr. induction vals as [|w vals IH]; intros ctr Hin; simpl.
  - by apply elem_of_nil in Hin.
  - apply elem_of_cons in Hin as [->|Hin]; [|by apply IH].
    eapply recorded_extends; [apply foldl_record_extends|].
    apply record_statement_recorded.
Qed.

Lemma foldl_record_id name b vals ctr :
  (∀ v, v ∈ vals → recorded name b ctr v) →
  foldl (Node.record_statement name b) ctr vals = ctr.
Proof.
  induction vals as [|w vals IH]; intros Hall; simpl; [done|].
  rewrite record_statement_id by (apply Hall; left).
  apply IH. intros v Hv. apply Hall. by right.
Qed.

(** X6: [update_statement_count] records the sender under every value of the
    message, in an entry keyed by the value's hash; it takes nothing away
    from the counter, and handling the same message from the same sender
    again changes nothing. *)
Theorem update_statement_count_records (self : Node.t) (other_node : NodeRef)
    (message : Node.nom_field * Node.nom_field) :
  let after := Node.update_statement_count self other_node message in
  (∀ v, v ∈ Node.normalize message.1 →
     ∃ e, Node.statement_counter after !! Value.hash v = Some e
          ∧ is_Some (nom_voted e !! node_name other_node))
  ∧ (∀ v, v ∈ Node.normalize message.2 →
     ∃ e, Node.statement_counter after !! Value.hash v = Some e
          ∧ is_Some (nom_accepted e !! node_name other_node))
  ∧ counter_extends (Node.statement_counter self) (Node.statement_counter after)
  ∧ Node.update_statement_count after other_node message = after.
Proof.
  intros after. subst after. unfold Node.update_statement_count.
  set (name := node_name other_node).
  set (c1 := foldl (Node.record_statement name true) _ (Node.normalize message.2)).
  set (c2 := foldl (Node.record_statement name false) c1 (Node.normalize message.1)).
  assert (E : Node.statement_counter (self <| Node.statement_counter := c2 |>) = c2)
    by (by destruct self).
  rewrite E.
  assert (Hv : ∀ v, v ∈ Node.normalize message.1 → recorded name false c2 v)
    by (intros v Hv; by apply foldl_record_recorded).
  assert (Ha : ∀ v, v ∈ Node.normalize message.2 → recorded name true c2 v).
  { intros v Hv'. eapply recorded_extends; [apply foldl_record_extends|].
    by apply foldl_record_recorded. }
  repeat split.
  - apply Hv.
  - apply Ha.
  - eapply counter_extends_trans; apply foldl_record_extends.
  - rewrite (foldl_record_id name true) by done.
    rewrite (foldl_record_id name false) by done.
    by destruct self.
Qed.

Lemma round_end_succ r : round_end (r + 1) = round_end r + (1 + (r + 1)).
Proof.
  unfold round_end.
  replace ((r + 1) * (r + 1 + 3)) with (r * (r + 3) + (1 + (r + 1)) * 2) by lia.
  by rewrite Z.div_add.
Qed.

Lemma round_end_ge r : 1 ≤ r → r ≤ round_end r.
Proof. intros Hr. unfold round_end. apply Z.div_le_lower_bound; nia. Qed.

Lemma round_loop_least (td : PyFloat.float) (k : nat) : ∀ r,
  PyFloat.int_lt (round_end (r + Z.of_nat k)) td = false →
  ∃ r', r ≤ r' ≤ r + Z.of_nat k
    ∧ Node.round_loop (S k) td r (round_end r) = Some r'
    ∧ PyFloat.int_lt (round_end r') td = false
    ∧ ∀ q, r ≤ q < r' → PyFloat.int_lt (round_end q) td = true.
Proof.
  induction k as [|k IH]; intros r Hk.
  - rewrite Z.add_0_r in Hk. exists r. cbn [Node.round_loop]. rewrite Hk.
    repeat split; try done; lia.
  - cbn [Node.round_loop]. destruct (PyFloat.int_lt (round_end r) td) eqn:E.
    + rewrite <- round_end_succ.
      destruct (IH (r + 1)) as (r' & Hr & Hl & Hf & Hq).
      { by replace (r + 1 + Z.of_nat k) with (r + Z.of_nat (S k)) by lia. }
      exists r'. split; [lia|]. split; [exact Hl|]. split; [done|].
      intros q Hq'. destruct (decide (q = r)) as [->|]; [done|]. apply Hq. lia.
    + exists r. repeat split; try done; lia.
Qed.

Lemma round_loop_infinite (fuel : nat) : ∀ r c,
  Node.round_loop fuel (S754_infinity false) r c = None.
Proof. induction fuel as [|fuel IH]; intros r c; simpl; [done|]. apply IH. Qed.

Lemma int_lt_bounded (td : PyFloat.float) :
  td ≠ S754_infinity false →
  ∃ n, 1 ≤ n ∧ PyFloat.int_lt (round_end n) td = false.
Proof.
  intros Hinf. destruct td as [s|s| |s m e]; simpl.
  - exists 1. split; [lia|]. reflexivity.
  - destruct s; [|done]. exists 1. split; [lia|]. reflexivity.
  - exists 1. split; [lia|]. reflexivity.
  - destruct s.
    + exists 1. split; [lia|]. change (round_end 1) with 2.
      destruct (0 <=? e) eqn:E; apply Z.ltb_ge.
      * assert (0 < 2 ^ e) by (apply Z.pow_pos_nonneg; lia). nia.
      * assert (0 < 2 ^ (- e)) by (apply Z.pow_pos_nonneg; lia). nia.
    + destruct (0 <=? e) eqn:E.
      * apply Z.leb_le in E.
        assert (0 < 2 ^ e) by (apply Z.pow_pos_nonneg; lia).
        exists (Z.pos m * 2 ^ e). split; [nia|].
        apply Z.ltb_ge. apply round_end_ge. nia.
      * apply Z.leb_gt in E.
        assert (0 < 2 ^ (- e)) by (apply Z.pow_pos_nonneg; lia).
        exists (Z.pos m). split; [lia|]. apply Z.ltb_ge.
        pose proof (round_end_ge (Z.pos m)). nia.
Qed.

(** X10: when the ledger holds the previous slot, [calculate_nomination_round]
    restarts the nomination clock and returns the first round that has not
    ended yet: the least [r] for which the time since the previous slot does
    not exceed [r (r + 3) / 2] seconds.  Its loop ends for every time
    difference but plus infinity, for which it never does. *)
Theorem calculate_nomination_round_least (now : PyFloat.float) (self : Node.t)
    (previous_slot_message : SCPExternalize) :
  0 < Node.slot self →
  Node.ledger self !! (Node.slot self - 1) = Some previous_slot_message →
  let time_diff := PyFloat.sub now (timestamp previous_slot_message) in
  (time_diff ≠ S754_infinity false →
   ∃ fuel r,
     Node.calculate_nomination_round fuel now self
     = Some (self <| Node.last_nomination_start_time := now |>, Some r)
     ∧ 1 ≤ r
     ∧ PyFloat.int_lt (round_end r) time_diff = false
     ∧ ∀ q, 1 ≤ q < r → PyFloat.int_lt (round_end q) time_diff = true)
  ∧ (time_diff = S754_infinity false →
     ∀ fuel, Node.calculate_nomination_round fuel now self = None).
Proof.
  intros Hslot Hledger time_diff.
  unfold Node.calculate_nomination_round.
  rewrite bool_decide_eq_false_2 by lia. rewrite Hledger. fold time_diff.
  split.
  - intros Hfin. destruct (int_lt_bounded time_diff Hfin) as (n & Hn & Hlt).
    destruct (round_loop_least time_diff (Z.to_nat (n - 1)) 1) as (r & Hr & Hl & Hf & Hq).
    { by replace (1 + Z.of_nat (Z.to_nat (n - 1))) with n by lia. }
    exists (S (Z.to_nat (n - 1))), r.
    change (1 + 1) with (round_end 1). rewrite Hl. simpl.
    repeat split; try done. lia.
  - intros -> fuel. by rewrite round_loop_infinite.
Qed.

Lemma calculate_nomination_round_least_witness :
  ∃ fuel r,
    @Node.calculate_nomination_round fuel (half_seconds 11) node_at_slot_2
    = Some (node_at_slot_2 <| Node.last_nomination_start_time := half_seconds 11 |>,
            Some r)
    ∧ 1 ≤ r
    ∧ PyFloat.int_lt (round_end r)
        (PyFloat.sub (half_seconds 11) (timestamp externalize_11)) = false
    ∧ ∀ q, 1 ≤ q < r →
        PyFloat.int_lt (round_end q)
          (PyFloat.sub (half_seconds 11) (timestamp externalize_11)) = true.
Proof.
  apply (calculate_nomination_round_least (half_seconds 11) node_at_slot_2
           externalize_11).
  - simpl. lia.
  - reflexivity.
  - vm_compute. discriminate.
Defined.

(** *** The highest-priority neighbour *)

Lemma max_by_acc {A} (key : A → Z) (xs : list A) : ∀ best,
  let m := foldl (λ best y, if key best <? key y then y else best) best xs in
  m ∈ best :: xs ∧ key best ≤ key m ∧ ∀ y, y ∈ xs → key y ≤ key m.
Proof.
  induction xs as [|x xs IH]; intros best; simpl.
  - repeat split; [by left|lia|]. intros y Hy. by apply elem_of_nil in Hy.
  - destruct (IH (if key best <? key x then x else best)) as (Hin & Hle & Hall).
    repeat split.
    + destruct (key best <? key x); set_solver.
    + destruct (key best <? key x) eqn:E; [apply Z.ltb_lt in E|]; lia.
    + intros y Hy. apply elem_of_cons in Hy as [->|Hy]; [|by apply Hall].
      destruct (key best <? key x) eqn:E; [|apply Z.ltb_ge in E]; lia.
Qed.

Lemma max_by_spec {A} (key : A → Z) (x : A) (xs : list A) :
  max_by key x xs ∈ x :: xs ∧ ∀ y, y ∈ x :: xs → key y ≤ key (max_by key x xs).
Proof.
  destruct (max_by_acc key xs x) as (Hin & Hle & Hall). split; [done|].
  intros y Hy. apply elem_of_cons in Hy as [->|Hy]; [done|by apply Hall].
Qed.

(** X11: [get_highest_priority_neighbor] answers with a node of the set
    that [get_priority_list] returned, after the round was brought up to
    date.  Among the neighbours under another name than the node's own it
    is one of highest priority; the node itself is the answer only when
    every neighbour carries its name. *)
Theorem get_highest_priority_neighbor_highest `{PyHash} `{Environment}
    (now : PyFloat.float) (self after : Node.t) (chosen : NodeRef) :
  Node.get_highest_priority_neighbor now self = Ok (after, Some chosen) →
  ∃ updated neighbors,
    Node.check_update_nomination_round now self = Ok updated
    ∧ Node.get_priority_list updated = Ok (after, neighbors)
    ∧ chosen ∈ neighbors
    ∧ ((∃ q, q ∈ neighbors ∧ node_name q ≠ Node.name after) →
       node_name chosen ≠ Node.name after)
    ∧ ∀ q, q ∈ neighbors →
        node_name q ≠ Node.name after ∨ node_name chosen = Node.name after →
        Node.priority after q ≤ Node.priority after chosen.
Proof.
  unfold Node.get_highest_priority_neighbor. intros Hr.
  destruct (Node.check_update_nomination_round now self) as [updated|e] eqn:E1;
    [|done].
  simpl in Hr.
  destruct (Node.get_priority_list updated) as [[after' neighbors]|e] eqn:E2;
    [|done].
  simpl in Hr.
  exists updated, neighbors. split; [done|].
  destruct neighbors as [|n0 ns] eqn:En; [done|]. rewrite <- En in *.
  set (others := List.filter _ neighbors) in Hr.
  assert (Ho : ∀ q, q ∈ others ↔ q ∈ neighbors ∧ node_name q ≠ Node.name after').
  { intros q. unfold others. rewrite elem_of_List_filter. simpl.
    rewrite negb_true_iff, bool_decide_eq_false. unfold Node.name. naive_solver. }
  assert (Hn : neighbors ≠ []) by (by rewrite En).
  clearbody others. clear En.
  destruct others as [|x xs].
  - destruct neighbors as [|y ys]; [done|].
    injection Hr as <- <-.
    destruct (max_by_spec (Node.priority after') y ys) as [Hin Hmax].
    split; [done|]. split; [done|]. split.
    + intros (q & Hq & Hne). exfalso.
      assert (Hq' : q ∈ []) by (apply Ho; done). by apply elem_of_nil in Hq'.
    + intros q Hq _. by apply Hmax.
  - injection Hr as <- <-.
    destruct (max_by_spec (Node.priority after') x xs) as [Hin Hmax].
    apply Ho in Hin as [Hin Hne].
    split; [done|]. split; [done|]. split; [done|].
    intros q Hq [Hq'|Hq']; [|done]. apply Hmax. by apply Ho.
Qed.

Lemma get_highest_priority_neighbor_highest_witness :
  ∃ after chosen updated neighbors,
    @Node.check_update_nomination_round example_environment (half_seconds 1)
      (Node.set_quorum (Node.__init__ node_A) (peers 2) None None) = Ok updated
    ∧ @Node.get_priority_list example_environment updated = Ok (after, neighbors)
    ∧ chosen ∈ neighbors
    ∧ node_name chosen ≠ Node.name after.
Proof.
  eexists _, _.
  eassert (Hrun : @Node.get_highest_priority_neighbor example_environment
                    (half_seconds 1)
                    (Node.set_quorum (Node.__init__ node_A) (peers 2) None None)
                  = Ok (_, Some _)) by (vm_compute; reflexivity).
  destruct (@get_highest_priority_neighbor_highest example_hash
              example_environment _ _ _ _ Hrun)
    as (updated & neighbors & Hu & Hp & Hin & Hne & _).
  exists updated, neighbors. repeat split; done.
Defined.

Lemma node_set_mem_add n x s :
  Node.node_set_mem n (Node.node_set_add x s)
  = Node.node_set_mem n s || bool_decide (node_name n = node_name x).
Proof.
  unfold Node.node_set_add. destruct (Node.node_set_mem x s) eqn:E.
  - case_bool_decide as En; [|by rewrite orb_false_r].
    rewrite orb_true_r. unfold Node.node_set_mem in *. simpl in *.
    by rewrite En.
  - unfold Node.node_set_mem. rewrite existsb_app. simpl.
    by rewrite orb_false_r.
Qed.

Lemma node_set_mem_foldl n xs : ∀ s,
  Node.node_set_mem n (foldl (λ s x, Node.node_set_add x s) s xs)
  = Node.node_set_mem n s
    || existsb (λ x, bool_decide (node_name n = node_name x)) xs.
Proof.
  induction xs as [|x xs IH]; intros s; simpl; [by rewrite orb_false_r|].
  by rewrite IH, node_set_mem_add, orb_assoc.
Qed.

Lemma node_set_add_keeps x s n : n ∈ s → n ∈ Node.node_set_add x s.
Proof.
  unfold Node.node_set_add. destruct (Node.node_set_mem x s); [done|].
  intros Hn. apply elem_of_app. by left.
Qed.

Lemma add_neighbors_keeps `{Environment} (self : Node.t) ns : ∀ u u' n,
  Node.add_neighbors self u ns = Ok u' → n ∈ u → n ∈ u'.
Proof.
  unfold Node.add_neighbors.
  induction ns as [|x ns IH] using rev_ind; intros u u' n; simpl.
  - by intros [= <-].
  - rewrite foldl_app. simpl.
    destruct (foldl _ (Ok u) ns) as [u1|e] eqn:E; simpl; [|done].
    destruct (Node.is_neighbor self x) as [b|e]; simpl; [|done].
    intros [= <-] Hn. specialize (IH u u1 n E Hn).
    destruct b; [by apply node_set_add_keeps|done].
Qed.

Lemma two_256_exact (g : Z) :
  PyFloat.int_lt g (PyFloat.mul Node.two_256 PyFloat.one) = (g <? 2 ^ 256).
Proof. reflexivity. Qed.

(** X12: [get_priority_list] only adds to the node's priority list: the
    nodes that were in it stay, and every neighbour it returns is in it
    afterwards.  The node itself is among the neighbours whenever its own
    digest is below 2^256. *)
Theorem get_priority_list_grows `{Environment} (self after : Node.t)
    (neighbors : list NodeRef) :
  Node.get_priority_list self = Ok (after, neighbors) →
  (∀ n, Node.node_set_mem n (Node.priority_list self) = true →
        Node.node_set_mem n (Node.priority_list after) = true)
  ∧ (∀ n, n ∈ neighbors →
          Node.node_set_mem n (Node.priority_list after) = true)
  ∧ (Node.Gi self [GInt 1; GInt (Node.nomination_round self);
                   GStr (Node.name self)] < 2 ^ 256 →
     Node.self_ref self ∈ neighbors).
Proof.
  unfold Node.get_priority_list. rewrite two_256_exact. intros E.
  destruct (Node.add_neighbors _ _ _) as [u1|e] eqn:E1 in E; simpl in E;
    [|discriminate].
  destruct (foldl _ _ _) as [u2|e] eqn:E2 in E; simpl in E; [|discriminate].
  injection E as <- <-.
  assert (Hpl : Node.priority_list
                  (self <| Node.priority_list :=
                     foldl (λ s n, Node.node_set_add n s)
                           (Node.priority_list self) u2 |>)
                = foldl (λ s n, Node.node_set_add n s) (Node.priority_list self) u2)
    by (by destruct self).
  rewrite Hpl. split; [|split].
  - intros n Hn. by rewrite node_set_mem_foldl, Hn.
  - intros n Hn. rewrite node_set_mem_foldl. apply orb_true_iff. right.
    apply existsb_exists. exists n. split; [by apply list_elem_of_In|].
    by apply bool_decide_eq_true.
  - intros Hg. apply Z.ltb_lt in Hg. rewrite Hg in E1.
    assert (H1 : Node.self_ref self ∈ u1).
    { eapply add_neighbors_keeps; [exact E1|]. by left. }
    clear E1 Hpl. revert u2 E2.
    induction (QuorumSet.get_inner_sets (Node.quorum_set self))
      as [|x xs IH] using rev_ind; intros u2; simpl.
    + by intros [= <-].
    + rewrite foldl_app. simpl.
      destruct (foldl _ (Ok u1) xs) as [u3|e] eqn:E3; simpl; [|done].
      destruct (Node._flatten_nested x) as [all_nodes|e]; simpl; [|done].
      intros E4. eapply add_neighbors_keeps; [exact E4|]. by apply IH.
Qed.


(** *** Dicts keyed by values *)

Lemma vdict_get_app {V} (d1 d2 : vdict V) k :
  vdict_get (d1 ++ d2) k
  = match vdict_get d1 k with Some v => Some v | None => vdict_get d2 k end.
Proof.
  unfold vdict_get. induction d1 as [|[k' v] d1 IH]; simpl; [done|].
  destruct (Value.__eq__ k' k); simpl; [done|]. apply IH.
Qed.

Lemma vdict_get_alter {V} (f : V → V) k (d : vdict V) k2 :
  vdict_get (vdict_alter f k d) k2
  = if Value.__eq__ k k2 then f <$> vdict_get d k else vdict_get d k2.
Proof.
  induction d as [|[k' v] d IH]; simpl.
  - by destruct (Value.__eq__ k k2).
  - destruct (Value.__eq__ k' k) eqn:E.
    + rewrite <- (Value_eq_left k' k k2) by done.
      unfold vdict_get. simpl. rewrite E.
      destruct (Value.__eq__ k' k2); done.
    + unfold vdict_get in *. simpl. rewrite E.
      destruct (Value.__eq__ k' k2) eqn:E2; simpl; [|exact IH].
      destruct (Value.__eq__ k k2) eqn:E3; [|done].
      rewrite (Value_eq_sym k k2) in E3.
      rewrite (Value_eq_trans k' k2 k) in E by done. done.
Qed.

Lemma vdict_get_record {V} (f : V → V) k (e0 : V) (d : vdict V) k2 :
  vdict_get (vdict_alter f k (vdict_setdefault k e0 d)) k2
  = if Value.__eq__ k k2 then Some (f (default e0 (vdict_get d k)))
    else vdict_get d k2.
Proof.
  rewrite vdict_get_alter. unfold vdict_setdefault, vdict_mem.
  destruct (Value.__eq__ k k2) eqn:E.
  - destruct (vdict_get d k) as [v|] eqn:Ek.
    + rewrite bool_decide_eq_true_2 by eauto. by rewrite Ek.
    + rewrite bool_decide_eq_false_2 by (apply is_Some_None).
      rewrite vdict_get_app, Ek. unfold vdict_get. simpl.
      by rewrite Value_eq_refl.
  - case_bool_decide; [done|]. rewrite vdict_get_app.
    destruct (vdict_get d k2); [done|]. unfold vdict_get. simpl. by rewrite E.
Qed.

(** *** Promotion of ballots *)

(** X14: a ballot that is only voted for reaches "confirmed" in two calls of
    [update_prepare_balloting_state]: the call for "voted" moves the ballot
    stored under the hash of the value to "accepted", the call for
    "accepted" moves it on.  It is the stored ballot that moves, whatever
    the counter of the ballot passed in; the ballots under other hashes and
    the aborted ones stay. *)
Theorem update_prepare_balloting_state_confirms (self : Node.t)
    (ballot stored : SCPBallot) :
  let h := Value.hash (value ballot) in
  let bs := Node.balloting_state self in
  Node.b_voted bs !! h = Some stored →
  Node.b_accepted bs !! h = None →
  Node.b_confirmed bs !! h = None →
  let accepted :=
    Node.balloting_state (Node.update_prepare_balloting_state self ballot "voted") in
  let confirmed :=
    Node.balloting_state
      (Node.update_prepare_balloting_state
         (Node.update_prepare_balloting_state self ballot "voted")
         ballot "accepted") in
  accepted = Node.mkBallotState (delete h (Node.b_voted bs))
               (<[h := stored]> (Node.b_accepted bs))
               (Node.b_confirmed bs) (Node.b_aborted bs)
  ∧ confirmed = Node.mkBallotState (delete h (Node.b_voted bs))
                  (Node.b_accepted bs)
                  (<[h := stored]> (Node.b_confirmed bs)) (Node.b_aborted bs).
Proof.
  intros h bs Hv Ha Hc accepted confirmed.
  assert (Hsize : size (Node.b_voted bs) ≠ 0%nat).
  { intros E. apply map_size_empty_iff in E. by rewrite E in Hv. }
  assert (E1 : Node.update_prepare_balloting_state self ballot "voted"
    = self <| Node.balloting_state :=
         Node.mkBallotState (delete h (Node.b_voted bs))
           (<[h := stored]> (Node.b_accepted bs))
           (Node.b_confirmed bs) (Node.b_aborted bs) |>).
  { unfold Node.update_prepare_balloting_state. simpl. fold bs h.
    rewrite bool_decide_eq_false_2 by done.
    rewrite bool_decide_eq_false_2 by (rewrite Ha; apply is_Some_None).
    by rewrite Hv. }
  subst accepted confirmed. rewrite E1. split; [by destruct self|].
  unfold Node.update_prepare_balloting_state. simpl. fold h.
  rewrite bool_decide_eq_false_2.
  2:{ intros E. apply map_size_empty_iff in E.
      apply (f_equal (λ m, m !! h)) in E. by rewrite lookup_insert_eq in E. }
  rewrite bool_decide_eq_false_2 by (rewrite Hc; apply is_Some_None).
  rewrite lookup_insert_eq. rewrite delete_insert_id by done.
  by destruct self.
Qed.

(** X15: a commit ballot that is only voted for reaches "confirmed" in two
    calls of
    [update_commit_balloting_state]: the call for "voted" moves the ballot
    stored under the hash of the value to "accepted", the call for
    "accepted" moves it on.  It is the stored ballot that moves, whatever
    the counter of the ballot passed in; the ballots under other hashes stay. *)
Theorem update_commit_balloting_state_confirms (self : Node.t)
    (ballot stored : SCPBallot) :
  let h := Value.hash (value ballot) in
  let cs := Node.commit_ballot_state self in
  Node.c_voted cs !! h = Some stored →
  Node.c_accepted cs !! h = None →
  Node.c_confirmed cs !! h = None →
  let accepted :=
    Node.commit_ballot_state (Node.update_commit_balloting_state self ballot "voted") in
  let confirmed :=
    Node.commit_ballot_state
      (Node.update_commit_balloting_state
         (Node.update_commit_balloting_state self ballot "voted")
         ballot "accepted") in
  accepted = Node.mkCommitState (delete h (Node.c_voted cs))
               (<[h := stored]> (Node.c_accepted cs))
               (Node.c_confirmed cs)
  ∧ confirmed = Node.mkCommitState (delete h (Node.c_voted cs))
                  (Node.c_accepted cs)
                  (<[h := stored]> (Node.c_confirmed cs)).
Proof.
  intros h cs Hv Ha Hc accepted confirmed.
  assert (Hsize : size (Node.c_voted cs) ≠ 0%nat).
  { intros E. apply map_size_empty_iff in E. by rewrite E in Hv. }
  assert (E1 : Node.update_commit_balloting_state self ballot "voted"
    = self <| Node.commit_ballot_state :=
         Node.mkCommitState (delete h (Node.c_voted cs))
           (<[h := stored]> (Node.c_accepted cs))
           (Node.c_confirmed cs) |>).
  { unfold Node.update_commit_balloting_state. simpl. fold cs h.
    rewrite bool_decide_eq_false_2 by done.
    rewrite bool_decide_eq_false_2 by (rewrite Ha; apply is_Some_None).
    by rewrite Hv. }
  subst accepted confirmed. rewrite E1. split; [by destruct self|].
  unfold Node.update_commit_balloting_state. simpl. fold h.
  rewrite bool_decide_eq_false_2.
  2:{ intros E. apply map_size_empty_iff in E.
      apply (f_equal (λ m, m !! h)) in E. by rewrite lookup_insert_eq in E. }
  rewrite bool_decide_eq_false_2 by (rewrite Hc; apply is_Some_None).
  rewrite lookup_insert_eq. rewrite delete_insert_id by done.
  by destruct self.
Qed.

Lemma elem_of_to_abort (received_ballot : SCPBallot) (phase : gmap Z SCPBallot) b :
  keyed phase →
  b ∈ Node.to_abort received_ballot phase
  ↔ phase !! Value.hash (value b) = Some b ∧ lower_other received_ballot b.
Proof.
  intros Hk. unfold Node.to_abort, lower_other.
  rewrite elem_of_List_filter, andb_true_iff, negb_true_iff,
    bool_decide_eq_true, bool_decide_eq_false.
  rewrite list_elem_of_fmap. split.
  - intros (([k b'] & -> & Hin) & Hc). split; [|done].
    apply elem_of_map_to_list in Hin. simpl. by rewrite (Hk _ _ Hin).
  - intros (Hin & Hc). split; [|done]. exists (Value.hash (value b), b).
    split; [done|]. by apply elem_of_map_to_list.
Qed.

Lemma NoDup_to_abort (received_ballot : SCPBallot) (phase : gmap Z SCPBallot) :
  keyed phase →
  NoDup ((λ b, Value.hash (value b)) <$> Node.to_abort received_ballot phase).
Proof.
  intros Hk. unfold Node.to_abort.
  pose proof (NoDup_fst_map_to_list phase) as Hnd.
  assert (Hall : ∀ kb, kb ∈ map_to_list phase → Value.hash (value kb.2) = kb.1).
  { intros [k b] Hin. apply elem_of_map_to_list in Hin. by apply Hk. }
  induction (map_to_list phase) as [|[k b] l IH]; simpl in *; [constructor|].
  apply NoDup_cons in Hnd as [Hnin Hnd].
  assert (IH' := IH Hnd (λ kb H, Hall kb (list_elem_of_further _ _ _ H))).
  match goal with |- context [if ?c then _ else _] => destruct c end; [|done].
  simpl. apply NoDup_cons. split; [|done].
  assert (Hkb := Hall (k, b) ltac:(left)). simpl in Hkb. rewrite Hkb.
  intros Hin. apply Hnin.
  apply list_elem_of_fmap in Hin as (b' & Eb' & Hin).
  apply elem_of_List_filter in Hin as [Hin _].
  apply list_elem_of_fmap in Hin as ([k' b''] & Eb'' & Hin). simpl in Eb''.
  apply list_elem_of_fmap. exists (k', b''). split; [|done]. simpl.
  assert (Hkb' := Hall (k', b'') ltac:(by right)). simpl in Hkb'.
  congruence.
Qed.

Lemma for_each_pop (ballots : list SCPBallot) : ∀ phase : gmap Z SCPBallot,
  NoDup ((λ b, Value.hash (value b)) <$> ballots) →
  (∀ b, b ∈ ballots → phase !! Value.hash (value b) = Some b) →
  ∃ phase',
    for_each (λ phase ballot, pop (Value.hash (value ballot)) phase) ballots phase
    = Ok phase'
    ∧ ∀ k, phase' !! k
           = if bool_decide (k ∈ (λ b, Value.hash (value b)) <$> ballots)
             then None else phase !! k.
Proof.
  induction ballots as [|b bs IH]; intros phase Hnd Hall.
  - exists phase. split; [done|]. intros k.
    rewrite bool_decide_eq_false_2; [done|]. apply not_elem_of_nil.
  - simpl in Hnd. apply NoDup_cons in Hnd as [Hnin Hnd].
    assert (Hb : phase !! Value.hash (value b) = Some b) by (apply Hall; left).
    rewrite (for_each_ok _ _ _ _ (delete (Value.hash (value b)) phase))
      by (unfold pop; by rewrite Hb).
    destruct (IH (delete (Value.hash (value b)) phase) Hnd) as (phase' & Hr & Hl).
    { intros b' Hb'. rewrite lookup_delete_ne; [apply Hall; by right|].
      intros E. apply Hnin. rewrite E. apply list_elem_of_fmap. eauto. }
    exists phase'. split; [done|]. intros k. rewrite Hl. simpl.
    destruct (decide (k = Value.hash (value b))) as [->|Hne].
    + rewrite lookup_delete_eq. rewrite (bool_decide_eq_true_2 (_ ∈ _ :: _)) by left.
      by case_bool_decide.
    + rewrite lookup_delete_ne by done.
      destruct (bool_decide (k ∈ (λ b, Value.hash (value b)) <$> bs)) eqn:E.
      * apply bool_decide_eq_true in E.
        rewrite bool_decide_eq_true_2; [done|by right].
      * apply bool_decide_eq_false in E.
        rewrite bool_decide_eq_false_2; [done|].
        intros [?|?]%elem_of_cons; done.
Qed.

Lemma foldl_abort (ballots : list SCPBallot) : ∀ aborted : gmap Z SCPBallot,
  NoDup ((λ b, Value.hash (value b)) <$> ballots) →
  ∀ k,
    foldl (λ aborted ballot, <[Value.hash (value ballot) := ballot]> aborted)
          aborted ballots !! k
    = match List.find (λ b, bool_decide (Value.hash (value b) = k)) ballots with
      | Some b => Some b
      | None => aborted !! k
      end.
Proof.
  induction ballots as [|b bs IH]; intros aborted Hnd k; simpl; [done|].
  apply NoDup_cons in Hnd as [Hnin Hnd]. rewrite IH by done.
  case_bool_decide as E.
  - subst k. destruct (List.find _ bs) as [b'|] eqn:F.
    + apply find_some in F as [Hin E]. apply bool_decide_eq_true in E.
      exfalso. apply Hnin. rewrite <- E. apply list_elem_of_fmap.
      exists b'. split; [done|]. by apply list_elem_of_In.
    + by rewrite lookup_insert_eq.
  - destruct (List.find _ bs); [done|]. by rewrite lookup_insert_ne.
Qed.

Lemma abort_phase_keyed (received_ballot : SCPBallot)
    (aborted phase : gmap Z SCPBallot) :
  keyed phase →
  ∃ aborted' phase',
    Node.abort_phase received_ballot aborted phase = Ok (aborted', phase')
    ∧ (∀ k b, phase' !! k = Some b
              ↔ phase !! k = Some b ∧ ¬ lower_other received_ballot b)
    ∧ (∀ k, aborted' !! k
            = match phase !! k with
              | Some b => if decide (lower_other received_ballot b)
                          then Some b else aborted !! k
              | None => aborted !! k
              end).
Proof.
  intros Hk. unfold Node.abort_phase.
  pose proof (NoDup_to_abort received_ballot phase Hk) as Hnd.
  pose proof (elem_of_to_abort received_ballot phase) as Hin.
  destruct (for_each_pop (Node.to_abort received_ballot phase) phase Hnd)
    as (phase' & Hr & Hl).
  { intros b Hb. by apply Hin in Hb as [Hb _]. }
  rewrite Hr. simpl. eexists _, phase'. split; [done|]. split.
  - intros k b. rewrite Hl. case_bool_decide as E.
    + apply list_elem_of_fmap in E as (b' & -> & Hb').
      apply Hin in Hb' as [Hb' Hlo]; [|done]. split; [done|].
      intros [Hb Hn]. rewrite Hb' in Hb. injection Hb as ->. done.
    + split.
      * intros Hb. split; [done|]. intros Hlo. apply E.
        apply list_elem_of_fmap. exists b. rewrite (Hk _ _ Hb). split; [done|].
        apply Hin; [done|]. by rewrite (Hk _ _ Hb).
      * by intros [Hb _].
  - intros k. rewrite foldl_abort by done.
    destruct (List.find _ _) as [b|] eqn:F.
    + apply find_some in F as [Hb E]. apply bool_decide_eq_true in E. subst k.
      apply list_elem_of_In, Hin in Hb as [Hb Hlo]; [|done]. rewrite Hb.
      by rewrite decide_True.
    + destruct (phase !! k) as [b|] eqn:Hb; [|done].
      destruct (decide (lower_other received_ballot b)) as [Hlo|]; [|done].
      exfalso. eapply find_none in F.
      2:{ apply list_elem_of_In, Hin; [done|]. by rewrite (Hk _ _ Hb). }
      simpl in F. apply bool_decide_eq_false in F. by apply F, Hk.
Qed.


Lemma keyed_insert (phase : gmap Z SCPBallot) (b : SCPBallot) :
  keyed phase → keyed (<[Value.hash (value b) := b]> phase).
Proof.
  intros Hk k b'. destruct (decide (k = Value.hash (value b))) as [->|Hne].
  - rewrite lookup_insert_eq. by intros [= <-].
  - rewrite lookup_insert_ne by done. apply Hk.
Qed.

Lemma abort_phase_keeps_keys (received_ballot : SCPBallot)
    (aborted phase aborted' phase' : gmap Z SCPBallot) :
  keyed phase →
  Node.abort_phase received_ballot aborted phase = Ok (aborted', phase') →
  keyed phase' ∧ (keyed aborted → keyed aborted').
Proof.
  intros Hk Hr.
  destruct (abort_phase_keyed received_ballot aborted phase Hk)
    as (a & p & E & Hp & Ha).
  rewrite E in Hr. injection Hr as <- <-. split.
  - intros k b Hb. apply Hp in Hb as [Hb _]. by apply Hk.
  - intros Hka k b. rewrite Ha.
    destruct (phase !! k) as [b1|] eqn:E1; [|apply Hka].
    destruct (decide _); [|apply Hka]. intros [= <-]. by apply Hk.
Qed.

Lemma get_set_ballots (self : Node.t) (bs : Node.balloting_state_t)
    (c : vdict BallotEntry) :
  Node.balloting_state
    (self <| Node.balloting_state := bs |> <| Node.ballot_statement_counter := c |>)
  = bs
  ∧ Node.ballot_statement_counter
      (self <| Node.balloting_state := bs |>
            <| Node.ballot_statement_counter := c |>) = c
  ∧ Node.balloting_state (self <| Node.ballot_statement_counter := c |>)
    = Node.balloting_state self
  ∧ Node.ballot_statement_counter (self <| Node.ballot_statement_counter := c |>)
    = c.
Proof. by destruct self. Qed.

Lemma record_voted_accepted_recorded sender v ctr :
  sender_recorded sender v (Node.record_voted_accepted sender v ctr).
Proof.
  unfold sender_recorded, Node.record_voted_accepted.
  rewrite vdict_get_record, Value_eq_refl. eexists. split; [done|].
  left. simpl. set_solver.
Qed.

Lemma record_aborted_recorded sender v ctr :
  sender_recorded sender v (Node.record_aborted sender v ctr).
Proof.
  unfold sender_recorded, Node.record_aborted.
  rewrite vdict_get_record, Value_eq_refl. eexists. split; [done|].
  right. simpl. set_solver.
Qed.

(** X17: when every ballot of the balloting state is stored under the hash of
    its value, [process_prepare_ballot_message] returns and the state it
    leaves is stored that way too; "confirmed" is untouched.  The message
    is passed over, with nothing changed and the sender not recorded, when
    the node holds a voted ballot under the hash of the received value
    whose counter is the received one, or is below it while its value is
    not equal to the received one.  In every other case the sender is
    recorded for the received value: as having voted and accepted, or as
    having aborted and not voted. *)
Theorem process_prepare_ballot_message_keeps_keys (self : Node.t)
    (message : SCPPrepare) (sender : NodeRef) :
  let bs := Node.balloting_state self in
  keyed (Node.b_voted bs) →
  keyed (Node.b_accepted bs) →
  keyed (Node.b_aborted bs) →
  ∃ after,
    Node.process_prepare_ballot_message self message sender = Ok after
    ∧ keyed (Node.b_voted (Node.balloting_state after))
    ∧ keyed (Node.b_accepted (Node.balloting_state after))
    ∧ keyed (Node.b_aborted (Node.balloting_state after))
    ∧ Node.b_confirmed (Node.balloting_state after) = Node.b_confirmed bs
    ∧ (prepare_ballot_ignored self (prep_ballot message) → after = self)
    ∧ (¬ prepare_ballot_ignored self (prep_ballot message) →
       sender_recorded sender (value (prep_ballot message))
         (Node.ballot_statement_counter after)).
Proof.
  intros bs Hv Ha Hab. unfold Node.process_prepare_ballot_message. fold bs.
  set (received := prep_ballot message). set (h := Value.hash (value received)).
  destruct (Node.b_voted bs !! h) as [stored|] eqn:Hs.
  - destruct (Value.__eq__ (value received) (value stored)
              && bool_decide (counter stored < counter received)) eqn:E1.
    + eexists. split; [done|].
      destruct (get_set_ballots self
        (Node.mkBallotState (<[h := received]> (Node.b_voted bs))
           (Node.b_accepted bs) (Node.b_confirmed bs) (Node.b_aborted bs))
        (Node.record_voted_accepted sender (value received)
           (Node.ballot_statement_counter self))) as (-> & -> & _).
      simpl. split; [exact (keyed_insert _ _ Hv)|].
      split; [exact Ha|]. split; [exact Hab|]. split; [done|].
      split; [|intros _; apply record_voted_accepted_recorded].
      intros (st & Hst & Hle & Hor). exfalso.
      assert (Some st = Some stored) as [= ->] by (rewrite <- Hst; exact Hs).
      apply andb_true_iff in E1 as [Eq Hlt]. apply bool_decide_eq_true in Hlt.
      destruct Hor; [lia|congruence].
    + destruct (bool_decide (counter received < counter stored)) eqn:E2;
        [apply bool_decide_eq_true in E2|apply bool_decide_eq_false in E2].
      * eexists. split; [done|].
        destruct (get_set_ballots self bs
          (Node.record_voted_accepted sender (value received)
             (Node.ballot_statement_counter self))) as (_ & _ & -> & ->).
        split; [exact Hv|]. split; [exact Ha|]. split; [exact Hab|].
        split; [done|].
        split; [|intros _; apply record_voted_accepted_recorded].
        intros (st & Hst & Hle & Hor). exfalso.
        assert (Some st = Some stored) as [= ->] by (rewrite <- Hst; exact Hs).
        lia.
      * exists self. split; [done|].
        split; [exact Hv|]. split; [exact Ha|]. split; [exact Hab|].
        split; [done|]. split; [done|].
        intros Hni. exfalso. apply Hni. exists stored. split; [exact Hs|].
        split; [lia|].
        apply andb_false_iff in E1 as [E1|E1]; [by right|left].
        apply bool_decide_eq_false in E1. lia.
  - destruct (existsb _ _) eqn:E1.
    + unfold Node.abort_ballots. fold bs.
      destruct (abort_phase_keyed received (Node.b_aborted bs)
                  (Node.b_voted bs) Hv) as (ab1 & voted' & E2 & _).
      pose proof (abort_phase_keeps_keys _ _ _ _ _ Hv E2) as [Hv' Hab1].
      rewrite E2. simpl.
      destruct (abort_phase_keyed received ab1
                  (Node.b_accepted bs) Ha) as (ab2 & accepted' & E3 & _).
      pose proof (abort_phase_keeps_keys _ _ _ _ _ Ha E3) as [Ha' Hab2].
      rewrite E3. simpl.
      eexists. split; [done|].
      assert (G : ∀ (s : Node.t) bs1 bs2 c,
        Node.balloting_state (s <| Node.balloting_state := bs1 |>
                                <| Node.balloting_state := bs2 |>
                                <| Node.ballot_statement_counter := c |>) = bs2
        ∧ Node.ballot_statement_counter
            (s <| Node.balloting_state := bs1 |>
               <| Node.balloting_state := bs2 |>
               <| Node.ballot_statement_counter := c |>) = c)
        by (by intros []).
      match goal with
      | |- context [Node.balloting_state (?s <| Node.balloting_state := ?b1 |>
                      <| Node.balloting_state := ?b2 |>
                      <| Node.ballot_statement_counter := ?c |>)] =>
          destruct (G s b1 b2 c) as [-> ->]
      end.
      simpl.
      split; [exact (keyed_insert _ _ Hv')|].
      split; [exact Ha'|]. split; [exact (Hab2 (Hab1 Hab))|]. split; [done|].
      split; [|intros _; apply record_voted_accepted_recorded].
      intros (st & Hst & _). exfalso.
      assert (Some st = None) by (rewrite <- Hst; exact Hs). discriminate.
    + eexists. split; [done|].
      destruct (get_set_ballots self
        (Node.mkBallotState (Node.b_voted bs) (Node.b_accepted bs)
           (Node.b_confirmed bs) (<[h := received]> (Node.b_aborted bs)))
        (Node.record_aborted sender (value received)
           (Node.ballot_statement_counter self))) as (-> & -> & _).
      simpl. split; [exact Hv|]. split; [exact Ha|].
      split; [exact (keyed_insert _ _ Hab)|]. split; [done|].
      split; [|intros _; apply record_aborted_recorded].
      intros (st & Hst & _). exfalso.
      assert (Some st = None) by (rewrite <- Hst; exact Hs). discriminate.
Qed.

Lemma vdict_get_eq {V} (d : vdict V) k k2 :
  Value.__eq__ k k2 = true → vdict_get d k = vdict_get d k2.
Proof.
  intros E. unfold vdict_get. induction d as [|[k' v] d IH]; simpl; [done|].
  rewrite (Value_eq_sym k' k), (Value_eq_sym k' k2), (Value_eq_left k k2 k') by done.
  destruct (Value.__eq__ k2 k'); [done|exact IH].
Qed.

Lemma vdict_alter_idemp {V} (f : V → V) k (d : vdict V) :
  (∀ v, f (f v) = f v) → vdict_alter f k (vdict_alter f k d) = vdict_alter f k d.
Proof.
  intros Hf. induction d as [|[k' v] d IH]; simpl; [done|].
  destruct (Value.__eq__ k' k) eqn:E; simpl; rewrite E; [by rewrite Hf|].
  by rewrite IH.
Qed.

Lemma length_filter_mono {A} (p q : A → bool) (xs : list A) :
  (∀ x, p x = true → q x = true) →
  (length (List.filter p xs) ≤ length (List.filter q xs))%nat.
Proof.
  intros Hpq. induction xs as [|x xs IH]; simpl; [done|].
  destruct (p x) eqn:E.
  - rewrite (Hpq x E). simpl. lia.
  - destruct (q x); simpl; lia.
Qed.

(** X18: [simple_process_commit_ballot_message] records the sender as having
    voted for the received value and makes sure a ballot is stored under
    the hash of that value, keeping the one that was there.  Handling the
    same message again changes nothing, and a commit quorum that was met
    before the message is met after it. *)
Theorem simple_process_commit_ballot_message_records (self : Node.t)
    (message : SCPCommit) (sender : NodeRef) :
  let received := commit_ballot message in
  let h := Value.hash (value received) in
  let after := Node.simple_process_commit_ballot_message self message sender in
  Node.c_voted (Node.commit_ballot_state after) !! h
  = Some (default received (Node.c_voted (Node.commit_ballot_state self) !! h))
  ∧ (∃ entry,
       vdict_get (Node.commit_ballot_statement_counter after) (value received)
       = Some entry
       ∧ node_name sender ∈ be_voted entry)
  ∧ Node.simple_process_commit_ballot_message after message sender = after
  ∧ ∀ ballot,
      Node.check_Commit_Quorum_threshold self ballot = Ok true →
      Node.check_Commit_Quorum_threshold after ballot = Ok true.
Proof.
  intros received h after.
  set (f := λ e, mkBallotEntry ({[ node_name sender ]} ∪ be_voted e)
                   (be_accepted e) (be_confirmed e) (be_aborted e)).
  set (voted' := match Node.c_voted (Node.commit_ballot_state self) !! h with
                 | Some _ => Node.c_voted (Node.commit_ballot_state self)
                 | None => <[h := received]>
                             (Node.c_voted (Node.commit_ballot_state self))
                 end).
  set (ctr' := vdict_alter f (value received)
                 (vdict_setdefault (value received) Node.empty_entry
                    (Node.commit_ballot_statement_counter self))).
  assert (Hafter : after
    = self <| Node.commit_ballot_state :=
                Node.mkCommitState voted'
                  (Node.c_accepted (Node.commit_ballot_state self))
                  (Node.c_confirmed (Node.commit_ballot_state self)) |>
           <| Node.commit_ballot_statement_counter := ctr' |>) by done.
  assert (Hcs : Node.commit_ballot_state after
    = Node.mkCommitState voted'
        (Node.c_accepted (Node.commit_ballot_state self))
        (Node.c_confirmed (Node.commit_ballot_state self))
    ∧ Node.commit_ballot_statement_counter after = ctr'
    ∧ Node.quorum_set after = Node.quorum_set self
    ∧ Node.self_ref after = Node.self_ref self)
    by (rewrite Hafter; by destruct self).
  destruct Hcs as (Hcs & Hctr & Hq & Href).
  assert (Hv : voted' !! h
    = Some (default received (Node.c_voted (Node.commit_ballot_state self) !! h))).
  { unfold voted'.
    destruct (Node.c_voted (Node.commit_ballot_state self) !! h) eqn:E; simpl;
      [done|by rewrite lookup_insert_eq]. }
  assert (Hget : ∀ v, vdict_get ctr' v
    = if Value.__eq__ (value received) v
      then Some (f (default Node.empty_entry
                      (vdict_get (Node.commit_ballot_statement_counter self) v)))
      else vdict_get (Node.commit_ballot_statement_counter self) v).
  { intros v. unfold ctr'. rewrite vdict_get_record.
    destruct (Value.__eq__ (value received) v) eqn:E; [|done].
    by rewrite (vdict_get_eq _ _ _ E). }
  split; [by rewrite Hcs|]. split.
  { rewrite Hctr, Hget, Value_eq_refl. eexists. split; [done|]. simpl. set_solver. }
  split.
  { unfold Node.simple_process_commit_ballot_message at 1.
    fold received h. rewrite Hcs, Hctr. simpl. rewrite Hv.
    assert (E : vdict_setdefault (value received) Node.empty_entry ctr' = ctr').
    { unfold vdict_setdefault, vdict_mem.
      rewrite bool_decide_eq_true_2; [done|].
      rewrite Hget, Value_eq_refl. eauto. }
    rewrite E. unfold ctr' at 1. fold f. rewrite vdict_alter_idemp.
    - fold ctr'. rewrite Hafter. by destruct self.
    - intros [v a c b]. unfold f. simpl. f_equal. set_solver. }
  intros ballot. unfold Node.check_Commit_Quorum_threshold.
  rewrite Hcs, Hctr, Hq, Href. simpl.
  set (hb := Value.hash (value ballot)).
  destruct (negb (bool_decide (is_Some
              (Node.c_voted (Node.commit_ballot_state self) !! hb))) && _) eqn:G;
    [done|].
  assert (G' : negb (bool_decide (is_Some (voted' !! hb)))
               && negb (bool_decide (is_Some
                    (Node.c_accepted (Node.commit_ballot_state self) !! hb)))
               = false).
  { apply andb_false_iff in G as [G|G]; [|by rewrite G, andb_false_r].
    apply negb_false_iff, bool_decide_eq_true in G.
    rewrite bool_decide_eq_true_2; [done|]. unfold voted'.
    destruct (Node.c_voted (Node.commit_ballot_state self) !! h); [done|].
    destruct (decide (hb = h)) as [->|]; [rewrite lookup_insert_eq; eauto|].
    by rewrite lookup_insert_ne. }
  rewrite G'.
  destruct (QuorumSet.minimum_quorum (Node.quorum_set self)) as [needed|e];
    simpl; [|done].
  rewrite !count_foldl. intros [= Hle]. f_equal.
  apply bool_decide_eq_true in Hle. apply bool_decide_eq_true_2.
  etrans; [exact Hle|]. apply Z.add_le_mono_l, inj_le, length_filter_mono.
  intros x. rewrite Hget.
  destruct (Value.__eq__ (value received) (value ballot)); [|done].
  simpl. rewrite !orb_true_iff, !bool_decide_eq_true.
  destruct (vdict_get _ _); simpl; set_solver.
Qed.

(** *** The mempool *)






(** *** The finalised transactions *)

Lemma collect_step_spec (s : Node.t) (ext_msg : SCPExternalize) :
  let b := ext_ballot ext_msg in
  let key := (counter b, value b) in
  let s' :=
    if existsb (λ k, bool_decide (fst k = fst key)
                      && Value.__eq__ (snd k) (snd key))
               (Node._seen_finalised_ballots s)
    then s
    else
      s <| Node._seen_finalised_ballots := Node._seen_finalised_ballots s ++ [key] |>
        <| Node.finalised_transactions :=
             Node.finalised_transactions s
             ∪ list_to_set (tx_hash <$> Value.transactions (value b)) |> in
  (seen_covered s → seen_covered s')
  ∧ Node.finalised_transactions s ⊆ Node.finalised_transactions s'
  ∧ (∀ k, k ∈ Node._seen_finalised_ballots s → k ∈ Node._seen_finalised_ballots s')
  ∧ existsb (λ k, bool_decide (fst k = fst key)
                   && Value.__eq__ (snd k) (snd key))
            (Node._seen_finalised_ballots s') = true
  ∧ standing s' = standing s.
Proof.
  intros b key s'. subst s'. destruct (existsb _ _) eqn:E.
  - repeat split; done.
  - destruct s; unfold seen_covered; simpl in *. split; [|split; [|split; [|split]]].
    + intros Hc k tx [Hk|Hk]%elem_of_app Htx.
      * apply elem_of_union_l. by eapply Hc.
      * apply list_elem_of_singleton in Hk as ->. simpl in Htx.
        apply elem_of_union_r, elem_of_list_to_set, list_elem_of_fmap. eauto.
    + set_solver.
    + intros k Hk. apply elem_of_app. by left.
    + rewrite existsb_app. simpl.
      rewrite bool_decide_eq_true_2, Value_eq_refl by done.
      by rewrite orb_true_r.
    + done.
Qed.

(** X20: unless the node is at slot 1, where it does nothing,
    [collect_finalised_transactions] leaves among the finalised
    transactions the hash of every transaction of every externalize
    message the node holds.  It takes no hash away, and a second call
    changes nothing. *)
Theorem collect_finalised_transactions_covers (self : Node.t) :
  seen_covered self →
  let after := Node.collect_finalised_transactions self in
  (Node.slot self = 1 → after = self)
  ∧ (Node.slot self ≠ 1 →
     ∀ ext_msg tx,
       ext_msg ∈ Node.externalized_slot_counter self →
       tx ∈ Value.transactions (value (ext_ballot ext_msg)) →
       tx_hash tx ∈ Node.finalised_transactions after)
  ∧ Node.finalised_transactions self ⊆ Node.finalised_transactions after
  ∧ seen_covered after
  ∧ Node.collect_finalised_transactions after = after.
Proof.
  intros Hc after. subst after. unfold Node.collect_finalised_transactions.
  destruct (Node.slot self =? 1) eqn:Hslot.
  { apply Z.eqb_eq in Hslot. rewrite Hslot. simpl.
    repeat split; try done. }
  apply Z.eqb_neq in Hslot.
  set (step := λ (self : Node.t) (ext_msg : SCPExternalize), _).
  set (seen_key := λ (s : Node.t) (m : SCPExternalize),
         existsb (λ k, bool_decide (k.1 = counter (ext_ballot m))
                       && Value.__eq__ k.2 (value (ext_ballot m)))
                 (Node._seen_finalised_ballots s)).
  assert (Hstep : ∀ s m,
    (seen_covered s → seen_covered (step s m))
    ∧ Node.finalised_transactions s ⊆ Node.finalised_transactions (step s m)
    ∧ (∀ k, k ∈ Node._seen_finalised_ballots s
            → k ∈ Node._seen_finalised_ballots (step s m))
    ∧ seen_key (step s m) m = true
    ∧ standing (step s m) = standing s)
    by (intros s m; apply (collect_step_spec s m)).
  assert (Hmono : ∀ s s' m,
    (∀ k, k ∈ Node._seen_finalised_ballots s → k ∈ Node._seen_finalised_ballots s')
    → seen_key s m = true → seen_key s' m = true).
  { intros s s' m Hsub. unfold seen_key. rewrite !existsb_exists.
    intros (k & Hk & Hb). exists k. split; [|done].
    apply list_elem_of_In, Hsub, list_elem_of_In, Hk. }
  assert (Hfold : ∀ msgs s,
    let s' := foldl step s msgs in
    (seen_covered s → seen_covered s')
    ∧ Node.finalised_transactions s ⊆ Node.finalised_transactions s'
    ∧ (∀ k, k ∈ Node._seen_finalised_ballots s
            → k ∈ Node._seen_finalised_ballots s')
    ∧ (∀ m, m ∈ msgs → seen_key s' m = true)
    ∧ standing s' = standing s).
  { induction msgs as [|m msgs IH]; intros s; simpl.
    - repeat split; try done. intros m Hm. by apply elem_of_nil in Hm.
    - destruct (Hstep s m) as (S1 & S2 & S3 & S4 & S5).
      destruct (IH (step s m)) as (I1 & I2 & I3 & I4 & I5).
      split; [auto|]. split; [set_solver|]. split; [auto|]. split; [|congruence].
      intros m' [->|Hm']%elem_of_cons; [|by apply I4].
      by eapply Hmono. }
  assert (Hid : ∀ msgs s, (∀ m, m ∈ msgs → seen_key s m = true) →
                          foldl step s msgs = s).
  { induction msgs as [|m msgs IH]; intros s Hall; simpl; [done|].
    assert (E : step s m = s).
    { unfold step. specialize (Hall m ltac:(left)). unfold seen_key in Hall.
      simpl. by rewrite Hall. }
    rewrite E. apply IH. intros m' Hm'. apply Hall. by right. }
  destruct (Hfold (Node.externalized_slot_counter self) self)
    as (F1 & F2 & F3 & F4 & F5).
  set (after := foldl step self (Node.externalized_slot_counter self)) in *.
  split; [done|]. split; [|split; [done|split; [auto|]]].
  - intros _ m tx Hm Htx. specialize (F4 m Hm). unfold seen_key in F4.
    apply existsb_exists in F4 as (k & Hk & Hb).
    apply andb_true_iff in Hb as [_ Hb].
    apply Value_eq_spec in Hb as (_ & _ & Hb).
    apply (F1 Hc k tx); [by apply list_elem_of_In|].
    by apply (proj1 (tx_set_spec _ _) Hb).
  - assert (Hs : Node.slot after = Node.slot self
              ∧ Node.externalized_slot_counter after
                = Node.externalized_slot_counter self).
    { unfold standing in F5. by injection F5 as -> _ _ _ _ _ -> _. }
    destruct Hs as [-> ->].
    rewrite (proj2 (Z.eqb_neq _ _) Hslot). by apply Hid.
Qed.

Lemma externalized_after_append (after : Node.t) (held : list SCPExternalize)
    (message : SCPExternalize) tx :
  Node.externalized_slot_counter after = held ++ [message] →
  tx ∈ Value.transactions (value (ext_ballot message)) →
  Node.is_transaction_in_externalized_slots after (tx_hash tx) = true.
Proof.
  intros E Htx. unfold Node.is_transaction_in_externalized_slots.
  rewrite E, existsb_app. simpl. apply orb_true_iff. right.
  rewrite orb_false_r. apply existsb_exists. exists tx.
  split; [by apply list_elem_of_In|]. by apply bool_decide_eq_true.
Qed.

Lemma remove_txs_from_mempool_returns `{Environment} (self : Node.t)
    (v : Value.t) (pool : list Transaction) :
  Node.mempool self = Some pool →
  ∃ seen fin pool',
    Node.remove_txs_from_mempool self v
    = Node.Returned (self <| Node._seen_finalised_ballots := seen |>
                          <| Node.finalised_transactions := fin |>
                          <| Node.mempool := Some pool' |>).
Proof.
  intros Hpool. unfold Node.remove_txs_from_mempool.
  destruct (collect_finalised_transactions_frame self) as (seen & fin & ->).
  set (s := self <| Node._seen_finalised_ballots := seen |>
                 <| Node.finalised_transactions := fin |>).
  assert (Hm : Node.mempool s = Some pool)
    by (subst s; destruct self; simpl in *; done).
  rewrite Hm. do 3 eexists. subst s. by destruct self.
Qed.

Lemma remove_txs_from_mempool_raises `{Environment} (self : Node.t) (v : Value.t) :
  Node.mempool self = None →
  Value.transactions v ≠ [] →
  ∃ seen fin,
    Node.remove_txs_from_mempool self v
    = Node.Raised AttributeError
        (self <| Node._seen_finalised_ballots := seen |>
              <| Node.finalised_transactions := fin |>).
Proof.
  intros Hpool Hne. unfold Node.remove_txs_from_mempool.
  destruct (collect_finalised_transactions_frame self) as (seen & fin & ->).
  set (s := self <| Node._seen_finalised_ballots := seen |>
                 <| Node.finalised_transactions := fin |>).
  assert (Hm : Node.mempool s = None)
    by (subst s; destruct self; simpl in *; done).
  rewrite Hm. exists seen, fin.
  destruct (elements _), (Value.transactions v); done.
Qed.

(** X21: with a confirmed commit ballot and no record of the current slot
    in the ledger, [prepare_Externalize_msg] on a node with a mempool
    returns and moves the node to the next slot: the ballot drawn is
    written to the ledger at the current slot and added to the externalize
    records with the current time, the nomination state, the priority list
    and the round are reset, the nomination clock restarts, and every
    transaction of the ballot is from then on reported by
    [is_transaction_in_externalized_slots].  On a node without a mempool,
    for a ballot with a transaction, [AttributeError] leaves the method
    after the ledger was written and before the slot is advanced.  Without
    a confirmed commit ballot nothing changes. *)
Theorem prepare_Externalize_msg_advances `{Environment} (now : PyFloat.float)
    (draw : nat) (self : Node.t) :
  (Node.c_confirmed (Node.commit_ballot_state self) = ∅ →
   Node.prepare_Externalize_msg now draw self = Node.Returned self)
  ∧ ∀ finalised_ballot,
      Node.retrieve_confirmed_commit_ballot self draw = Some finalised_ballot →
      Node.ledger self !! Node.slot self = None →
      let externalize_msg :=
        mkExternalize finalised_ballot (counter finalised_ballot) now in
      (∀ pool,
         Node.mempool self = Some pool →
         ∃ after,
           Node.prepare_Externalize_msg now draw self = Node.Returned after
           ∧ standing after
             = (Node.slot self + 1, 1, Node.mkNomState [] [] [], [], now,
                <[Node.slot self := externalize_msg]> (Node.ledger self),
                Node.externalized_slot_counter self ++ [externalize_msg],
                Node.externalize_broadcast_flags self
                ++ [(Node.slot self, externalize_msg)])
           ∧ ∀ tx, tx ∈ Value.transactions (value finalised_ballot) →
                   Node.is_transaction_in_externalized_slots after (tx_hash tx)
                   = true)
      ∧ (Node.mempool self = None →
         Value.transactions (value finalised_ballot) ≠ [] →
         ∃ after,
           Node.prepare_Externalize_msg now draw self
           = Node.Raised AttributeError after
           ∧ Node.slot after = Node.slot self
           ∧ Node.ledger after
             = <[Node.slot self := externalize_msg]> (Node.ledger self)).
Proof.
  split.
  - intros E. unfold Node.prepare_Externalize_msg.
    by rewrite bool_decide_eq_true_2 by (by rewrite E).
  - intros b Hb Hfree msg.
    assert (Hsize : size (Node.c_confirmed (Node.commit_ballot_state self)) ≠ 0%nat)
      by (by eapply retrieve_confirmed_commit_ballot_nonempty).
    split.
    + intros pool Hpool. unfold Node.prepare_Externalize_msg.
      rewrite bool_decide_eq_false_2 by done. rewrite Hb. cbv zeta.
      match goal with
      | |- context [Node.remove_txs_from_mempool ?s ?v] =>
          destruct (remove_txs_from_mempool_returns s v pool)
            as (seen & fin & pool' & ->); [by destruct self|]
      end.
      eexists. split; [reflexivity|].
      split.
      { unfold add_slot. destruct self; simpl in *. by rewrite Hfree. }
      intros tx Htx.
      apply (externalized_after_append _ (Node.externalized_slot_counter self) msg);
        [|done].
      by destruct self.
    + intros Hpool Hne. unfold Node.prepare_Externalize_msg.
      rewrite bool_decide_eq_false_2 by done. rewrite Hb. cbv zeta.
      match goal with
      | |- context [Node.remove_txs_from_mempool ?s ?v] =>
          destruct (remove_txs_from_mempool_raises s v)
            as (seen & fin & ->); [by destruct self|done|]
      end.
      eexists. split; [reflexivity|]. unfold add_slot.
      destruct self; simpl in *. by rewrite Hfree.
Qed.

(** X22: an Externalize message for the node's current slot, which the
    ledger does not hold yet, is adopted by [process_externalize_msg]: on a
    node with a mempool the method returns, the message is written to the
    ledger at that slot and added to the externalize records, the node
    moves to the next slot with an empty nomination state at round 1 and a
    restarted nomination clock, the sender is on record with the message,
    and every transaction of the message is from then on reported by
    [is_transaction_in_externalized_slots].  The priority list is kept.  On
    a node without a mempool, for a message with a transaction,
    [AttributeError] leaves the method after the ledger was written and
    before the slot is advanced. *)
Theorem process_externalize_msg_adopts `{Environment} (now : PyFloat.float)
    (self : Node.t) (slot_number : Z) (message : SCPExternalize)
    (sending_node : NodeRef) :
  Node.ledger self !! slot_number = None →
  slot_number = Node.slot self →
  let run :=
    Node.process_externalize_msg now self slot_number message sending_node in
  (∀ pool,
     Node.mempool self = Some pool →
     ∃ after,
       run = Node.Returned after
       ∧ standing after
         = (Node.slot self + 1, 1, Node.mkNomState [] [] [],
            Node.priority_list self, now,
            <[slot_number := message]> (Node.ledger self),
            Node.externalized_slot_counter self ++ [message],
            Node.externalize_broadcast_flags self ++ [(slot_number, message)])
       ∧ (∃ statements,
            Node.peer_externalised_statements after !! node_name sending_node
            = Some statements
            ∧ (slot_number, message) ∈ statements)
       ∧ ∀ tx, tx ∈ Value.transactions (value (ext_ballot message)) →
               Node.is_transaction_in_externalized_slots after (tx_hash tx)
               = true)
  ∧ (Node.mempool self = None →
     Value.transactions (value (ext_ballot message)) ≠ [] →
     ∃ after,
       run = Node.Raised AttributeError after
       ∧ Node.slot after = Node.slot self
       ∧ Node.ledger after = <[slot_number := message]> (Node.ledger self)).
Proof.
  intros Hledger Hslot run. subst run. unfold Node.process_externalize_msg.
  rewrite bool_decide_eq_false_2 by (rewrite Hledger; by inversion 1).
  rewrite bool_decide_eq_false_2 by (by intros ?).
  cbv zeta. split.
  - intros pool Hpool.
    match goal with
    | |- context [Node.remove_txs_from_mempool ?s ?v] =>
        destruct (remove_txs_from_mempool_returns s v pool)
          as (seen & fin & pool' & ->); [by destruct self|]
    end.
    eexists. split; [reflexivity|].
    split; [|split].
    + unfold add_slot. destruct self; simpl in *. by rewrite Hledger.
    + exists (default [] (Node.peer_externalised_statements self
                          !! node_name sending_node)
              ++ [(slot_number, message)]).
      split; [|apply elem_of_app; right; by left].
      destruct self; simpl. by rewrite lookup_insert_eq.
    + intros tx Htx.
      apply (externalized_after_append _ (Node.externalized_slot_counter self)
               message); [|done].
      by destruct self.
  - intros Hpool Hne.
    match goal with
    | |- context [Node.remove_txs_from_mempool ?s ?v] =>
        destruct (remove_txs_from_mempool_raises s v)
          as (seen & fin & ->); [by destruct self|done|]
    end.
    eexists. split; [reflexivity|]. unfold add_slot.
    destruct self; simpl in *. by rewrite Hledger.
Qed.

(** X23: [is_message_externalized] answers True exactly when a voted or an
    accepted value of the message shares a transaction with the value of an
    externalize message the node holds; the confirmed values of the
    message are not looked at. *)
Theorem is_message_externalized_shares (self : Node.t) (message : SCPNominate) :
  Node.is_message_externalized self message = true
  ↔ ∃ v ext_msg,
      v ∈ msg_voted message ++ msg_accepted message
      ∧ ext_msg ∈ Node.externalized_slot_counter self
      ∧ shares_transaction v (value (ext_ballot ext_msg)).
Proof.
  unfold Node.is_message_externalized.
  rewrite <- existsb_app, existsb_exists.
  unfold Node.is_transaction_in_externalized_slots, shares_transaction. split.
  - intros (v & Hv & Hex). apply existsb_exists in Hex as (tx & Htx & Hex).
    apply existsb_exists in Hex as (m & Hm & Hex).
    apply existsb_exists in Hex as (tx' & Htx' & E).
    apply bool_decide_eq_true in E.
    exists v, m. rewrite !list_elem_of_In. split; [done|]. split; [done|].
    exists tx. rewrite !list_elem_of_In. split; [done|].
    destruct tx, tx'. simpl in E. by subst.
  - intros (v & m & Hv & Hm & tx & Htx & Htx').
    exists v. split; [by apply list_elem_of_In|].
    apply existsb_exists. exists tx. split; [by apply list_elem_of_In|].
    apply existsb_exists. exists m. split; [by apply list_elem_of_In|].
    apply existsb_exists. exists tx. split; [by apply list_elem_of_In|].
    by apply bool_decide_eq_true.
Qed.

Lemma ballot_threshold_counts_distinct_names_witness :
  let p0 := mkNodeRef 1 "0" in
  let p1 := mkNodeRef 2 "1" in
  let quorum := [QuorumSet.Peer p0;
                 QuorumSet.Nested [QuorumSet.Peer p0; QuorumSet.Peer p1]] in
  let entry := mkBallotEntry {[ "0" ]} {[ "1" ]} ∅ ∅ in
  let signed : gset string :=
    list_to_set (node_name <$> QuorumSet._flatten quorum)
    ∩ (be_voted entry ∪ be_accepted entry) in
  QuorumSet.check_prepare_threshold ballot_11 quorum 3 [(value_11, entry)]
    = bool_decide (3 ≤ Z.of_nat (size signed))
  ∧ QuorumSet.check_commit_threshold ballot_11 quorum 3 [(value_11, entry)]
    = bool_decide (3 ≤ Z.of_nat (size signed)).
Proof.
  intros p0 p1 quorum entry.
  apply (ballot_threshold_counts_distinct_names ballot_11 quorum 3
           [(value_11, entry)] entry).
  reflexivity.
Defined.

Lemma retrieve_random_peer_not_caller_witness :
  let self := QuorumSet.set (QuorumSet.__init__ node_A None None)
                (node_A :: peers 2) None in
  node_is (mkNodeRef 1 "0") node_A = false
  ∧ mkNodeRef 1 "0"
    ∈ QuorumSet.nodes self ++ QuorumSet._flatten (QuorumSet.inner_sets self).
Proof.
  intros self.
  apply (proj1 (retrieve_random_peer_not_caller self node_A 0)).
  reflexivity.
Defined.

Lemma update_statement_count_records_witness :
  ∃ e,
    Node.statement_counter
      (Node.update_statement_count (Node.__init__ node_A) (mkNodeRef 1 "0")
         (Node.FValue value_11, Node.FOther))
    !! Value.hash value_11 = Some e
    ∧ is_Some (nom_voted e !! "0").
Proof.
  apply (proj1 (update_statement_count_records (Node.__init__ node_A)
                  (mkNodeRef 1 "0") (Node.FValue value_11, Node.FOther))).
  simpl. left.
Defined.

Lemma update_prepare_balloting_state_confirms_witness :
  Node.b_confirmed
    (Node.balloting_state
       (Node.update_prepare_balloting_state
          (Node.update_prepare_balloting_state node_overlapping
             (mkBallot 7 value_11_22) "voted")
          (mkBallot 7 value_11_22) "accepted"))
  !! Value.hash value_11_22 = Some ballot_11_22.
Proof.
  rewrite (proj2 (update_prepare_balloting_state_confirms node_overlapping
                    (mkBallot 7 value_11_22) ballot_11_22
                    eq_refl eq_refl eq_refl)).
  reflexivity.
Defined.


Lemma process_prepare_ballot_message_keeps_keys_witness :
  ∃ after,
    Node.process_prepare_ballot_message node_overlapping
      (mkPrepare (mkBallot 5 value_11) 0 0 0) (mkNodeRef 1 "0")
    = Ok after
    ∧ keyed (Node.b_voted (Node.balloting_state after)).
Proof.
  destruct (process_prepare_ballot_message_keeps_keys node_overlapping
              (mkPrepare (mkBallot 5 value_11) 0 0 0) (mkNodeRef 1 "0"))
    as (after & E & Hk & _).
  - intros k b Hb. unfold node_overlapping in Hb. simpl in Hb.
    apply lookup_singleton_Some in Hb as [<- <-]. reflexivity.
  - intros k b Hb. unfold node_overlapping in Hb. simpl in Hb.
    by rewrite lookup_empty in Hb.
  - intros k b Hb. unfold node_overlapping in Hb. simpl in Hb.
    by rewrite lookup_empty in Hb.
  - by exists after.
Defined.

Lemma simple_process_commit_ballot_message_records_witness :
  let self :=
    Node.set_quorum (Node.__init__ node_A) (peers 2) None None
      <| Node.commit_ballot_state :=
           Node.mkCommitState {[ Value.hash value_11 := ballot_11 ]} ∅ ∅ |>
      <| Node.commit_ballot_statement_counter :=
           [(value_11, mkBallotEntry {[ "0" ]} ∅ ∅ ∅)] |> in
  Node.check_Commit_Quorum_threshold
    (Node.simple_process_commit_ballot_message self (mkCommit ballot_11 0)
       (mkNodeRef 2 "1"))
    ballot_11 = Ok true.
Proof.
  intros self.
  apply (simple_process_commit_ballot_message_records self
           (mkCommit ballot_11 0) (mkNodeRef 2 "1")).
  vm_compute. reflexivity.
Defined.


Lemma collect_finalised_transactions_covers_witness :
  let self :=
    Node.__init__ node_A
      <| Node.slot := 2 |>
      <| Node.externalized_slot_counter := [externalize_11] |> in
  tx_hash (tx 11)
  ∈ Node.finalised_transactions (Node.collect_finalised_transactions self).
Proof.
  intros self.
  refine (proj1 (proj2 (collect_finalised_transactions_covers self _)) _
            externalize_11 (tx 11) _ _).
  - intros k t Hk. simpl in Hk. by apply elem_of_nil in Hk.
  - simpl. lia.
  - simpl. left.
  - simpl. left.
Defined.

Lemma prepare_Externalize_msg_advances_witness :
  ∃ after,
    @Node.prepare_Externalize_msg example_environment PyFloat.one 0
      node_overlapping = Node.Returned after
    ∧ Node.slot after = 2
    ∧ Node.is_transaction_in_externalized_slots after (tx_hash (tx 11)) = true.
Proof.
  destruct (proj1 (proj2 (@prepare_Externalize_msg_advances example_environment
                            PyFloat.one 0 node_overlapping) ballot_11
                     eq_refl eq_refl) [] eq_refl)
    as (after & Hrun & Hst & Htx).
  exists after. split; [exact Hrun|]. split.
  - unfold standing in Hst. by injection Hst as -> _ _ _ _ _ _ _.
  - apply Htx. simpl. left.
Defined.

Lemma process_externalize_msg_adopts_witness :
  ∃ after,
    @Node.process_externalize_msg example_environment PyFloat.one
      (Node.attach_mempool (Node.__init__ node_A) []) 1 externalize_11
      (mkNodeRef 1 "0") = Node.Returned after
    ∧ Node.slot after = 2
    ∧ Node.is_transaction_in_externalized_slots after (tx_hash (tx 11)) = true.
Proof.
  destruct (proj1 (@process_externalize_msg_adopts example_environment
                     PyFloat.one (Node.attach_mempool (Node.__init__ node_A) [])
                     1 externalize_11 (mkNodeRef 1 "0") eq_refl eq_refl)
              [] eq_refl)
    as (after & Hrun & Hst & _ & Htx).
  exists after. split; [exact Hrun|]. split.
  - unfold standing in Hst. by injection Hst as -> _ _ _ _ _ _ _.
  - apply Htx. simpl. left.
Defined.

Lemma get_priority_list_grows_witness :
  ∃ after neighbors,
    @Node.get_priority_list example_environment
      (Node.set_quorum (Node.__init__ node_A) (peers 2) None None)
    = Ok (after, neighbors)
    ∧ node_A ∈ neighbors.
Proof.
  eexists _, _.
  eassert (Hrun : @Node.get_priority_list example_environment
                    (Node.set_quorum (Node.__init__ node_A) (peers 2) None None)
                  = Ok (_, _)) by (vm_compute; reflexivity).
  split; [exact Hrun|].
  apply (proj2 (proj2 (@get_priority_list_grows example_environment _ _ _ Hrun))).
  vm_compute. reflexivity.
Defined.


Lemma update_commit_balloting_state_confirms_witness :
  let self :=
    Node.__init__ node_A
      <| Node.commit_ballot_state :=
           Node.mkCommitState {[ Value.hash value_11 := ballot_11 ]} ∅ ∅ |> in
  Node.c_confirmed
    (Node.commit_ballot_state
       (Node.update_commit_balloting_state
          (Node.update_commit_balloting_state self (mkBallot 7 value_11) "voted")
          (mkBallot 7 value_11) "accepted"))
  !! Value.hash value_11 = Some ballot_11.
Proof.
  intros self.
  rewrite (proj2 (update_commit_balloting_state_confirms self
                    (mkBallot 7 value_11) ballot_11 eq_refl eq_refl eq_refl)).
  reflexivity.
Defined.

